(** * The record cache of the store: identity map, merge protocol, push,
      fetch coordination and snapshots

    A shallow embedding of
      - [system/store/internal-model-factory.ts] (module [InternalModelFactory]),
      - [system/core-store.ts] (module [CoreStore]: [_load], [_push],
        [_fetchDataIfNeededForIdentifier], [_findBelongsToByJsonApiResource]),
      - [system/snapshot.ts] (module [SnapshotClass]).

    Objects with reference identity (identifiers, internal models, promises,
    snapshots, plain JS objects and arrays) live in tables of the [Store]
    record and are denoted by their key; reference equality is equality of
    keys.  Code that can throw runs in the monad [M]: a failing step returns
    the store as it was when the exception was raised, nothing is rolled
    back.  [assert] has the meaning it has in a development build: a false
    test throws. *)

From stdpp Require Import gmap strings list.

Open Scope string_scope.

(** ** JavaScript values *)

(** The values an attribute can hold.  Objects, arrays and snapshots are
    references into the tables of the store. *)
Inductive JsValue : Type :=
  | VUndefined
  | VNull
  | VBool (b : bool)
  | VNumber (n : Z)
  | VString (s : string)
  | VRef (loc : nat)
  | VSnapshot (snapshot : nat).

Global Instance JsValue_eq_dec : EqDecision JsValue.
Proof. solve_decision. Defined.

(** A plain object (a dictionary) or an array. *)
Inductive HeapCell : Type :=
  | JsObject (props : gmap string JsValue)
  | JsArray (items : list JsValue).

(** The value of an [id] property: [undefined], [null] or a string. *)
Inductive IdValue : Type :=
  | IdUndefined
  | IdNull
  | IdString (s : string).

Global Instance IdValue_eq_dec : EqDecision IdValue.
Proof. solve_decision. Defined.

(** What can be thrown: a failed [assert] of [@ember/debug], or
    [throw new Error(message)].  [Undetermined] is no exception of the
    program: a call ends with it where its outcome depends on code that
    neither the sources nor the spec describe, and no theorem says what
    the program does there. *)
Inductive Exn : Type :=
  | AssertionFailed (message : string)
  | JsError (message : string)
  | Undetermined (what : string).

Inductive Res (A : Type) : Type :=
  | Ok (a : A)
  | Throw (e : Exn).
Arguments Ok {A} a.
Arguments Throw {A} e.

(** ** Resources and identifiers *)

(** A resource object or resource identifier object of a normalized
    document.  [None] in [res_type], [res_id] or [res_lid] is a property the
    object does not have (['id' in resourceData] is false). *)
Record ResourceData : Type := mkResource {
  res_type : option string;
  res_id : option IdValue;
  res_lid : option string;
  res_attributes : gmap string JsValue;
}.

(** [data.id] read from an object: a missing property reads [undefined]. *)
Definition read_id (r : ResourceData) : IdValue :=
  default IdUndefined (res_id r).

(** [`${x}`] for the values that appear in messages. *)
Definition show_type (t : option string) : string := default "undefined" t.
Definition show_id (i : option string) : string := default "null" i.
Definition show_IdValue (v : IdValue) : string :=
  match v with
  | IdUndefined => "undefined"
  | IdNull => "null"
  | IdString s => s
  end.

(** Modelled from the spec: [system/coerce-id.ts] is not among the sources.
    The spec's identifiers carry [id: string|null]; an id that is [null],
    [undefined] or empty is no id. *)
Definition coerceId (v : IdValue) : option string :=
  match v with
  | IdString s => if bool_decide (s = "") then None else Some s
  | _ => None
  end.

(** Modelled from the spec: [ensureStringId] of the same absent file.  All
    that is known of it is its result on a non-empty string, the string
    itself: [_load] applies it after the assertion that the id is one.
    What it does with [null], [undefined] and the empty string is not
    determined by the sources or the spec: [None] stands for that, and is
    never a result of the function. *)
Definition ensureStringId (v : IdValue) : option string :=
  match v with
  | IdString s => if bool_decide (s = "") then None else Some s
  | IdNull | IdUndefined => None
  end.

(** Modelled from the spec: [system/normalize-model-name.ts] is not among
    the sources.  The documents of the spec carry [type] in normalised form,
    on which normalisation is the identity. *)
Definition normalizeModelName (t : string) : string := t.

(** A string-or-null as the value of an [id] property. *)
Definition id_property (i : option string) : IdValue :=
  match i with
  | Some s => IdString s
  | None => IdNull
  end.

(** Modelled from the spec: [utils/construct-resource.ts] is not among the
    sources.  [constructResource(type, id, lid)] builds the resource
    identifier object [{type, id, lid}]. *)
Definition constructResource3 (type : option string) (id lid : option string)
  : ResourceData :=
  {| res_type := type;
     res_id := Some (id_property id);
     res_lid := lid;
     res_attributes := ∅ |}.

(** [constructResource(resource)]: the same from an object, with its [type]
    normalised and its [id] and [lid] coerced. *)
Definition constructResource (resource : ResourceData) : ResourceData :=
  constructResource3 (normalizeModelName <$> res_type resource)
                     (coerceId (read_id resource))
                     (res_lid resource).

(** The fields of a [StableRecordIdentifier] object.  The object itself is
    denoted by its [lid], which never changes and is unique; the current
    [type] and [id] of an identifier are read from the identifier cache. *)
Record StableRecordIdentifier : Type := mkIdentifier {
  ident_type : string;
  ident_id : option string;
  ident_lid : string;
}.

Global Instance StableRecordIdentifier_eq_dec : EqDecision StableRecordIdentifier.
Proof. solve_decision. Defined.

(** Modelled from the spec: [identifiers/cache.ts] is not among the sources.
    Section 4.1 of the spec: every identifier ever created stays a valid
    object ([cache_identifiers], by [lid]); the lookup tables hold those that
    are on file ([cache_lids], oldest first) and forgetting an identifier
    only removes it from them. *)
Record IdentifierCache : Type := mkIdentifierCache {
  cache_identifiers : gmap string (string * option string);
  cache_lids : list string;
}.

(** ** Record cache entries *)

(** Modelled from the spec: the states of section 4.3. *)
Inductive RecordState : Type :=
  | root_empty
  | root_loading
  | loaded_saved
  | loaded_updated_uncommitted
  | loaded_updated_inFlight
  | loaded_updated_invalid
  | created_uncommitted
  | created_inFlight
  | deleted_uncommitted
  | deleted_inFlight
  | deleted_saved.

Global Instance RecordState_eq_dec : EqDecision RecordState.
Proof. solve_decision. Defined.

(** Modelled from the spec: [system/model/internal-model.ts] is not among
    the sources.  A record cache entry: the back-reference to its
    identifier, the [_id] the factory assigns, the state of section 4.3,
    whether a load ever succeeded, whether the presentation object is
    materialized, the pending deferred destroy, and the data last set up. *)
Record InternalModel : Type := mkInternalModel {
  im_identifier : string;
  im_modelName : string;
  im__id : option string;
  im_currentState : RecordState;
  im_isLoaded : bool;
  im_hasRecord : bool;
  im__scheduledDestroy : bool;
  im_isDestroyed : bool;
  im_data : option ResourceData;
}.

Definition im_isEmpty (im : InternalModel) : bool :=
  bool_decide (im_currentState im = root_empty).
Definition im_isLoading (im : InternalModel) : bool :=
  bool_decide (im_currentState im = root_loading).
Definition im_isNew (im : InternalModel) : bool :=
  bool_decide (im_currentState im = created_uncommitted)
  || bool_decide (im_currentState im = created_inFlight).
Definition im_isDeleted (im : InternalModel) : bool :=
  bool_decide (im_currentState im = deleted_uncommitted)
  || bool_decide (im_currentState im = deleted_inFlight)
  || bool_decide (im_currentState im = deleted_saved).

(** ** Relationships, schema, record data, fetches, snapshots *)

Inductive RelationshipKind : Type :=
  | belongsToKind
  | hasManyKind.

Global Instance RelationshipKind_eq_dec : EqDecision RelationshipKind.
Proof. solve_decision. Defined.

(** The [data] member of a relationship payload: not known ([undefined]),
    known and unset ([null]), one resource identifier, or an array. *)
Inductive RelationshipData : Type :=
  | DataUndefined
  | DataNull
  | DataOne (member : ResourceData)
  | DataMany (members : list ResourceData).

(** The flags of an edge that relationship resolution reads
    ([resource._relationship.state]). *)
Record RelationshipState : Type := mkRelationshipState {
  isStale : bool;
  hasDematerializedInverse : bool;
  hasReceivedData : bool;
  isEmpty : bool;
  shouldForceReload : bool;
}.

(** A relationship as [getData()] of the graph returns it and as
    [_findBelongsToByJsonApiResource] receives it: [data], [links.related]
    and the state of the edge it came from. *)
Record JsonApiRelationship : Type := mkRelationship {
  rel_kind : RelationshipKind;
  rel_data : RelationshipData;
  rel_links_related : option string;
  rel_state : RelationshipState;
}.

(** What the schema service knows of a type: the names of its attributes (in
    the order of [Object.keys]), the kind of each relationship, and whether
    the schema is a DS Model class. *)
Record ModelSchema : Type := mkModelSchema {
  schema_attributes : list string;
  schema_relationships : gmap string RelationshipKind;
  schema_isModel : bool;
}.

(** Modelled from the spec: the record data of an identifier (package
    [@ember-data/record-data], not among the sources): its attribute values
    and its changed attributes, each with the old and the new value. *)
Record RecordDataState : Type := mkRecordData {
  rd_attributes : gmap string JsValue;
  rd_changedAttributes : list (string * (JsValue * JsValue));
}.

(** A request handed to the transport collaborator. *)
Inductive TransportRequest : Type :=
  | FindRecordRequest (identifier : string)
  | FindBelongsToRequest (parentIdentifier : string) (link : string).

(** A promise: in flight, or resolved with an identifier or [null]. *)
Inductive PromiseState : Type :=
  | PromisePending
  | PromiseResolved (value : option string).

(** The fields of a [Snapshot] (snapshot.ts, lines 44-56).  [__attributes]
    and [_changedAttributes] refer to objects of the heap; the four memo
    dictionaries are created by the snapshot with [Object.create(null)] and
    never handed out, so they are kept in place. *)
Record Snapshot : Type := mkSnapshot {
  snap___attributes : option nat;
  snap__belongsToRelationships : gmap string JsValue;
  snap__belongsToIds : gmap string JsValue;
  snap__hasManyRelationships : gmap string JsValue;
  snap__hasManyIds : gmap string JsValue;
  snap__internalModel : nat;
  snap__changedAttributes : option nat;
  snap_identifier : string;
  snap_modelName : string;
  snap_id : option string;
}.

(** An adapter, of which [createRecord] reads one thing: the method
    [generateIdForRecord], if the adapter has it, which gives the id of a
    new record of a model name. *)
Record Adapter : Type := mkAdapter {
  adapter_generateIdForRecord : option (string → IdValue);
}.

(** ** The store *)

(** The mutable state of one store instance and of the objects it has
    created.  [_identityMap] maps a type to its [InternalModelMap], which
    maps a [lid] to an internal model; [internalModels], [promises], [heap]
    and [snapshots] hold the objects themselves.  [adapters] is what the
    owner has registered under [adapter:NAME], by [NAME]. *)
Record Store : Type := mkStore {
  isDestroying : bool;
  isDestroyed : bool;
  identifierCache : IdentifierCache;
  _identityMap : gmap string (gmap string nat);
  internalModels : gmap nat InternalModel;
  pendingFetch : gmap string nat;
  promises : gmap nat PromiseState;
  transport : list TransportRequest;
  recordArrayChanges : list string;
  schema : gmap string ModelSchema;
  graph : gmap (string * string) JsonApiRelationship;
  recordData : gmap string RecordDataState;
  heap : gmap nat HeapCell;
  snapshots : gmap nat Snapshot;
  adapters : gmap string Adapter;
  _adapterCache : gmap string Adapter;
}.

Definition set_identifierCache (c : IdentifierCache) (st : Store) : Store :=
  mkStore (isDestroying st) (isDestroyed st) c (_identityMap st)
          (internalModels st) (pendingFetch st) (promises st) (transport st)
          (recordArrayChanges st) (schema st) (graph st) (recordData st)
          (heap st) (snapshots st) (adapters st) (_adapterCache st).
Definition set_identityMap (m : gmap string (gmap string nat)) (st : Store) : Store :=
  mkStore (isDestroying st) (isDestroyed st) (identifierCache st) m
          (internalModels st) (pendingFetch st) (promises st) (transport st)
          (recordArrayChanges st) (schema st) (graph st) (recordData st)
          (heap st) (snapshots st) (adapters st) (_adapterCache st).
Definition set_internalModels (m : gmap nat InternalModel) (st : Store) : Store :=
  mkStore (isDestroying st) (isDestroyed st) (identifierCache st) (_identityMap st)
          m (pendingFetch st) (promises st) (transport st)
          (recordArrayChanges st) (schema st) (graph st) (recordData st)
          (heap st) (snapshots st) (adapters st) (_adapterCache st).
Definition set_pendingFetch (m : gmap string nat) (st : Store) : Store :=
  mkStore (isDestroying st) (isDestroyed st) (identifierCache st) (_identityMap st)
          (internalModels st) m (promises st) (transport st)
          (recordArrayChanges st) (schema st) (graph st) (recordData st)
          (heap st) (snapshots st) (adapters st) (_adapterCache st).
Definition set_promises (m : gmap nat PromiseState) (st : Store) : Store :=
  mkStore (isDestroying st) (isDestroyed st) (identifierCache st) (_identityMap st)
          (internalModels st) (pendingFetch st) m (transport st)
          (recordArrayChanges st) (schema st) (graph st) (recordData st)
          (heap st) (snapshots st) (adapters st) (_adapterCache st).
Definition set_transport (l : list TransportRequest) (st : Store) : Store :=
  mkStore (isDestroying st) (isDestroyed st) (identifierCache st) (_identityMap st)
          (internalModels st) (pendingFetch st) (promises st) l
          (recordArrayChanges st) (schema st) (graph st) (recordData st)
          (heap st) (snapshots st) (adapters st) (_adapterCache st).
Definition set_recordArrayChanges (l : list string) (st : Store) : Store :=
  mkStore (isDestroying st) (isDestroyed st) (identifierCache st) (_identityMap st)
          (internalModels st) (pendingFetch st) (promises st) (transport st)
          l (schema st) (graph st) (recordData st)
          (heap st) (snapshots st) (adapters st) (_adapterCache st).
Definition set_heap (h : gmap nat HeapCell) (st : Store) : Store :=
  mkStore (isDestroying st) (isDestroyed st) (identifierCache st) (_identityMap st)
          (internalModels st) (pendingFetch st) (promises st) (transport st)
          (recordArrayChanges st) (schema st) (graph st) (recordData st)
          h (snapshots st) (adapters st) (_adapterCache st).
Definition set_snapshots (m : gmap nat Snapshot) (st : Store) : Store :=
  mkStore (isDestroying st) (isDestroyed st) (identifierCache st) (_identityMap st)
          (internalModels st) (pendingFetch st) (promises st) (transport st)
          (recordArrayChanges st) (schema st) (graph st) (recordData st)
          (heap st) m (adapters st) (_adapterCache st).

Definition set_adapterCache (m : gmap string Adapter) (st : Store) : Store :=
  mkStore (isDestroying st) (isDestroyed st) (identifierCache st) (_identityMap st)
          (internalModels st) (pendingFetch st) (promises st) (transport st)
          (recordArrayChanges st) (schema st) (graph st) (recordData st)
          (heap st) (snapshots st) (adapters st) m.
(** The relationship graph and the record data belong to the package
    [@ember-data/record-data]; they change when it is told to change them. *)
Definition set_graph (g : gmap (string * string) JsonApiRelationship) (st : Store) : Store :=
  mkStore (isDestroying st) (isDestroyed st) (identifierCache st) (_identityMap st)
          (internalModels st) (pendingFetch st) (promises st) (transport st)
          (recordArrayChanges st) (schema st) g (recordData st)
          (heap st) (snapshots st) (adapters st) (_adapterCache st).
Definition set_recordData (d : gmap string RecordDataState) (st : Store) : Store :=
  mkStore (isDestroying st) (isDestroyed st) (identifierCache st) (_identityMap st)
          (internalModels st) (pendingFetch st) (promises st) (transport st)
          (recordArrayChanges st) (schema st) (graph st) d
          (heap st) (snapshots st) (adapters st) (_adapterCache st).

(** ** The monad of store operations *)

Definition M (A : Type) : Type := Store → Store * Res A.

Definition ret {A} (a : A) : M A := λ st, (st, Ok a).
Definition throw {A} (e : Exn) : M A := λ st, (st, Throw e).
Definition bind {A B} (c : M A) (k : A → M B) : M B :=
  λ st, match c st with
        | (st', Ok a) => k a st'
        | (st', Throw e) => (st', Throw e)
        end.
Definition gets {A} (f : Store → A) : M A := λ st, (st, Ok (f st)).
Definition modify (f : Store → Store) : M unit := λ st, (f st, Ok tt).

Notation "'let!' x ':=' c 'in' k" := (bind c (λ x, k))
  (at level 10, x name, c at level 100, k at level 200).
Notation "'do!' c 'in' k" := (bind c (λ _, k))
  (at level 10, c at level 100, k at level 200).

(** [assert(message, test)] of [@ember/debug]. *)
Definition assert (message : string) (test : bool) : M unit :=
  if test then ret tt else throw (AssertionFailed message).

(** [when c body]: [if (c) { body }]. *)
Definition when (c : bool) (body : M unit) : M unit :=
  if c then body else ret tt.

(** Running a loop body over an array, in order, collecting the results. *)
Fixpoint forEach {A B} (f : A → M B) (l : list A) : M (list B) :=
  match l with
  | [] => ret []
  | x :: l' => let! y := f x in let! ys := forEach f l' in ret (y :: ys)
  end.

(** ** The identifier cache *)

Module Identifiers.

(** Modelled from the spec: the identifier object behind a [lid], with its
    current [type] and [id]. *)
Definition identifierOf (c : IdentifierCache) (lid : string)
  : StableRecordIdentifier :=
  match cache_identifiers c !! lid with
  | Some (t, i) => mkIdentifier t i lid
  | None => mkIdentifier "" None lid
  end.

(** An identifier object passed where a resource is expected. *)
Definition asResource (i : StableRecordIdentifier) : ResourceData :=
  {| res_type := Some (ident_type i);
     res_id := Some (id_property (ident_id i));
     res_lid := Some (ident_lid i);
     res_attributes := ∅ |}.

(** The identifier on file with this [(type, id)], if any. *)
Definition findByTypeAndId (c : IdentifierCache) (t : string) (i : string)
  : option string :=
  find (λ l, bool_decide (cache_identifiers c !! l = Some (t, Some i)))
       (cache_lids c).

(** Modelled from the spec: [peekIdentifier]: "non-creating lookup;
    returns none if not found", by [lid] first, then by [(type, id)]. *)
Definition peekRecordIdentifier (c : IdentifierCache) (resource : ResourceData)
  : option string :=
  let byTypeAndId :=
    match res_type resource, coerceId (read_id resource) with
    | Some t, Some i => findByTypeAndId c (normalizeModelName t) i
    | _, _ => None
    end in
  match res_lid resource with
  | Some l => if bool_decide (l ∈ cache_lids c) then Some l else byTypeAndId
  | None => byTypeAndId
  end.

(** A new identifier object, put on file. *)
Definition register (l t : string) (i : option string) (c : IdentifierCache)
  : IdentifierCache :=
  {| cache_identifiers := <[l := (t, i)]> (cache_identifiers c);
     cache_lids := cache_lids c ++ [l] |}.

(** A [lid] no identifier ever had. *)
Definition generateLid (c : IdentifierCache) : string :=
  fresh (dom (cache_identifiers c)).

(** Modelled from the spec: [getOrCreateIdentifier]: "returns the existing
    identifier if lid matches one on file, else if (type,id) matches one
    on file, else creates and registers a new identifier". *)
Definition getOrCreateRecordIdentifier (resource : ResourceData) : M string :=
  λ st,
    let c := identifierCache st in
    match peekRecordIdentifier c resource with
    | Some l => (st, Ok l)
    | None =>
        match res_type resource with
        | None => (st, Throw (JsError "resource.type needs to be a string"))
        | Some t =>
            let l := default (generateLid c) (res_lid resource) in
            (set_identifierCache
               (register l (normalizeModelName t) (coerceId (read_id resource)) c) st,
             Ok l)
        end
    end.

(** Modelled from the spec: [createIdentifierForNewRecord]: "always
    creates a fresh identifier even if id is null; fails if a non-null id
    collides with an existing registered identifier". *)
Definition createIdentifierForNewRecord (t : string) (i : option string) : M string :=
  λ st,
    let c := identifierCache st in
    let collides :=
      match i with
      | Some s => bool_decide (is_Some (findByTypeAndId c t s))
      | None => false
      end in
    if collides
    then (st, Throw (JsError ("The id " +:+ show_id i +:+
                              " has already been used with another '" +:+ t +:+
                              "' record.")))
    else let l := generateLid c in
         (set_identifierCache (register l t i c) st, Ok l).

(** Modelled from the spec: [forgetIdentifier]: "removes from lookup
    tables; does not invalidate already-held references". *)
Definition forgetRecordIdentifier (l : string) : M unit :=
  modify (λ st,
    let c := identifierCache st in
    set_identifierCache
      {| cache_identifiers := cache_identifiers c;
         cache_lids := filter (λ l', l' ≠ l) (cache_lids c) |} st).

End Identifiers.

(** ** Internal models and the maps that file them *)

Module InternalModels.

(** Reading a field of the internal model object [im]. *)
Definition field {A} (f : InternalModel → A) (d : A) (im : nat) (st : Store) : A :=
  from_option f d (internalModels st !! im).

Definition hasRecord (im : nat) (st : Store) : bool := field im_hasRecord false im st.
Definition identifier (im : nat) (st : Store) : string := field im_identifier "" im st.
Definition modelName (im : nat) (st : Store) : string := field im_modelName "" im st.
Definition id (im : nat) (st : Store) : option string := field im__id None im st.
Definition isEmpty (im : nat) (st : Store) : bool := field im_isEmpty false im st.
Definition isLoading (im : nat) (st : Store) : bool := field im_isLoading false im st.
Definition isLoaded (im : nat) (st : Store) : bool := field im_isLoaded false im st.
Definition isDeleted (im : nat) (st : Store) : bool := field im_isDeleted false im st.
Definition data (im : nat) (st : Store) : option ResourceData := field im_data None im st.

(** Modelled from the spec: [hasScheduledDestroy]: a deferred destroy is
    pending ("unload is asynchronous and cancellable"). *)
Definition hasScheduledDestroy (im : nat) (st : Store) : bool :=
  field im__scheduledDestroy false im st.

(** Assigning to fields of the object [im]. *)
Definition update (f : InternalModel → InternalModel) (im : nat) : M unit :=
  modify (λ st, set_internalModels (alter f im (internalModels st)) st).

Definition with_id (i : option string) (m : InternalModel) : InternalModel :=
  mkInternalModel (im_identifier m) (im_modelName m) i (im_currentState m)
    (im_isLoaded m) (im_hasRecord m) (im__scheduledDestroy m) (im_isDestroyed m)
    (im_data m).
Definition with_scheduledDestroy (b : bool) (m : InternalModel) : InternalModel :=
  mkInternalModel (im_identifier m) (im_modelName m) (im__id m) (im_currentState m)
    (im_isLoaded m) (im_hasRecord m) b (im_isDestroyed m) (im_data m).
Definition with_hasRecord (b : bool) (m : InternalModel) : InternalModel :=
  mkInternalModel (im_identifier m) (im_modelName m) (im__id m) (im_currentState m)
    (im_isLoaded m) b (im__scheduledDestroy m) (im_isDestroyed m) (im_data m).
Definition with_currentState (s : RecordState) (m : InternalModel) : InternalModel :=
  mkInternalModel (im_identifier m) (im_modelName m) (im__id m) s
    (im_isLoaded m) (im_hasRecord m) (im__scheduledDestroy m) (im_isDestroyed m)
    (im_data m).
Definition destroyed (m : InternalModel) : InternalModel :=
  mkInternalModel (im_identifier m) (im_modelName m) (im__id m) (im_currentState m)
    (im_isLoaded m) false false true (im_data m).

(** Modelled from the spec: [cancelDestroy]: "the destroy is cancelled and
    the entry continues to live". *)
Definition cancelDestroy (im : nat) : M unit :=
  update (with_scheduledDestroy false) im.

(** Modelled from the spec: [unloadRecord] on an entry: "unload is
    asynchronous (deferred to the end of the current batch of work)": the
    teardown is scheduled, not run. *)
Definition unloadRecord (im : nat) : M unit :=
  update (λ m, with_scheduledDestroy true (with_hasRecord false m)) im.

(** Modelled from the spec: [deleteRecord] on an entry: "any loaded state
    → deleted.uncommitted". *)
Definition deleteRecord (im : nat) : M unit :=
  update (with_currentState deleted_uncommitted) im.

(** Modelled from the spec: [setupData]: the pushed resource becomes the
    data of the entry; an entry that was empty or loading is now loaded
    ([empty → loading → loaded.saved]). *)
Definition setupData (data : ResourceData) (im : nat) : M unit :=
  update (λ m,
    mkInternalModel (im_identifier m) (im_modelName m) (im__id m)
      (if im_isEmpty m || im_isLoading m then loaded_saved else im_currentState m)
      true (im_hasRecord m) (im__scheduledDestroy m) (im_isDestroyed m)
      (Some data)) im.

(** [new InternalModel(store, identifier)]: a new object, empty, for the
    identifier with the given fields. *)
Definition create (i : StableRecordIdentifier) : M nat :=
  λ st,
    let im := fresh (dom (internalModels st)) in
    (set_internalModels
       (<[im := mkInternalModel (ident_lid i) (ident_type i) (ident_id i)
                  root_empty false false false false None]> (internalModels st)) st,
     Ok im).

End InternalModels.

(** ** system/store/internal-model-factory.ts *)

Module InternalModelFactory.

(** [modelMapFor(type)]: [this._identityMap.retrieve(type)], the map of
    the type (empty until something is filed in it). *)
Definition modelMapFor (type : string) (st : Store) : gmap string nat :=
  default ∅ (_identityMap st !! type).

(** Modelled from the spec: [system/internal-model-map.ts] is not among
    the sources.  "The mapping from identifier to Record Cache Entry",
    "keyed by identifier lid": [get] returns the entry filed under a lid
    or [null], [add] files one, [remove] empties the slot. *)
Definition mapGet (type lid : string) (st : Store) : option nat :=
  modelMapFor type st !! lid.
Definition mapAdd (type : string) (im : nat) (lid : string) : M unit :=
  modify (λ st,
    set_identityMap (<[type := <[lid := im]> (modelMapFor type st)]> (_identityMap st)) st).
Definition mapRemove (type : string) (im : nat) (lid : string) : M unit :=
  modify (λ st,
    set_identityMap (<[type := delete lid (modelMapFor type st)]> (_identityMap st)) st).

(** [identifier.id === resourceData.id] *)
Definition sameId (i : option string) (v : IdValue) : bool :=
  bool_decide (id_property i = v).

(** The [intendedIdentifier] of the merge callback (lines 105-111). *)
Definition intendedIdentifier
    (identifier matchedIdentifier : StableRecordIdentifier)
    (resourceData : ResourceData) : StableRecordIdentifier :=
  if bool_decide (ident_id identifier ≠ ident_id matchedIdentifier) then
    if bool_decide (is_Some (res_id resourceData))
       && sameId (ident_id identifier) (read_id resourceData)
    then identifier else matchedIdentifier
  else if bool_decide (ident_type identifier ≠ ident_type matchedIdentifier) then
    if bool_decide (is_Some (res_type resourceData))
       && bool_decide (Some (ident_type identifier) = res_type resourceData)
    then identifier else matchedIdentifier
  else identifier.

(** The [altIdentifier] of the merge callback (line 112). *)
Definition altIdentifier
    (identifier matchedIdentifier : StableRecordIdentifier)
    (resourceData : ResourceData) : StableRecordIdentifier :=
  if bool_decide (identifier = intendedIdentifier identifier matchedIdentifier resourceData)
  then matchedIdentifier else identifier.

(** [`${identifier.type}:${identifier.id} (${identifier.lid})`] *)
Definition describe (i : StableRecordIdentifier) : string :=
  ident_type i +:+ ":" +:+ show_id (ident_id i) +:+ " (" +:+ ident_lid i +:+ ")".

Definition idInUseMessage
    (identifier matchedIdentifier : StableRecordIdentifier)
    (resourceData : ResourceData) : string :=
  "Failed to update the 'id' for the RecordIdentifier '" +:+ describe identifier
  +:+ "' to '" +:+ show_IdValue (read_id resourceData)
  +:+ "', because that id is already in use by '" +:+ describe matchedIdentifier +:+ "'".

Definition duplicateMessage
    (identifier matchedIdentifier : StableRecordIdentifier) : string :=
  "Failed to update the RecordIdentifier '" +:+ describe identifier
  +:+ "' to merge with the detected duplicate identifier '"
  +:+ describe matchedIdentifier +:+ "'".

(** The callback given to [__configureMerge] (lines 104-171). *)
Definition configuredMerge
    (identifier matchedIdentifier : StableRecordIdentifier)
    (resourceData : ResourceData) : M StableRecordIdentifier :=
  let intendedIdentifier := intendedIdentifier identifier matchedIdentifier resourceData in
  let altIdentifier := altIdentifier identifier matchedIdentifier resourceData in
  (* check for duplicate InternalModel's *)
  let map := ident_type identifier in
  let! im := gets (mapGet map (ident_lid intendedIdentifier)) in
  let! otherIm := gets (mapGet map (ident_lid altIdentifier)) in
  (* we cannot merge internalModels when both have records *)
  let! bothHaveRecords :=
    gets (λ st, match im, otherIm with
                | Some i, Some o =>
                    InternalModels.hasRecord i st && InternalModels.hasRecord o st
                | _, _ => false
                end) in
  do! when bothHaveRecords
        (do! when (bool_decide (is_Some (res_id resourceData)))
               (throw (JsError (idInUseMessage identifier matchedIdentifier resourceData))) in
         assert (duplicateMessage identifier matchedIdentifier) false) in
  (* remove otherIm from cache *)
  do! match otherIm with
      | Some o => mapRemove map o (ident_lid altIdentifier)
      | None => ret tt
      end in
  let! onlyOtherHasRecord :=
    gets (λ st, match im, otherIm with
                | Some i, Some o =>
                    negb (InternalModels.hasRecord i st) && InternalModels.hasRecord o st
                | _, _ => false
                end) in
  if bool_decide (im = None) && bool_decide (otherIm = None) then
    (* nothing more to do *)
    ret intendedIdentifier
  else if (bool_decide (im = None) && bool_decide (otherIm ≠ None)) || onlyOtherHasRecord then
    (* only the other has an InternalModel OR only the other has a Record *)
    do! match im with
        | Some i => mapRemove map i (ident_lid intendedIdentifier)
        | None => ret tt
        end in
    do! match otherIm with
        | Some o =>
            do! InternalModels.update (InternalModels.with_id (ident_id intendedIdentifier)) o in
            mapAdd map o (ident_lid intendedIdentifier)
        | None => ret tt
        end in
    ret intendedIdentifier
  else
    (* just use im *)
    ret intendedIdentifier.

(** [peek(identifier)] (lines 222-224). *)
Definition peek (identifier : string) (st : Store) : option nat :=
  mapGet (ident_type (Identifiers.identifierOf (identifierCache st) identifier))
         identifier st.

(** [remove(internalModel)] (lines 332-340). *)
Definition remove (internalModel : nat) : M unit :=
  let! recordMap := gets (InternalModels.modelName internalModel) in
  let! clientId := gets (InternalModels.identifier internalModel) in
  do! mapRemove recordMap internalModel clientId in
  let! identifier := gets (InternalModels.identifier internalModel) in
  Identifiers.forgetRecordIdentifier identifier.

(** Modelled from the spec: [destroySync] of the internal model: the
    teardown that unload deferred is run now ("the destroy has already
    executed synchronously"): the entry leaves the factory, is destroyed,
    and nothing stays scheduled. *)
Definition destroySync (internalModel : nat) : M unit :=
  do! remove internalModel in
  InternalModels.update InternalModels.destroyed internalModel.

(** [peekById(type, id)] (lines 281-296). *)
Definition peekById (type id : string) : M (option nat) :=
  let! identifier :=
    gets (λ st, Identifiers.peekRecordIdentifier (identifierCache st)
                  (constructResource3 (Some type) (Some id) None)) in
  let! internalModel :=
    gets (λ st, match identifier with
                | Some l => mapGet type l st
                | None => None
                end) in
  let! scheduled :=
    gets (λ st, match internalModel with
                | Some im => InternalModels.hasScheduledDestroy im st
                | None => false
                end) in
  match internalModel with
  | Some im =>
      if scheduled then
        do! destroySync im in
        ret None
      else ret (Some im)
  | None => ret None
  end.

(** The argument of [_build]: a stable identifier ([isCreate] false) or
    the [{type, id}] of a record being created ([isCreate] true), the two
    overloads of lines 302-303. *)
Inductive BuildResource : Type :=
  | ForIdentifier (identifier : string)
  | ForNewRecord (type : string) (id : option string).

Definition alreadyUsedMessage (type : string) (id : string) : string :=
  "The id " +:+ id +:+ " has already been used with another '" +:+ type +:+ "' record.".

(** [_build(resource, isCreate)] (lines 304-330). *)
Definition _build (resource : BuildResource) (isCreate : bool) : M nat :=
  let! fields :=
    gets (λ st, match resource with
                | ForIdentifier l =>
                    let i := Identifiers.identifierOf (identifierCache st) l in
                    (ident_type i, ident_id i)
                | ForNewRecord t i => (t, i)
                end) in
  let '(type, id) := fields in
  do! match id with
      | Some i =>
          when (isCreate && negb (bool_decide (i = "")))
            (let! existingInternalModel := peekById type i in
             assert (alreadyUsedMessage type i)
                    (bool_decide (existingInternalModel = None)))
      | None => ret tt
      end in
  let! identifier :=
    match resource with
    | ForNewRecord t i =>
        if isCreate then Identifiers.createIdentifierForNewRecord t i
        else throw (JsError "_build: not a stable identifier")
    | ForIdentifier l =>
        if isCreate
        then Identifiers.createIdentifierForNewRecord type id
        else ret l
    end in
  let! internalModel :=
    (let! i := gets (λ st, Identifiers.identifierOf (identifierCache st) identifier) in
     InternalModels.create i) in
  do! mapAdd type internalModel identifier in
  ret internalModel.

(** [build(newResourceInfo)] (lines 298-300). *)
Definition build (type : string) (id : option string) : M nat :=
  _build (ForNewRecord type id) true.

(** [lookup(resource, data?)] (lines 186-212). *)
Definition lookup (resource : ResourceData) (data : option ResourceData) : M nat :=
  do! match data with
      | Some d =>
          (* give secondary-caches for LIDs the opportunity to populate *)
          let! _ := Identifiers.getOrCreateRecordIdentifier d in ret tt
      | None => ret tt
      end in
  let! identifier := Identifiers.getOrCreateRecordIdentifier resource in
  let! internalModel := gets (peek identifier) in
  match internalModel with
  | Some im =>
      let! scheduled := gets (InternalModels.hasScheduledDestroy im) in
      do! when scheduled (InternalModels.cancelDestroy im) in
      ret im
  | None => _build (ForIdentifier identifier) false
  end.

(** [lookup(identifier)]: the same with an identifier object as the
    resource. *)
Definition lookupIdentifier (identifier : string) : M nat :=
  let! i := gets (λ st, Identifiers.identifierOf (identifierCache st) identifier) in
  lookup (Identifiers.asResource i) None.

(** [getByResource(resource)] (lines 226-230). *)
Definition getByResource (resource : ResourceData) : M nat :=
  let normalizedResource := constructResource resource in
  lookup normalizedResource None.

End InternalModelFactory.

(** ** The merge protocol of the identifier cache *)

Module IdentifierMerge.

(** Assigning [type] and [id] to the identifier object [l] in place. *)
Definition assign (l t : string) (i : option string) (c : IdentifierCache)
  : IdentifierCache :=
  {| cache_identifiers := <[l := (t, i)]> (cache_identifiers c);
     cache_lids := cache_lids c |}.

(** Another identifier on file that already denotes [(t, i)]. *)
Definition existingIdentifier (c : IdentifierCache) (identifier t i : string)
  : option string :=
  find (λ l, bool_decide (l ≠ identifier)
             && bool_decide (cache_identifiers c !! l = Some (t, Some i)))
       (cache_lids c).

(** Modelled from the spec: [updateIdentifier]: "updates id/type on an
    identifier in place when a server response reveals information.  If
    updating would cause two existing identifiers to now refer to the same
    (type,id), triggers the merge protocol and returns the identifier that
    should be treated as canonical going forward"; after the merge "the
    alternate identifier is forgotten".  The merge method is the one the
    factory configures with [__configureMerge]. *)
Definition updateRecordIdentifier (identifier : string) (data : ResourceData) : M string :=
  let! c := gets identifierCache in
  let current := Identifiers.identifierOf c identifier in
  let newType := from_option normalizeModelName (ident_type current) (res_type data) in
  let newId := match coerceId (read_id data) with
               | Some i => Some i
               | None => ident_id current
               end in
  match newId ≫= existingIdentifier c identifier newType with
  | Some other =>
      let! kept := InternalModelFactory.configuredMerge
                     current (Identifiers.identifierOf c other) data in
      let abandoned := if bool_decide (ident_lid kept = identifier)
                       then other else identifier in
      do! Identifiers.forgetRecordIdentifier abandoned in
      ret (ident_lid kept)
  | None =>
      do! modify (λ st, set_identifierCache
                          (assign identifier newType newId (identifierCache st)) st) in
      ret identifier
  end.

End IdentifierMerge.

(** ** The fetch coordinator *)

(** The options of a find request that the embedded code reads. *)
Record FindOptions : Type := mkFindOptions {
  opt_preload : option (gmap string JsValue);
  opt_adapterOptions : JsValue;
  opt_include : JsValue;
}.

Module FetchManager.

(** A new promise object. *)
Definition newPromise (p : PromiseState) : M nat :=
  λ st,
    let n := fresh (dom (promises st)) in
    (set_promises (<[n := p]> (promises st)) st, Ok n).

(** [resolve(value)] of rsvp: a new promise, already resolved. *)
Definition resolve (value : option string) : M nat :=
  newPromise (PromiseResolved value).

(** Handing a request to the transport collaborator. *)
Definition dispatch (r : TransportRequest) : M unit :=
  modify (λ st, set_transport (transport st ++ [r]) st).

(** Modelled from the spec: [system/fetch-manager.ts] is not among the
    sources.  [getPendingFetch]: "non-creating peek" into the table of
    pending fetches, which is "keyed by identifier". *)
Definition getPendingFetch (identifier : string) (options : FindOptions) (st : Store)
  : option nat :=
  pendingFetch st !! identifier.

(** Modelled from the spec: [scheduleFetch]: "if a pending fetch exists
    for this identifier, returns the same promise.  Otherwise dispatches
    to the transport collaborator, records a pending entry"; the entry of
    the identifier goes from [empty] to [loading]. *)
Definition scheduleFetch (identifier : string) (options : FindOptions) : M nat :=
  let! pending := gets (getPendingFetch identifier options) in
  match pending with
  | Some promise => ret promise
  | None =>
      do! dispatch (FindRecordRequest identifier) in
      let! promise := newPromise PromisePending in
      do! modify (λ st, set_pendingFetch (<[identifier := promise]> (pendingFetch st)) st) in
      let! internalModel := gets (InternalModelFactory.peek identifier) in
      do! match internalModel with
          | Some im =>
              InternalModels.update
                (λ m, if im_isEmpty m
                      then InternalModels.with_currentState root_loading m else m) im
          | None => ret tt
          end in
      ret promise
  end.

(** Modelled from the spec: [_findBelongsTo] of [system/store/finders.ts]
    (not among the sources): the relationship is fetched through its
    link, a request to the transport collaborator. *)
Definition _findBelongsTo (parentIdentifier link : string) (options : FindOptions) : M nat :=
  do! dispatch (FindBelongsToRequest parentIdentifier link) in
  newPromise PromisePending.

End FetchManager.

(** ** system/core-store.ts *)

(** The [data] member of a document: [null], one resource object, an array,
    or something else, of which only [typeof] matters. *)
Inductive DocumentData : Type :=
  | DocNull
  | DocOne (resource : ResourceData)
  | DocMany (resources : list ResourceData)
  | DocOther (typeofData : string).

Record JsonApiDocument : Type := mkDocument {
  doc_type : option string;
  doc_data : DocumentData;
  doc_included : option (list ResourceData);
}.

(** What [_push] returns. *)
Inductive Pushed : Type :=
  | PushedNull
  | PushedOne (identifier : string)
  | PushedMany (identifiers : list string).

Module CoreStore.

(** [assertDestroyingStore(store, method)] (lines 2978-2984). *)
Definition assertDestroyingStore (method : string) : M unit :=
  let! alive := gets (λ st, negb (isDestroying st || isDestroyed st)) in
  assert ("Attempted to call store." +:+ method
          +:+ "(), but the store instance has already been destroyed.") alive.

(** [getSchemaDefinitionService().doesTypeExist(modelName)] *)
Definition doesTypeExist (modelName : option string) (st : Store) : bool :=
  match modelName with
  | Some t => bool_decide (is_Some (schema st !! t))
  | None => false
  end.

Definition missingIdMessage (modelName : string) : string :=
  "You must include an 'id' for " +:+ modelName +:+ " in an object passed to 'push'".

Definition unknownTypeMessage (modelName : string) : string :=
  "You tried to push data with a type '" +:+ modelName
  +:+ "' but no model could be found with that name.".

(** [recordArrayManager.recordDidChange(identifier)] *)
Definition recordDidChange (identifier : string) : M unit :=
  modify (λ st, set_recordArrayChanges (recordArrayChanges st ++ [identifier]) st).

(** [coerceId(data.lid)] *)
Definition coerceLid (lid : option string) : option string :=
  lid ≫= (λ l, coerceId (IdString l)).

(** [_load(data)] (lines 2125-2203).  The block under
    [ENV.DS_WARN_ON_UNKNOWN_KEYS] only logs warnings and is left out. *)
Definition _load (data : ResourceData) : M string :=
  let modelName := res_type data in
  do! assert (missingIdMessage (show_type modelName))
        (bool_decide (read_id data ≠ IdNull)
         && bool_decide (read_id data ≠ IdUndefined)
         && bool_decide (read_id data ≠ IdString "")) in
  let! typeExists := gets (doesTypeExist modelName) in
  do! assert (unknownTypeMessage (show_type modelName)) typeExists in
  let resource :=
    constructResource3 (normalizeModelName <$> res_type data)
                       (ensureStringId (read_id data))
                       (coerceLid (res_lid data)) in
  let! maybeIdentifier :=
    gets (λ st, Identifiers.peekRecordIdentifier (identifierCache st) resource) in
  let! internalModel := InternalModelFactory.lookup resource (Some data) in
  let! isLoading :=
    gets (λ st, InternalModels.isLoading internalModel st
                || (negb (InternalModels.isLoaded internalModel st)
                    && bool_decide (is_Some maybeIdentifier))) in
  let! isUpdate :=
    gets (λ st, bool_decide (InternalModels.isEmpty internalModel st = false)
                && negb isLoading) in
  (* exclude store.push (root.empty) case *)
  let! identifier := gets (InternalModels.identifier internalModel) in
  let! resolved :=
    if isUpdate || isLoading then
      let! updatedIdentifier := IdentifierMerge.updateRecordIdentifier identifier data in
      if bool_decide (updatedIdentifier ≠ identifier) then
        (* a merge of identifiers: use the correct internalModel *)
        let! internalModel' := InternalModelFactory.lookupIdentifier updatedIdentifier in
        ret (updatedIdentifier, internalModel')
      else ret (identifier, internalModel)
    else ret (identifier, internalModel) in
  let '(identifier, internalModel) := resolved in
  do! InternalModels.setupData data internalModel in
  do! when (negb isUpdate) (recordDidChange identifier) in
  ret identifier.

Definition expectedObjectMessage (doc : JsonApiDocument) (typeofData : string) : string :=
  "Expected an object in the 'data' property in a call to 'push' for "
  +:+ show_type (doc_type doc) +:+ ", but was " +:+ typeofData.

(** [_push(jsonApiDoc)] (lines 2386-2428).  [_backburner.join] runs its
    callback synchronously. *)
Definition _push (jsonApiDoc : JsonApiDocument) : M Pushed :=
  do! assertDestroyingStore "_push" in
  let included := doc_included jsonApiDoc in
  do! match included with
      | Some resources => let! _ := forEach _load resources in ret tt
      | None => ret tt
      end in
  match doc_data jsonApiDoc with
  | DocMany resources =>
      let! identifiers := forEach _load resources in
      ret (PushedMany identifiers)
  | DocNull => ret PushedNull
  | DocOther typeofData =>
      do! assert (expectedObjectMessage jsonApiDoc typeofData)
            (bool_decide (typeofData = "object")) in
      throw (JsError "Cannot read properties of a value that is not an object")
  | DocOne resource =>
      let! identifier := _load resource in
      ret (PushedOne identifier)
  end.

(** Modelled from the spec: [getRecord] of the instance cache
    ([instance-cache.ts] is not among the sources), which "lazily
    materializes" the presentation object of an identifier. *)
Definition getRecord (identifier : string) : M unit :=
  let! internalModel := InternalModelFactory.lookupIdentifier identifier in
  InternalModels.update (InternalModels.with_hasRecord true) internalModel.

(** [push(data)] (lines 2359-2375); the records returned are the
    materialized presentation objects of the identifiers pushed. *)
Definition push (data : JsonApiDocument) : M Pushed :=
  do! assertDestroyingStore "push" in
  let! pushed := _push data in
  match pushed with
  | PushedMany identifiers =>
      let! _ := forEach getRecord identifiers in
      ret pushed
  | PushedNull => ret PushedNull
  | PushedOne identifier =>
      do! getRecord identifier in
      ret pushed
  end.

(** Modelled from the spec: [clientDidCreate] of the record data: "empty
    can also transition directly to created.uncommitted". *)
Definition clientDidCreate (internalModel : nat) : M unit :=
  InternalModels.update (InternalModels.with_currentState created_uncommitted) internalModel.

Definition noAdapterMessage (modelName : string) : string :=
  "No adapter was found for '" +:+ modelName
  +:+ "' and no 'application' adapter was found as a fallback.".

(** [adapterFor(modelName)] (lines 2792-2847), with the fallback to the
    adapter [-json-api] that [DEPRECATE_JSON_API_FALLBACK] keeps; the
    second assertion holds of every string, and [deprecate] only logs.
    [owner.lookup] gives [undefined] for a name nothing is registered
    under. *)
Definition adapterFor (modelName : string) : M Adapter :=
  do! assertDestroyingStore "adapterFor" in
  do! assert "You need to pass a model name to the store's adapterFor method"
        (negb (bool_decide (modelName = ""))) in
  let normalizedModelName := normalizeModelName modelName in
  let! adapter := gets (λ st, _adapterCache st !! normalizedModelName) in
  match adapter with
  | Some adapter => ret adapter
  | None =>
      (* name specific adapter *)
      let! adapter := gets (λ st, adapters st !! normalizedModelName) in
      match adapter with
      | Some adapter =>
          do! modify (λ st, set_adapterCache
                              (<[normalizedModelName := adapter]> (_adapterCache st)) st) in
          ret adapter
      | None =>
          (* no adapter found for the specific name, fallback and check for
             application adapter *)
          let! adapter :=
            gets (λ st, match _adapterCache st !! "application" with
                        | Some a => Some a
                        | None => adapters st !! "application"
                        end) in
          match adapter with
          | Some adapter =>
              do! modify (λ st, set_adapterCache
                                  (<["application" := adapter]>
                                     (<[normalizedModelName := adapter]> (_adapterCache st)))
                                  st) in
              ret adapter
          | None =>
              (* final fallback: use json-api adapter *)
              let! adapter :=
                gets (λ st, match _adapterCache st !! "-json-api" with
                            | Some a => Some a
                            | None => adapters st !! "-json-api"
                            end) in
              match adapter with
              | Some adapter =>
                  do! modify (λ st, set_adapterCache
                                      (<["-json-api" := adapter]>
                                         (<[normalizedModelName := adapter]>
                                            (_adapterCache st))) st) in
                  ret adapter
              | None => throw (AssertionFailed (noAdapterMessage modelName))
              end
          end
      end
  end.

(** [createRecord(modelName, inputProperties)] (lines 507-555); the record
    returned is denoted by its identifier.  Of the properties only [id] is
    modelled; the second assertion holds of every string, and the two
    [join]s run their callback synchronously. *)
Definition createRecord (modelName : string) (id : IdValue) : M string :=
  do! assertDestroyingStore "createRecord" in
  do! assert "You need to pass a model name to the store's createRecord method"
        (negb (bool_decide (modelName = ""))) in
  let normalizedModelName := normalizeModelName modelName in
  (* If the passed properties do not include a primary key, give the
     adapter an opportunity to generate one. *)
  let! id :=
    if bool_decide (id = IdNull) || bool_decide (id = IdUndefined) then
      let! adapter := adapterFor modelName in
      match adapter_generateIdForRecord adapter with
      | Some generateIdForRecord => ret (generateIdForRecord modelName)
      | None => ret IdNull
      end
    else ret id in
  (* Coerce ID to a string *)
  let id := coerceId id in
  let! internalModel := InternalModelFactory.build normalizedModelName id in
  let! identifier := gets (InternalModels.identifier internalModel) in
  do! clientDidCreate internalModel in
  do! recordDidChange identifier in
  do! getRecord identifier in
  ret identifier.

(** [deleteRecord(record)] (lines 578-591), the record denoted by its
    identifier. *)
Definition deleteRecord (identifier : string) : M unit :=
  do! assertDestroyingStore "deleteRecord" in
  let! internalModel := gets (InternalModelFactory.peek identifier) in
  match internalModel with
  | Some im => InternalModels.deleteRecord im
  | None => ret tt
  end.

(** [unloadRecord(record)] (lines 609-620), the record denoted by its
    identifier. *)
Definition unloadRecord (identifier : string) : M unit :=
  do! assertDestroyingStore "unloadRecord" in
  let! internalModel := gets (InternalModelFactory.peek identifier) in
  match internalModel with
  | Some im => InternalModels.unloadRecord im
  | None => ret tt
  end.

(** [_internalModelForResource(resource)] (lines 2515-2517). *)
Definition _internalModelForResource (resource : ResourceData) : M nat :=
  InternalModelFactory.getByResource resource.

(** [assertIdentifierHasId(identifier)] (lines 3045-3049). *)
Definition assertIdentifierHasId (identifier : string) : M unit :=
  let! i := gets (λ st, Identifiers.identifierOf (identifierCache st) identifier) in
  assert "Attempted to schedule a fetch for a record without an id."
         (bool_decide (ident_id i ≠ None)).

(** Modelled from the spec: [preloadData] of the internal model.  The
    preloaded attributes become data of the entry, which is then no longer
    empty ("pre-loading will change the isEmpty value", line 1126). *)
Definition preloadData (preload : gmap string JsValue) (internalModel : nat) : M unit :=
  InternalModels.update
    (λ m, mkInternalModel (im_identifier m) (im_modelName m) (im__id m)
            (if im_isEmpty m then loaded_saved else im_currentState m)
            (im_isLoaded m) (im_hasRecord m) (im__scheduledDestroy m)
            (im_isDestroyed m)
            (Some (mkResource (Some (im_modelName m)) (Some (id_property (im__id m)))
                              (Some (im_identifier m)) preload)))
    internalModel.

(** [_fetchDataIfNeededForIdentifier(identifier, options)] (lines
    1119-1149); [cache.getInternalModel] is the lookup of the factory. *)
Definition _fetchDataIfNeededForIdentifier (identifier : string) (options : FindOptions)
  : M nat :=
  let! internalModel := InternalModelFactory.lookupIdentifier identifier in
  (* pre-loading will change the isEmpty value *)
  let! isEmpty := gets (InternalModels.isEmpty internalModel) in
  let! isLoading := gets (InternalModels.isLoading internalModel) in
  do! match opt_preload options with
      | Some preload => preloadData preload internalModel
      | None => ret tt
      end in
  if isEmpty then
    do! assertIdentifierHasId identifier in
    FetchManager.scheduleFetch identifier options
  else if isLoading then
    let! promise := gets (FetchManager.getPendingFetch identifier options) in
    match promise with
    | Some p => ret p
    | None =>
        throw (AssertionFailed
                 "Expected to find a pending request for a record in the loading state, but found none")
    end
  else FetchManager.resolve (Some identifier).

(** [internalModelForRelatedResource(store, cache, resource)] (lines
    3025-3032). *)
Definition internalModelForRelatedResource (resource : ResourceData) : M nat :=
  let! identifier := Identifiers.getOrCreateRecordIdentifier resource in
  let! i := gets (λ st, Identifiers.identifierOf (identifierCache st) identifier) in
  _internalModelForResource (Identifiers.asResource i).

(** [areAllInverseRecordsLoaded(store, resource)] (lines 3003-3023). *)
Definition areAllInverseRecordsLoaded (resource : JsonApiRelationship) : M bool :=
  match rel_data resource with
  | DataMany members =>
      (* check for unloaded records *)
      let! hasEmptyRecords :=
        foldl (λ acc resourceIdentifier,
                 let! hasEmptyModel := acc in
                 if hasEmptyModel : bool then ret true
                 else let! im := internalModelForRelatedResource resourceIdentifier in
                      gets (InternalModels.isEmpty im))
              (ret false) members in
      ret (negb hasEmptyRecords)
  | DataOne member =>
      let! internalModel := internalModelForRelatedResource member in
      let! empty := gets (InternalModels.isEmpty internalModel) in
      ret (negb empty)
  | DataNull | DataUndefined => ret true
  end.

(** [resource.data] passed where one resource identifier is expected. *)
Definition asOne (d : RelationshipData) : option ResourceData :=
  match d with
  | DataOne member => Some member
  | DataMany _ => Some (mkResource None None None ∅)
  | DataNull | DataUndefined => None
  end.

(** [_findBelongsToByJsonApiResource(resource, parentIdentifier,
    relationshipMeta, options)] (lines 1439-1513). *)
Definition _findBelongsToByJsonApiResource
    (resource : option JsonApiRelationship) (parentIdentifier : string)
    (options : FindOptions) : M nat :=
  do! assertDestroyingStore "_findBelongsToByJsonApiResource" in
  match resource with
  | None => FetchManager.resolve None
  | Some resource =>
      let! internalModel :=
        match asOne (rel_data resource) with
        | Some d => let! im := _internalModelForResource d in ret (Some im)
        | None => ret None
        end in
      let state := rel_state resource in
      let! allInverseRecordsAreLoaded := areAllInverseRecordsLoaded resource in
      let shouldFindViaLink :=
        match rel_links_related resource with
        | Some link => bool_decide (link ≠ "")
        | None => false
        end
        && (shouldForceReload state || hasDematerializedInverse state || isStale state
            || (negb allInverseRecordsAreLoaded && negb (isEmpty state))) in
      (* short circuit if we are already loading *)
      let! pendingRequest :=
        match internalModel with
        | Some im =>
            let! identifier := gets (InternalModels.identifier im) in
            gets (FetchManager.getPendingFetch identifier options)
        | None => ret None
        end in
      match pendingRequest with
      | Some promise => ret promise
      | None =>
          if shouldFindViaLink then
            (* fetch via link *)
            FetchManager._findBelongsTo parentIdentifier
              (default "" (rel_links_related resource)) options
          else
            let preferLocalCache :=
              hasReceivedData state && allInverseRecordsAreLoaded && negb (isEmpty state) in
            let hasLocalPartialData :=
              hasDematerializedInverse state
              || (isEmpty state && bool_decide (is_Some (asOne (rel_data resource)))) in
            (* null is explicit empty, undefined is "we don't know anything" *)
            let localDataIsEmpty := bool_decide (asOne (rel_data resource) = None) in
            if negb (shouldForceReload state) && negb (isStale state)
               && (preferLocalCache || hasLocalPartialData) then
              (* fetch using data, pulling from local cache if possible *)
              if localDataIsEmpty then FetchManager.resolve None
              else
                match internalModel with
                | None =>
                    throw (AssertionFailed "No InternalModel found for the resource")
                | Some im =>
                    let! identifier := gets (InternalModels.identifier im) in
                    _fetchDataIfNeededForIdentifier identifier options
                end
            else
              let resourceIsLocal :=
                negb localDataIsEmpty
                && match rel_data resource with
                   | DataOne member => bool_decide (read_id member = IdNull)
                   | _ => false
                   end in
              match internalModel with
              | Some im =>
                  let! identifier := gets (InternalModels.identifier im) in
                  if resourceIsLocal then FetchManager.resolve (Some identifier)
                  else if negb localDataIsEmpty then
                    (* fetch by data *)
                    do! assertIdentifierHasId identifier in
                    FetchManager.scheduleFetch identifier options
                  else FetchManager.resolve None
              | None =>
                  (* we were explicitly told we have no data and no links *)
                  FetchManager.resolve None
              end
      end
  end.

End CoreStore.

(** ** system/snapshot.ts *)

Module SnapshotClass.

(** A new plain object or array. *)
Definition alloc (cell : HeapCell) : M nat :=
  λ st,
    let l := fresh (dom (heap st)) in
    (set_heap (<[l := cell]> (heap st)) st, Ok l).

(** [array.push(v)] *)
Definition arrayPush (l : nat) (v : JsValue) : M unit :=
  modify (λ st,
    set_heap (alter (λ cell, match cell with
                             | JsArray items => JsArray (items ++ [v])
                             | JsObject props => JsObject props
                             end) l (heap st)) st).

(** [object[key] = v] *)
Definition objectSet (l : nat) (key : string) (v : JsValue) : M unit :=
  modify (λ st,
    set_heap (alter (λ cell, match cell with
                             | JsObject props => JsObject (<[key := v]> props)
                             | JsArray items => JsArray items
                             end) l (heap st)) st).

(** The snapshot object [s]; a method cannot run on anything else. *)
Definition this (s : nat) : M Snapshot :=
  λ st, match snapshots st !! s with
        | Some snap => (st, Ok snap)
        | None => (st, Throw (JsError "Cannot read properties of undefined"))
        end.

Definition assign (f : Snapshot → Snapshot) (s : nat) : M unit :=
  modify (λ st, set_snapshots (alter f s (snapshots st)) st).

Definition with___attributes (a : option nat) (x : Snapshot) : Snapshot :=
  mkSnapshot a (snap__belongsToRelationships x) (snap__belongsToIds x)
    (snap__hasManyRelationships x) (snap__hasManyIds x) (snap__internalModel x)
    (snap__changedAttributes x) (snap_identifier x) (snap_modelName x) (snap_id x).
Definition with__belongsToRelationships (m : gmap string JsValue) (x : Snapshot) : Snapshot :=
  mkSnapshot (snap___attributes x) m (snap__belongsToIds x)
    (snap__hasManyRelationships x) (snap__hasManyIds x) (snap__internalModel x)
    (snap__changedAttributes x) (snap_identifier x) (snap_modelName x) (snap_id x).
Definition with__belongsToIds (m : gmap string JsValue) (x : Snapshot) : Snapshot :=
  mkSnapshot (snap___attributes x) (snap__belongsToRelationships x) m
    (snap__hasManyRelationships x) (snap__hasManyIds x) (snap__internalModel x)
    (snap__changedAttributes x) (snap_identifier x) (snap_modelName x) (snap_id x).
Definition with__hasManyRelationships (m : gmap string JsValue) (x : Snapshot) : Snapshot :=
  mkSnapshot (snap___attributes x) (snap__belongsToRelationships x) (snap__belongsToIds x)
    m (snap__hasManyIds x) (snap__internalModel x)
    (snap__changedAttributes x) (snap_identifier x) (snap_modelName x) (snap_id x).
Definition with__hasManyIds (m : gmap string JsValue) (x : Snapshot) : Snapshot :=
  mkSnapshot (snap___attributes x) (snap__belongsToRelationships x) (snap__belongsToIds x)
    (snap__hasManyRelationships x) m (snap__internalModel x)
    (snap__changedAttributes x) (snap_identifier x) (snap_modelName x) (snap_id x).
Definition with__changedAttributes (c : option nat) (x : Snapshot) : Snapshot :=
  mkSnapshot (snap___attributes x) (snap__belongsToRelationships x) (snap__belongsToIds x)
    (snap__hasManyRelationships x) (snap__hasManyIds x) (snap__internalModel x)
    c (snap_identifier x) (snap_modelName x) (snap_id x).
Definition with_id (i : option string) (x : Snapshot) : Snapshot :=
  mkSnapshot (snap___attributes x) (snap__belongsToRelationships x) (snap__belongsToIds x)
    (snap__hasManyRelationships x) (snap__hasManyIds x) (snap__internalModel x)
    (snap__changedAttributes x) (snap_identifier x) (snap_modelName x) i.

(** [Object.keys(attributesDefinitionFor(identifier))] *)
Definition attributeKeys (type : string) (st : Store) : list string :=
  from_option schema_attributes [] (schema st !! type).

(** [schemaIsDSModel(this._internalModel.modelClass)] (lines 31-33). *)
Definition schemaIsDSModel (type : string) (st : Store) : bool :=
  from_option schema_isModel false (schema st !! type).

(** [relationshipsDefinitionFor({ type })[keyName]] *)
Definition relationshipMeta (type keyName : string) (st : Store)
  : option RelationshipKind :=
  schema st !! type ≫= (λ m, schema_relationships m !! keyName).

(** Modelled from the spec: [getAttr] of the record data of an
    identifier; an attribute that was never set reads [undefined]. *)
Definition getAttr (identifier keyName : string) (st : Store) : JsValue :=
  default VUndefined (recordData st !! identifier ≫= (λ d, rd_attributes d !! keyName)).

(** Modelled from the spec: [get(record, keyName)] on a DS Model record,
    whose attribute properties read the record data. *)
Definition getRecordProperty (identifier keyName : string) (st : Store) : JsValue :=
  getAttr identifier keyName st.

(** Modelled from the spec: [changedAttributes()] of the record data: a
    new object that has, for each changed attribute, a new array of the
    old and the new value. *)
Definition recordDataChangedAttributes (identifier : string) : M nat :=
  let! changed :=
    gets (λ st, from_option rd_changedAttributes [] (recordData st !! identifier)) in
  let! props :=
    forEach (λ kv : string * (JsValue * JsValue),
               let! a := alloc (JsArray [kv.2.1; kv.2.2]) in
               ret (kv.1, VRef a)) changed in
  alloc (JsObject (list_to_map props)).

(** Modelled from the spec: [graphFor(store).get(identifier, keyName)]
    followed by [getData()]: the edge, "creating it from schema metadata
    on first access"; an edge about which nothing is known has no data. *)
Definition graphGet (type identifier keyName : string) (st : Store)
  : option JsonApiRelationship :=
  match graph st !! (identifier, keyName) with
  | Some edge => Some edge
  | None =>
      (λ kind, mkRelationship kind DataUndefined None
                 (mkRelationshipState false false false true false))
      <$> relationshipMeta type keyName st
  end.

(** The getter [_attributes] (lines 155-173). *)
Definition _attributes (s : nat) : M nat :=
  let! self := this s in
  match snap___attributes self with
  | Some attributes => ret attributes
  | None =>
      let! record := CoreStore.getRecord (snap_identifier self) in
      let! attributes := alloc (JsObject ∅) in
      do! assign (with___attributes (Some attributes)) s in
      let! type :=
        gets (λ st, ident_type (Identifiers.identifierOf (identifierCache st)
                                  (snap_identifier self))) in
      let! attrs := gets (attributeKeys type) in
      let! isModel := gets (schemaIsDSModel (snap_modelName self)) in
      let! _ :=
        forEach (λ keyName,
                   let! v := gets (if isModel : bool
                                   then getRecordProperty (snap_identifier self) keyName
                                   else getAttr (snap_identifier self) keyName) in
                   objectSet attributes keyName v) attrs in
      ret attributes
  end.

(** The constructor (lines 66-135). *)
Definition new (options : FindOptions) (identifier : string) : M nat :=
  let! i := gets (λ st, Identifiers.identifierOf (identifierCache st) identifier) in
  let! internalModel := CoreStore._internalModelForResource (Identifiers.asResource i) in
  let! s :=
    (λ st, let s := fresh (dom (snapshots st)) in
           (set_snapshots
              (<[s := mkSnapshot None ∅ ∅ ∅ ∅ internalModel None identifier
                        (ident_type i) None]> (snapshots st)) st,
            Ok s)) in
  let! hasRecord := gets (InternalModels.hasRecord internalModel) in
  do! when hasRecord (let! _ := _attributes s in ret tt) in
  let! id := gets (λ st, ident_id (Identifiers.identifierOf (identifierCache st) identifier)) in
  do! assign (with_id id) s in
  let! hasRecord := gets (InternalModels.hasRecord internalModel) in
  do! when hasRecord
        (let! changed := recordDataChangedAttributes identifier in
         assign (with__changedAttributes (Some changed)) s) in
  ret s.

(** Modelled from the spec: [createSnapshot] of the instance cache: a new
    snapshot of the identifier. *)
Definition createSnapshot (identifier : string) : M nat :=
  new (mkFindOptions None VUndefined VUndefined) identifier.

(** [attributes()] (lines 227-229). *)
Definition attributes (s : nat) : M JsValue :=
  let! internal := _attributes s in
  let! cell := gets (λ st, heap st !! internal) in
  match cell with
  | Some (JsObject props) =>
      let! copy := alloc (JsObject props) in
      ret (VRef copy)
  | _ => throw (JsError "_attributes is not an object")
  end.

(** [this._changedAttributes[key].slice()] *)
Definition slice (v : option JsValue) : M JsValue :=
  match v with
  | Some (VRef a) =>
      let! cell := gets (λ st, heap st !! a) in
      match cell with
      | Some (JsArray items) =>
          let! copy := alloc (JsArray items) in
          ret (VRef copy)
      | _ => throw (JsError "slice is not a function")
      end
  | _ => throw (JsError "slice is not a function")
  end.

(** [changedAttributes()] (lines 246-260). *)
Definition changedAttributes (s : nat) : M JsValue :=
  let! self := this s in
  let! changedAttributes := alloc (JsObject ∅) in
  match snap__changedAttributes self with
  | None => ret (VRef changedAttributes)
  | Some internal =>
      let! cell := gets (λ st, heap st !! internal) in
      match cell with
      | Some (JsObject props) =>
          let changedAttributeKeys := (map_to_list props).*1 in
          let! _ :=
            forEach (λ key,
                       let! copy := slice (props !! key) in
                       objectSet changedAttributes key copy)
                    changedAttributeKeys in
          ret (VRef changedAttributes)
      | _ => throw (JsError "_changedAttributes is not an object")
      end
  end.

Definition noBelongsToMessage (identifier keyName : string) : string :=
  "Model '" +:+ identifier +:+ "' has no belongsTo relationship named '"
  +:+ keyName +:+ "' defined.".
Definition noHasManyMessage (identifier keyName : string) : string :=
  "Model '" +:+ identifier +:+ "' has no hasMany relationship named '"
  +:+ keyName +:+ "' defined.".
(** [`{ type: ${identifier.type}, id: ${identifier.id}, lid:
    ${identifier.lid}`], as the two messages below have it. *)
Definition showIdentifier (i : StableRecordIdentifier) : string :=
  "{ type: " +:+ ident_type i +:+ ", id: " +:+ show_id (ident_id i)
  +:+ ", lid: " +:+ ident_lid i.
Definition notFoundMessage (kind keyName : string) (identifier : StableRecordIdentifier)
  : string :=
  "You looked up the " +:+ keyName +:+ " " +:+ kind +:+ " relationship for "
  +:+ showIdentifier identifier +:+ " but no such relationship was found.".
Definition wrongKindMessage (kind keyName : string) (identifier : StableRecordIdentifier)
    (other : string) : string :=
  "You looked up the " +:+ keyName +:+ " " +:+ kind +:+ " relationship for "
  +:+ showIdentifier identifier +:+ " but that relationship is a " +:+ other +:+ ".".

(** [belongsTo(keyName, options)] (lines 298-368); [returnModeIsId] is
    [!!(options && options.id)]. *)
Definition belongsTo (s : nat) (keyName : string) (returnModeIsId : bool) : M JsValue :=
  let! self := this s in
  match (if returnModeIsId then snap__belongsToIds self !! keyName else None) with
  | Some cached => ret cached
  | None =>
  match (if negb returnModeIsId
         then snap__belongsToRelationships self !! keyName else None) with
  | Some cached => ret cached
  | None =>
      let! relationshipMeta := gets (relationshipMeta (snap_modelName self) keyName) in
      do! assert (noBelongsToMessage (snap_identifier self) keyName)
            (bool_decide (relationshipMeta = Some belongsToKind)) in
      let identifier := snap_identifier self in
      let! i := gets (λ st, Identifiers.identifierOf (identifierCache st) identifier) in
      let! relationship := gets (graphGet (ident_type i) identifier keyName) in
      match relationship with
      | None => throw (AssertionFailed (notFoundMessage "belongsTo" keyName i))
      | Some value =>
          do! assert (wrongKindMessage "belongsTo" keyName i "hasMany")
                (bool_decide (rel_kind value = belongsToKind)) in
          let data := CoreStore.asOne (rel_data value) in
          let! inverseInternalModel :=
            match data with
            | Some d => let! im := CoreStore._internalModelForResource d in ret (Some im)
            | None => ret None
            end in
          let! result :=
            match rel_data value with
            | DataUndefined => ret VUndefined
            | _ =>
                match inverseInternalModel with
                | Some im =>
                    let! deleted := gets (InternalModels.isDeleted im) in
                    if negb deleted then
                      if returnModeIsId then
                        let! id := gets (InternalModels.id im) in
                        ret (match id with Some i => VString i | None => VNull end)
                      else
                        let! inverseIdentifier := gets (InternalModels.identifier im) in
                        let! snapshot := createSnapshot inverseIdentifier in
                        ret (VSnapshot snapshot)
                    else ret VNull
                | None => ret VNull
                end
            end in
          do! (if returnModeIsId
               then assign (λ x, with__belongsToIds
                                   (<[keyName := result]> (snap__belongsToIds x)) x) s
               else assign (λ x, with__belongsToRelationships
                                   (<[keyName := result]> (snap__belongsToRelationships x)) x) s) in
          ret result
      end
  end
  end.

(** The callback of [value.data.forEach] in [hasMany] (lines 450-461). *)
Definition hasManyMember (returnModeIsIds : bool) (results : nat) (member : ResourceData)
  : M unit :=
  let! internalModel := CoreStore._internalModelForResource member in
  let! deleted := gets (InternalModels.isDeleted internalModel) in
  when (negb deleted)
    (if returnModeIsIds then
       arrayPush results
         (match coerceId (read_id member) with
          | Some i => VString i
          | None => VNull
          end)
     else
       let! memberIdentifier := gets (InternalModels.identifier internalModel) in
       let! snapshot := createSnapshot memberIdentifier in
       arrayPush results (VSnapshot snapshot)).

(** [hasMany(keyName, options)] (lines 400-473); [returnModeIsIds] is
    [!!(options && options.ids)]. *)
Definition hasMany (s : nat) (keyName : string) (returnModeIsIds : bool) : M JsValue :=
  let! self := this s in
  match (if returnModeIsIds then snap__hasManyIds self !! keyName else None) with
  | Some cachedIds => ret cachedIds
  | None =>
  match (if negb returnModeIsIds
         then snap__hasManyRelationships self !! keyName else None) with
  | Some cachedSnapshots => ret cachedSnapshots
  | None =>
      let! relationshipMeta := gets (relationshipMeta (snap_modelName self) keyName) in
      do! assert (noHasManyMessage (snap_identifier self) keyName)
            (bool_decide (relationshipMeta = Some hasManyKind)) in
      let identifier := snap_identifier self in
      let! i := gets (λ st, Identifiers.identifierOf (identifierCache st) identifier) in
      let! relationship := gets (graphGet (ident_type i) identifier keyName) in
      match relationship with
      | None => throw (AssertionFailed (notFoundMessage "hasMany" keyName i))
      | Some value =>
          do! assert (wrongKindMessage "hasMany" keyName i "belongsTo")
                (bool_decide (rel_kind value = hasManyKind)) in
          let! results :=
            match rel_data value with
            | DataMany members =>
                let! results := alloc (JsArray []) in
                let! _ := forEach (hasManyMember returnModeIsIds results) members in
                ret (VRef results)
            | DataOne _ => throw (JsError "value.data.forEach is not a function")
            | DataNull | DataUndefined => ret VUndefined
            end in
          (* we assign even if `undefined` so that we don't reprocess the
             relationship on next access *)
          do! (if returnModeIsIds
               then assign (λ x, with__hasManyIds
                                   (<[keyName := results]> (snap__hasManyIds x)) x) s
               else assign (λ x, with__hasManyRelationships
                                   (<[keyName := results]> (snap__hasManyRelationships x)) x) s) in
          ret results
      end
  end
  end.

End SnapshotClass.

(** * The vocabulary of the statements *)


(** The resource objects of a document, in the order [_push] loads them:
    [included] first, then [data]. *)
Definition documentResources (doc : JsonApiDocument) : list ResourceData :=
  default [] (doc_included doc)
  ++ match doc_data doc with
     | DocMany resources => resources
     | DocOne resource => [resource]
     | DocNull | DocOther _ => []
     end.

(** The [id] of a resource object is [null], [undefined] (or missing) or the
    empty string. *)
Definition idIsMissing (r : ResourceData) : Prop :=
  read_id r = IdNull ∨ read_id r = IdUndefined ∨ read_id r = IdString "".

(** An operation keeps the relation [R] between the store it starts in and
    the store it leaves, whether it returns or throws. *)
Definition preserves (R : relation Store) {A} (c : M A) : Prop :=
  ∀ st, R st (c st).1.

(** Relations that do not look at a part of the store. *)
Class IgnoresIdentifierCache (R : relation Store) : Prop :=
  ignores_identifierCache : ∀ st c, R st (set_identifierCache c st).
Class IgnoresIdentityMap (R : relation Store) : Prop :=
  ignores_identityMap : ∀ st m, R st (set_identityMap m st).
Class IgnoresInternalModels (R : relation Store) : Prop :=
  ignores_internalModels : ∀ st m, R st (set_internalModels m st).
Class IgnoresHeap (R : relation Store) : Prop :=
  ignores_heap : ∀ st h, R st (set_heap h st).
Class IgnoresSnapshots (R : relation Store) : Prop :=
  ignores_snapshots : ∀ st m, R st (set_snapshots m st).

(** Nothing was handed to the transport and no promise was made or filed. *)
Definition fetchUntouched : relation Store :=
  λ st st', transport st' = transport st
            ∧ pendingFetch st' = pendingFetch st
            ∧ promises st' = promises st.

(** Snapshots and heap are as they were. *)
Definition objectsUntouched : relation Store :=
  λ st st', snapshots st' = snapshots st ∧ heap st' = heap st.

(** The snapshot object [s] exists before, so it exists after. *)
Definition snapshotStays (s : nat) : relation Store :=
  λ st st', is_Some (snapshots st !! s) → is_Some (snapshots st' !! s).

(** The array [l] keeps its items and may get more at its end. *)
Definition arrayGrows (l : nat) : relation Store :=
  λ st st', ∀ items, heap st !! l = Some (JsArray items) →
            ∃ more, heap st' !! l = Some (JsArray (items ++ more)%list).

(** The store after a lookup found the entry [im]: a scheduled destroy of
    [im] is cancelled, nothing else changes. *)
Definition cancelled (im : nat) (st : Store) : Store :=
  if InternalModels.hasScheduledDestroy im st
  then set_internalModels
         (alter (InternalModels.with_scheduledDestroy false) im (internalModels st)) st
  else st.

(** The memo dictionary of a mode of [belongsTo] and of [hasMany]. *)
Definition belongsToMemo (returnModeIsId : bool) (x : Snapshot) : gmap string JsValue :=
  if returnModeIsId then snap__belongsToIds x else snap__belongsToRelationships x.
Definition hasManyMemo (returnModeIsIds : bool) (x : Snapshot) : gmap string JsValue :=
  if returnModeIsIds then snap__hasManyIds x else snap__hasManyRelationships x.

(** What the snapshot [s] has memoized for a relationship. *)
Definition memoized (memo : Snapshot → gmap string JsValue)
    (s : nat) (keyName : string) (st : Store) : option JsValue :=
  snapshots st !! s ≫= (λ x, memo x !! keyName).

(** The edge of a relationship of the identifier of a snapshot. *)
Definition edgeOf (keyName : string) (x : Snapshot) (st : Store)
  : option JsonApiRelationship :=
  SnapshotClass.graphGet
    (ident_type (Identifiers.identifierOf (identifierCache st) (snap_identifier x)))
    (snap_identifier x) keyName st.

(** The cell [l] of the heap is a plain object. *)
Definition isObject (l : nat) (st : Store) : Prop :=
  ∃ props, heap st !! l = Some (JsObject props).

(** The array a property value refers to. *)
Definition readPair (h : gmap nat HeapCell) (v : JsValue) : option (list JsValue) :=
  match v with
  | VRef a => match h !! a with
              | Some (JsArray items) => Some items
              | _ => None
              end
  | _ => None
  end.

(** The old/new pairs that an object of changed attributes holds, by key. *)
Definition readPairs (h : gmap nat HeapCell) (l : nat)
  : option (gmap string (option (list JsValue))) :=
  match h !! l with
  | Some (JsObject props) => Some (readPair h <$> props)
  | _ => None
  end.

(** [_changedAttributes] has its declared type [ChangedAttributesHash]: it
    is not set, or it is an object whose values are arrays. *)
Definition wellShaped (st : Store) (changed : option nat) : Prop :=
  match changed with
  | None => True
  | Some internal =>
      ∃ props, heap st !! internal = Some (JsObject props)
               ∧ ∀ k v, props !! k = Some v → is_Some (readPair (heap st) v)
  end.

(** The pairs a snapshot holds. *)
Definition internalPairs (st : Store) (x : Snapshot)
  : option (gmap string (option (list JsValue))) :=
  match snap__changedAttributes x with
  | None => Some ∅
  | Some internal => readPairs (heap st) internal
  end.

(** [call] throws in [st]; when the store is not being destroyed and the
    resources [pre] load, it throws [error], in the store that loading them
    left. *)
Definition throwsAfterLoading (error : Exn) (pre : list ResourceData) (st : Store)
    (call : M Pushed) : Prop :=
  ∃ s' e, call st = (s', Throw e)
          ∧ ∀ s1 identifiers,
              isDestroying st || isDestroyed st = false →
              forEach CoreStore._load pre st = (s1, Ok identifiers) →
              s' = s1 ∧ e = error.

(** * More of the sources *)

(** ** The record cache of system/store/internal-model-factory.ts *)

Module RecordCache.

(** [RecordCache] (line 36) is a [WeakMap] from record instances (and
    record datas), which are denoted by numbers, to their identifiers: a
    [gmap nat string]. *)

(** [peekRecordIdentifier(record)] (lines 38-40). *)
Definition peekRecordIdentifier (record : nat) (cache : gmap nat string) : option string :=
  cache !! record.

Definition notARecordMessage : string :=
  "[object Object] is not a record instantiated by @ember-data/store".

(** [recordIdentifierFor(record)] (lines 53-59). *)
Definition recordIdentifierFor (record : nat) (cache : gmap nat string) : Res string :=
  match cache !! record with
  | Some identifier => Ok identifier
  | None => Throw (AssertionFailed notARecordMessage)
  end.

(** [setRecordIdentifier(record, identifier)] (lines 61-75), in a
    development build. *)
Definition setRecordIdentifier (record : nat) (identifier : string) (cache : gmap nat string)
  : gmap nat string * Res unit :=
  if bool_decide (is_Some (cache !! record))
  then (cache, Throw (JsError "[object Object] was already assigned an identifier"))
  else (<[record := identifier]> cache, Ok tt).

End RecordCache.

(** ** Setting the id of a record *)

Module FactoryIds.

(** Modelled from the spec: [setId] of the internal model
    ([model/internal-model.ts] is not among the sources): the entry takes
    the id. *)
Definition setId (id : option string) (internalModel : nat) : M unit :=
  InternalModels.update (InternalModels.with_id id) internalModel.

Definition noSuchRecordMessage (type : string) (id : option string) (lid : string) : string :=
  "Cannot set the id " +:+ show_id id +:+ " on the record " +:+ type +:+ ":" +:+ lid
  +:+ " as there is no such record in the cache.".

Definition noIdMessage (modelName : string) : string :=
  "'" +:+ modelName +:+ "' was saved to the server, but the response does not have an id "
  +:+ "and your record does not either.".

Definition cannotUpdateIdMessage (modelName lid : string) (oldId id : option string)
  : string :=
  "Cannot update the id for '" +:+ modelName +:+ ":" +:+ lid +:+ "' from '"
  +:+ show_id oldId +:+ "' to '" +:+ show_id id +:+ "'.".

Definition idAlreadyUsedMessage (modelName : string) (id : option string) : string :=
  "'" +:+ modelName +:+ "' was saved to the server, but the response returned the new id '"
  +:+ show_id id +:+ "', which has already been used with another record.'".

(** [setRecordId(type, id, lid)] of the factory (lines 232-279).  The
    [warn] of lines 256-259 only logs. *)
Definition setRecordId (type : string) (id : option string) (lid : string) : M unit :=
  let resource := mkResource (Some type) (Some IdNull) (Some lid) ∅ in
  let! identifier := Identifiers.getOrCreateRecordIdentifier resource in
  let! internalModel := gets (InternalModelFactory.peek identifier) in
  match internalModel with
  | None => throw (JsError (noSuchRecordMessage type id lid))
  | Some internalModel =>
      let! oldId := gets (InternalModels.id internalModel) in
      let! modelName := gets (InternalModels.modelName internalModel) in
      (* ID absolutely can't be missing if the oldID is empty *)
      do! assert (noIdMessage modelName)
            (negb (bool_decide (id = None) && bool_decide (oldId = None))) in
      (* ID absolutely can't be different than oldID if oldID is not null *)
      do! assert (cannotUpdateIdMessage modelName lid oldId id)
            (negb (bool_decide (oldId ≠ None) && bool_decide (id ≠ oldId))) in
      (* ID can be null if oldID is not null *)
      if bool_decide (oldId ≠ None) && bool_decide (id = None) then ret tt
      else
        let! existingInternalModel :=
          match id with
          | Some i => InternalModelFactory.peekById modelName i
          | None => ret None
          end in
        do! assert (idAlreadyUsedMessage modelName id)
              (bool_decide (existingInternalModel = None)
               || bool_decide (existingInternalModel = Some internalModel)) in
        let! identifierId :=
          gets (λ st, ident_id (Identifiers.identifierOf (identifierCache st) identifier)) in
        do! when (bool_decide (identifierId = None))
              (let! _ := IdentifierMerge.updateRecordIdentifier identifier
                           (mkResource (Some type) (Some (id_property id)) None ∅) in
               ret tt) in
        setId id internalModel
  end.

(** [setRecordId(modelName, newId, clientId)] of the store (core-store.ts,
    lines 2107-2112). *)
Definition storeSetRecordId (modelName : string) (newId : option string) (clientId : string)
  : M unit :=
  do! CoreStore.assertDestroyingStore "setRecordId" in
  setRecordId modelName newId clientId.

End FactoryIds.

(** ** Reading the store without fetching *)

Module StoreReads.

(** [isMaybeIdentifier(maybeIdentifier)] (core-store.ts, lines 3034-3043)
    of an object: it has truthy [id] and [type], or a truthy [lid]. *)
Definition isMaybeIdentifier (maybeIdentifier : ResourceData) : bool :=
  (bool_decide (is_Some (res_id maybeIdentifier))
   && bool_decide (is_Some (res_type maybeIdentifier))
   && bool_decide (is_Some (coerceId (read_id maybeIdentifier)))
   && negb (bool_decide (default "" (res_type maybeIdentifier) = "")))
  || negb (bool_decide (default "" (res_lid maybeIdentifier) = "")).

(** Lines 1280-1284 of [peekRecord], which lines 1299-1303 repeat: the
    record of the identifier on file for the resource, if its entry is
    loaded.  The record returned is denoted by its identifier. *)
Definition peekLoadedRecord (resource : ResourceData) : M (option string) :=
  let! stableIdentifier :=
    gets (λ st, Identifiers.peekRecordIdentifier (identifierCache st) resource) in
  let! internalModel :=
    gets (λ st, stableIdentifier ≫= (λ l, InternalModelFactory.peek l st)) in
  let! isLoaded :=
    gets (λ st, from_option (λ im, InternalModels.isLoaded im st) false internalModel) in
  match stableIdentifier with
  | Some l =>
      if isLoaded then
        do! CoreStore.getRecord l in
        ret (Some l)
      else ret None
  | None => ret None
  end.

(** [peekRecord(identifier, id?)] (core-store.ts, lines 1278-1304).  The
    first argument is an object or a string; [id] is [None] when the call
    has one argument.  An object is truthy, and [`${identifier}`] of it is
    [[object Object]]. *)
Definition peekRecord (identifier : ResourceData + string) (id : option IdValue)
  : M (option string) :=
  match identifier, id with
  | inl resource, None =>
      if isMaybeIdentifier resource then peekLoadedRecord resource
      else
        do! CoreStore.assertDestroyingStore "peekRecord" in
        throw (AssertionFailed
                 ("Passing classes to store methods has been removed. "
                  +:+ "Please pass a dasherized string instead of [object Object]"))
  | inl resource, Some _ =>
      do! CoreStore.assertDestroyingStore "peekRecord" in
      throw (AssertionFailed
               ("Passing classes to store methods has been removed. "
                +:+ "Please pass a dasherized string instead of [object Object]"))
  | inr modelName, _ =>
      do! CoreStore.assertDestroyingStore "peekRecord" in
      do! assert "You need to pass a model name to the store's peekRecord method"
            (negb (bool_decide (modelName = ""))) in
      let type := normalizeModelName modelName in
      match ensureStringId (default IdUndefined id) with
      | Some normalizedId =>
          peekLoadedRecord (mkResource (Some type) (Some (IdString normalizedId)) None ∅)
      | None => throw (Undetermined "ensureStringId")
      end
  end.

(** [hasRecordForId(modelName, id)] (core-store.ts, lines 1326-1353), while
    [DEPRECATE_HAS_RECORD] keeps it; [deprecate] only logs, and the second
    assertion holds of every string. *)
Definition hasRecordForId (modelName : string) (id : IdValue) : M bool :=
  do! CoreStore.assertDestroyingStore "hasRecordForId" in
  do! assert "You need to pass a model name to the store's hasRecordForId method"
        (negb (bool_decide (modelName = ""))) in
  let type := normalizeModelName modelName in
  match ensureStringId id with
  | Some trueId =>
      let resource := mkResource (Some type) (Some (IdString trueId)) None ∅ in
      let! identifier :=
        gets (λ st, Identifiers.peekRecordIdentifier (identifierCache st) resource) in
      let! internalModel :=
        gets (λ st, identifier ≫= (λ l, InternalModelFactory.peek l st)) in
      gets (λ st, from_option (λ im, InternalModels.isLoaded im st) false internalModel)
  | None => throw (Undetermined "ensureStringId")
  end.

End StoreReads.

(** ** More of system/snapshot.ts *)

Module SnapshotReads.

Definition noAttributeMessage (identifier keyName : string) : string :=
  "Model '" +:+ identifier +:+ "' has no attribute named '" +:+ keyName +:+ "' defined.".

(** [attr(keyName)] (lines 206-211). *)
Definition attr (s : nat) (keyName : string) : M JsValue :=
  let! attributes := SnapshotClass._attributes s in
  let! cell := gets (λ st, heap st !! attributes) in
  match cell with
  | Some (JsObject props) =>
      match props !! keyName with
      | Some v => ret v
      | None =>
          let! self := SnapshotClass.this s in
          throw (AssertionFailed (noAttributeMessage (snap_identifier self) keyName))
      end
  | _ => throw (JsError "Cannot use 'in' operator to search for a key in a value that is not an object")
  end.

End SnapshotReads.

(** ** The model factories of the schema definition service *)

Module SchemaService.

(** What [getModelFactory] reads and writes of a model class: [isModel],
    the value of [modelName] (its own or an inherited one) and whether the
    class has a property [modelName] of its own. *)
Record ModelClass : Type := mkModelClass {
  klass_isModel : bool;
  klass_modelName : option string;
  klass_hasOwnModelName : bool;
}.

(** The owner's registry ([owner.factoryFor], by full name), the mixins
    [_modelForMixin] finds (by model name), the class of each factory
    object, the class objects, and [store._modelFactoryCache]. *)
Record Registry : Type := mkRegistry {
  owner_factories : gmap string nat;
  mixin_factories : gmap string nat;
  factory_class : gmap nat nat;
  classes : gmap nat ModelClass;
  _modelFactoryCache : gmap string nat;
}.

Definition set_classes (c : gmap nat ModelClass) (r : Registry) : Registry :=
  mkRegistry (owner_factories r) (mixin_factories r) (factory_class r) c
    (_modelFactoryCache r).
Definition set_modelFactoryCache (c : gmap string nat) (r : Registry) : Registry :=
  mkRegistry (owner_factories r) (mixin_factories r) (factory_class r) (classes r) c.

(** [klass.modelName && Object.prototype.hasOwnProperty.call(klass,
    'modelName')] *)
Definition hasOwnModelNameSet (k : ModelClass) : bool :=
  match klass_modelName k with
  | Some name => negb (bool_decide (name = "")) && klass_hasOwnModelName k
  | None => false
  end.

(** [Object.defineProperty(klass, 'modelName', { value })] *)
Definition defineModelName (value : string) (k : ModelClass) : ModelClass :=
  mkModelClass (klass_isModel k) (Some value) true.

(** [getModelFactory(store, cache, normalizedModelName)] (lines 107-137
    of the schema definition service). *)
Definition getModelFactory (normalizedModelName : string) (r : Registry)
  : Registry * Res (option nat) :=
  match _modelFactoryCache r !! normalizedModelName with
  | Some factory => (r, Ok (Some factory))
  | None =>
      let factory :=
        match owner_factories r !! ("model:" +:+ normalizedModelName) with
        | Some f => Some f
        | None =>
            (* Support looking up mixins as base types for polymorphic relationships *)
            mixin_factories r !! normalizedModelName
        end in
      match factory with
      | None =>
          (* we don't cache misses in case someone wants to register a missing model *)
          (r, Ok None)
      | Some f =>
          match factory_class r !! f ≫= (λ k, (λ c, (k, c)) <$> classes r !! k) with
          | None => (r, Throw (JsError "Cannot read properties of undefined (reading 'isModel')"))
          | Some (k, klass) =>
              let r1 :=
                if klass_isModel klass && negb (hasOwnModelNameSet klass)
                then set_classes (<[k := defineModelName normalizedModelName klass]>
                                    (classes r)) r
                else r in
              (set_modelFactoryCache (<[normalizedModelName := f]> (_modelFactoryCache r1)) r1,
               Ok (Some f))
          end
      end
  end.

End SchemaService.

(** ** More vocabulary *)

(** The adapter that [adapterFor] finds for a model name: the one cached
    for the name, the one registered for it, the application adapter or
    the adapter [-json-api], in this order. *)
Definition adapterOf (modelName : string) (st : Store) : option Adapter :=
  let found (name : string) : option Adapter :=
    match _adapterCache st !! name with
    | Some a => Some a
    | None => adapters st !! name
    end in
  match found modelName with
  | Some a => Some a
  | None =>
      match found "application" with
      | Some a => Some a
      | None => found "-json-api"
      end
  end.

(** Every slot of the identity map is filed under a [lid] that an
    identifier has or had. *)
Definition slotsHaveIdentifiers (st : Store) : Prop :=
  map_Forall (λ _ slots,
                map_Forall (λ l (_ : nat),
                              is_Some (cache_identifiers (identifierCache st) !! l))
                           (slots : gmap string nat))
             (_identityMap st).

(** [l] is the one identifier on file with this type and id. *)
Definition onlyIdentifierOf (type id l : string) (st : Store) : Prop :=
  filter (λ l', cache_identifiers (identifierCache st) !! l' = Some (type, Some id))
         (cache_lids (identifierCache st)) = [l].

(** Every [lid] on file has an identifier object. *)
Definition lidsHaveIdentifiers (st : Store) : Prop :=
  Forall (λ l, is_Some (cache_identifiers (identifierCache st) !! l))
         (cache_lids (identifierCache st)).

(** A resource can be found again: it has a [lid] or an id. *)
Definition findable (r : ResourceData) : Prop :=
  is_Some (res_lid r) ∨ is_Some (coerceId (read_id r)).

(** The store after [_build] made the entry for the identifier [l]. *)
Definition built (l : string) (st : Store) : Store :=
  let i := Identifiers.identifierOf (identifierCache st) l in
  let im := fresh (dom (internalModels st)) in
  set_identityMap
    (<[ident_type i := <[l := im]> (InternalModelFactory.modelMapFor (ident_type i) st)]>
       (_identityMap st))
    (set_internalModels
       (<[im := mkInternalModel l (ident_type i) (ident_id i) root_empty
                  false false false false None]> (internalModels st)) st).

(** [call] fails in [st] with the assertion that the store is destroyed,
    and changes nothing. *)
Definition rejectsDestroyed {A} (method : string) (call : M A) (st : Store) : Prop :=
  call st = (st, Throw (AssertionFailed
                          ("Attempted to call store." +:+ method
                           +:+ "(), but the store instance has already been destroyed."))).

(** ** The life of a snapshot *)

(** What can happen to the store while a snapshot lives: a call of the
    store, of the factory, of the identifier cache, of the fetch manager or
    of a snapshot, and a change of the relationship graph or of the record
    data. *)
Inductive Event : Type :=
  | CallPush (doc : JsonApiDocument)
  | Call_push (doc : JsonApiDocument)
  | Call_load (data : ResourceData)
  | CallCreateRecord (modelName : string) (id : IdValue)
  | CallDeleteRecord (identifier : string)
  | CallUnloadRecord (identifier : string)
  | CallPeekRecord (identifier : ResourceData + string) (id : option IdValue)
  | CallHasRecordForId (modelName : string) (id : IdValue)
  | CallSetRecordId (modelName : string) (newId : option string) (clientId : string)
  | CallAdapterFor (modelName : string)
  | Call_fetchDataIfNeededForIdentifier (identifier : string) (options : FindOptions)
  | Call_findBelongsToByJsonApiResource (resource : option JsonApiRelationship)
      (parentIdentifier : string) (options : FindOptions)
  | CallLookup (resource : ResourceData) (data : option ResourceData)
  | CallLookupIdentifier (identifier : string)
  | CallPeekById (type id : string)
  | CallBuild (type : string) (id : option string)
  | CallRemove (internalModel : nat)
  | CallDestroySync (internalModel : nat)
  | CallFactorySetRecordId (type : string) (id : option string) (lid : string)
  | CallUpdateRecordIdentifier (identifier : string) (data : ResourceData)
  | CallForgetRecordIdentifier (identifier : string)
  | CallScheduleFetch (identifier : string) (options : FindOptions)
  | Call_internalModelForResource (resource : ResourceData)
  | CallGetRecord (identifier : string)
  | CallCreateSnapshot (identifier : string)
  | CallAttr (s : nat) (keyName : string)
  | CallAttributes (s : nat)
  | CallChangedAttributes (s : nat)
  | CallBelongsTo (s : nat) (keyName : string) (returnModeIsId : bool)
  | CallHasMany (s : nat) (keyName : string) (returnModeIsIds : bool)
  | GraphChanges (g : gmap (string * string) JsonApiRelationship)
  | RecordDataChanges (d : gmap string RecordDataState).

(** The store an event leaves, whether the call returns or throws. *)
Definition after (e : Event) (st : Store) : Store :=
  match e with
  | CallPush doc => (CoreStore.push doc st).1
  | Call_push doc => (CoreStore._push doc st).1
  | Call_load data => (CoreStore._load data st).1
  | CallCreateRecord modelName id => (CoreStore.createRecord modelName id st).1
  | CallDeleteRecord identifier => (CoreStore.deleteRecord identifier st).1
  | CallUnloadRecord identifier => (CoreStore.unloadRecord identifier st).1
  | CallPeekRecord identifier id => (StoreReads.peekRecord identifier id st).1
  | CallHasRecordForId modelName id => (StoreReads.hasRecordForId modelName id st).1
  | CallSetRecordId modelName newId clientId =>
      (FactoryIds.storeSetRecordId modelName newId clientId st).1
  | CallAdapterFor modelName => (CoreStore.adapterFor modelName st).1
  | Call_fetchDataIfNeededForIdentifier identifier options =>
      (CoreStore._fetchDataIfNeededForIdentifier identifier options st).1
  | Call_findBelongsToByJsonApiResource resource parentIdentifier options =>
      (CoreStore._findBelongsToByJsonApiResource resource parentIdentifier options st).1
  | CallLookup resource data => (InternalModelFactory.lookup resource data st).1
  | CallLookupIdentifier identifier =>
      (InternalModelFactory.lookupIdentifier identifier st).1
  | CallPeekById type id => (InternalModelFactory.peekById type id st).1
  | CallBuild type id => (InternalModelFactory.build type id st).1
  | CallRemove internalModel => (InternalModelFactory.remove internalModel st).1
  | CallDestroySync internalModel => (InternalModelFactory.destroySync internalModel st).1
  | CallFactorySetRecordId type id lid => (FactoryIds.setRecordId type id lid st).1
  | CallUpdateRecordIdentifier identifier data =>
      (IdentifierMerge.updateRecordIdentifier identifier data st).1
  | CallForgetRecordIdentifier identifier =>
      (Identifiers.forgetRecordIdentifier identifier st).1
  | CallScheduleFetch identifier options =>
      (FetchManager.scheduleFetch identifier options st).1
  | Call_internalModelForResource resource =>
      (CoreStore._internalModelForResource resource st).1
  | CallGetRecord identifier => (CoreStore.getRecord identifier st).1
  | CallCreateSnapshot identifier => (SnapshotClass.createSnapshot identifier st).1
  | CallAttr s keyName => (SnapshotReads.attr s keyName st).1
  | CallAttributes s => (SnapshotClass.attributes s st).1
  | CallChangedAttributes s => (SnapshotClass.changedAttributes s st).1
  | CallBelongsTo s keyName mode => (SnapshotClass.belongsTo s keyName mode st).1
  | CallHasMany s keyName mode => (SnapshotClass.hasMany s keyName mode st).1
  | GraphChanges g => set_graph g st
  | RecordDataChanges d => set_recordData d st
  end.

(** The store after a sequence of events, the first one first. *)
Definition afterAll (events : list Event) (st : Store) : Store :=
  foldl (λ s e, after e s) st events.

(** Every snapshot has memoized, for every relationship and in every
    mode, what it had memoized. *)
Definition memosSame : relation Store :=
  λ st st', ∀ s keyName mode,
    memoized (belongsToMemo mode) s keyName st' = memoized (belongsToMemo mode) s keyName st
    ∧ memoized (hasManyMemo mode) s keyName st' = memoized (hasManyMemo mode) s keyName st.

(** What a snapshot had memoized, it has memoized. *)
Definition memosKept : relation Store :=
  λ st st', ∀ s keyName mode v,
    (memoized (belongsToMemo mode) s keyName st = Some v →
     memoized (belongsToMemo mode) s keyName st' = Some v)
    ∧ (memoized (hasManyMemo mode) s keyName st = Some v →
       memoized (hasManyMemo mode) s keyName st' = Some v).

(** * Example stores

    The stores below are built by running the operations of the store on an
    empty one; the theorems are instantiated on them. *)

Definition run {A} (c : M A) (st : Store) : Store := (c st).1.
Definition result {A} (c : M A) (st : Store) : Res A := (c st).2.

(** A store in which nothing has happened yet; the owner has an
    application adapter, which generates no ids. *)
Definition emptyStore (types : gmap string ModelSchema)
    (edges : gmap (string * string) JsonApiRelationship)
    (data : gmap string RecordDataState) : Store :=
  mkStore false false (mkIdentifierCache ∅ []) ∅ ∅ ∅ ∅ [] [] types edges data ∅ ∅
    {[ "application" := mkAdapter None ]} ∅.

Definition noOptions : FindOptions := mkFindOptions None VUndefined VUndefined.

Module Example.
(** A store that knows one type, [x]. *)
Definition store0 : Store :=
  emptyStore {[ "x" := mkModelSchema ["title"] ∅ true ]} ∅ ∅.

Definition x1 : ResourceData := mkResource (Some "x") (Some (IdString "1")) None ∅.
Definition x2 : ResourceData := mkResource (Some "x") (Some (IdString "2")) None ∅.
Definition x_without_id : ResourceData := mkResource (Some "x") None None ∅.

Definition document (resources : list ResourceData) : JsonApiDocument :=
  mkDocument None (DocMany resources) None.

(** A record of type [x] is created on the client: identifier 0, entry 0. *)
Definition created : Store := run (CoreStore.createRecord "x" IdNull) store0.
(** [x:1] then arrives in a payload: identifier 1, entry 1. *)
Definition pushed : Store := run (CoreStore._push (document [x1])) created.

(** [x:1] is pushed into the empty store and then unloaded. *)
Definition loaded : Store := run (CoreStore.push (document [x1])) store0.
Definition unloaded : Store := run (CoreStore.unloadRecord "0") loaded.

Definition received : RelationshipState := mkRelationshipState false false true false false.

(** A post with an author and two comments. *)
Definition user7 : ResourceData := mkResource (Some "user") (Some (IdString "7")) None ∅.
Definition comment3 : ResourceData := mkResource (Some "comment") (Some (IdString "3")) None ∅.
Definition comment4 : ResourceData := mkResource (Some "comment") (Some (IdString "4")) None ∅.
Definition post1 : ResourceData :=
  mkResource (Some "post") (Some (IdString "1")) None {[ "title" := VString "Hello" ]}.

Definition blogTypes : gmap string ModelSchema :=
  {[ "post" := mkModelSchema ["title"]
                 {[ "author" := belongsToKind; "comments" := hasManyKind ]} true;
     "user" := mkModelSchema [] ∅ true;
     "comment" := mkModelSchema [] ∅ true ]}.

(** The payload below files the author under the identifier 0, the comments
    under 1 and 2 and the post under 3. *)
Definition blogEdges : gmap (string * string) JsonApiRelationship :=
  {[ ("3", "author") := mkRelationship belongsToKind (DataOne user7) None received;
     ("3", "comments") :=
       mkRelationship hasManyKind (DataMany [comment3; comment4]) None received ]}.
Definition blogData : gmap string RecordDataState :=
  {[ "3" := mkRecordData {[ "title" := VString "Hello!" ]}
              [("title", (VString "Hello", VString "Hello!"))] ]}.

Definition blog : Store :=
  run (CoreStore.push (mkDocument None (DocOne post1) (Some [user7; comment3; comment4])))
      (emptyStore blogTypes blogEdges blogData).

(** Snapshot 0 is taken of the post. *)
Definition snapped : Store := run (SnapshotClass.createSnapshot "3") blog.
Definition postSnapshot : Snapshot :=
  mkSnapshot (Some 0) ∅ ∅ ∅ ∅ 3 (Some 2) "3" "post" (Some "1").
(** Its author is read: snapshot 1. *)
Definition authorRead : Store := run (SnapshotClass.belongsTo 0 "author" false) snapped.
(** The author is then deleted. *)
Definition authorDeleted : Store := run (CoreStore.deleteRecord "0") authorRead.
(** The first comment is deleted, and a second snapshot of the post is
    taken: snapshot 2. *)
Definition commentDeleted : Store := run (CoreStore.deleteRecord "1") authorDeleted.
Definition snappedAgain : Store := run (SnapshotClass.createSnapshot "3") commentDeleted.
Definition postSnapshotAgain : Snapshot :=
  mkSnapshot (Some 3) ∅ ∅ ∅ ∅ 3 (Some 5) "3" "post" (Some "1").
(** The ids of the comments are read from the first snapshot, and then the
    first comment is deleted. *)
Definition commentsRead : Store := run (SnapshotClass.hasMany 0 "comments" true) snapped.
Definition commentsReadThenDeleted : Store := run (CoreStore.deleteRecord "1") commentsRead.
End Example.

(** ** More example stores *)

Module Scenes.
(** The entry of [x:1] is made and nothing is loaded: identifier 0, entry
    0, empty. *)
Definition lookedUp : Store := run (InternalModelFactory.lookup Example.x1 None) Example.store0.
(** An entry is made under the [lid] [draft], which has no id. *)
Definition draft : ResourceData := mkResource (Some "x") None (Some "draft") ∅.
Definition drafted : Store := run (InternalModelFactory.lookup draft None) Example.store0.
(** The identifier of [x:1] is made, and no entry. *)
Definition identified : Store :=
  run (Identifiers.getOrCreateRecordIdentifier Example.x1) Example.store0.
(** A resource of a type the schema does not have. *)
Definition y1 : ResourceData := mkResource (Some "y") (Some (IdString "1")) None ∅.
(** The store of [Example.loaded] while it is torn down. *)
Definition destroying : Store :=
  mkStore true false (identifierCache Example.loaded) (_identityMap Example.loaded)
    (internalModels Example.loaded) (pendingFetch Example.loaded)
    (promises Example.loaded) (transport Example.loaded)
    (recordArrayChanges Example.loaded) (schema Example.loaded) (graph Example.loaded)
    (recordData Example.loaded) (heap Example.loaded) (snapshots Example.loaded)
    (adapters Example.loaded) (_adapterCache Example.loaded).




(** A store whose owner has no adapter. *)
Definition withoutAdapter : Store :=
  mkStore false false (mkIdentifierCache ∅ []) ∅ ∅ ∅ ∅ [] []
    {[ "x" := mkModelSchema ["title"] ∅ true ]} ∅ ∅ ∅ ∅ ∅ ∅.

(** A stale relationship that has a link and no data. *)
Definition stale : RelationshipState := mkRelationshipState true false true false false.
Definition authorLink : JsonApiRelationship :=
  mkRelationship belongsToKind DataUndefined (Some "/posts/1/author") stale.
Definition noAuthor : JsonApiRelationship :=
  mkRelationship belongsToKind DataNull None Example.received.

(** The blog of [Example.blog], whose payload is loaded without
    materializing a record; snapshot 0 is taken of the post. *)
Definition blogPushed : Store :=
  run (CoreStore._push
         (mkDocument None (DocOne Example.post1)
            (Some [Example.user7; Example.comment3; Example.comment4])))
      (emptyStore Example.blogTypes Example.blogEdges Example.blogData).
Definition blogSnapped : Store := run (SnapshotClass.createSnapshot "3") blogPushed.
Definition lazySnapshot : Snapshot :=
  mkSnapshot None ∅ ∅ ∅ ∅ 3 None "3" "post" (Some "1").

(** A post that is known to have no author, and of whose comments nothing
    is known: identifier 0, snapshot 0. *)
Definition noComments : JsonApiRelationship :=
  mkRelationship hasManyKind DataUndefined None Example.received.
Definition orphanEdges : gmap (string * string) JsonApiRelationship :=
  {[ ("0", "author") := noAuthor; ("0", "comments") := noComments ]}.
Definition orphan : Store :=
  run (let! _ := CoreStore.push (mkDocument None (DocOne Example.post1) None) in
       SnapshotClass.createSnapshot "0")
      (emptyStore Example.blogTypes orphanEdges ∅).
Definition orphanSnapshot : Snapshot :=
  mkSnapshot (Some 0) ∅ ∅ ∅ ∅ 0 (Some 1) "0" "post" (Some "1").

(** A registry in which the owner has a factory for [post], whose class is
    a model class without a name of its own, and none for [user]. *)
Definition postClass : SchemaService.ModelClass := SchemaService.mkModelClass true None false.
Definition registry0 : SchemaService.Registry :=
  SchemaService.mkRegistry {[ "model:post" := 0 ]} ∅ {[ 0 := 0 ]} {[ 0 := postClass ]} ∅.
(** The same after the factory of [post] was asked for. *)
Definition registry1 : SchemaService.Registry :=
  (SchemaService.getModelFactory "post" registry0).1.
End Scenes.

(** * Proofs *)

(** ** Running the monad *)

Ltac mrun :=
  repeat (progress (unfold bind, gets, ret, throw, modify, when, assert; simpl)).

(** ** Operations that keep a relation between the store before and after *)

Section Preserves.
Context (R : relation Store) `{!PreOrder R}.

Lemma preserves_ret {A} (a : A) : preserves R (ret a).
Proof. intros st. simpl. reflexivity. Qed.

Lemma preserves_throw {A} (e : Exn) : preserves R (@throw A e).
Proof. intros st. simpl. reflexivity. Qed.

Lemma preserves_gets {A} (f : Store → A) : preserves R (gets f).
Proof. intros st. simpl. reflexivity. Qed.

Lemma preserves_bind {A B} (c : M A) (k : A → M B) :
  preserves R c → (∀ a, preserves R (k a)) → preserves R (bind c k).
Proof.
  intros Hc Hk st. unfold bind. specialize (Hc st).
  destruct (c st) as [s1 [a|e]]; simpl in *; [|done].
  etrans; [done|]. apply Hk.
Qed.

Lemma preserves_assert (message : string) (test : bool) :
  preserves R (assert message test).
Proof. destruct test; [apply preserves_ret|apply preserves_throw]. Qed.

Lemma preserves_when (c : bool) (body : M unit) :
  preserves R body → preserves R (when c body).
Proof. destruct c; [done|intros _; apply preserves_ret]. Qed.

Lemma preserves_forEach {A B} (f : A → M B) (l : list A) :
  (∀ x, preserves R (f x)) → preserves R (forEach f l).
Proof.
  intros Hf. induction l as [|x l IH]; simpl.
  - apply preserves_ret.
  - apply preserves_bind; [done|]. intros y.
    apply preserves_bind; [done|]. intros ys. apply preserves_ret.
Qed.

Lemma preserves_modify (f : Store → Store) :
  (∀ st, R st (f st)) → preserves R (modify f).
Proof. intros Hf st. apply Hf. Qed.

Lemma preserves_run {A} (c : M A) (st st' : Store) (r : Res A) :
  preserves R c → c st = (st', r) → R st st'.
Proof. intros Hc E. specialize (Hc st). by rewrite E in Hc. Qed.
End Preserves.

Create HintDb preserves discriminated.

Ltac preserves_step :=
  match goal with
  | |- PreOrder _ => solve [apply _]
  | |- preserves _ (bind _ _) => apply preserves_bind; [solve [apply _]| |intros ?]
  | |- preserves _ (ret _) => apply preserves_ret
  | |- preserves _ (gets _) => apply preserves_gets
  | |- preserves _ (throw _) => apply preserves_throw
  | |- preserves _ (assert _ _) => apply preserves_assert
  | |- preserves _ (when _ _) => apply preserves_when
  | |- preserves _ (forEach _ _) => apply preserves_forEach; [solve [apply _]|intros ?]
  | |- preserves _ (modify _) => apply preserves_modify; intros ?
  | |- preserves _ _ => solve [eauto with preserves typeclass_instances]
  | |- preserves _ (match ?x with _ => _ end) => destruct x
  | |- preserves _ (let '(_, _) := ?x in _) => destruct x
  end.
Ltac preserves_tac := repeat preserves_step.

Section Primitives.
Context (R : relation Store) `{!PreOrder R}.

Lemma preserves_getOrCreateRecordIdentifier `{!IgnoresIdentifierCache R} r :
  preserves R (Identifiers.getOrCreateRecordIdentifier r).
Proof.
  intros st. unfold Identifiers.getOrCreateRecordIdentifier.
  destruct (Identifiers.peekRecordIdentifier _ _); simpl; [reflexivity|].
  destruct (res_type r); simpl; [apply ignores_identifierCache|reflexivity].
Qed.

Lemma preserves_createIdentifierForNewRecord `{!IgnoresIdentifierCache R} t i :
  preserves R (Identifiers.createIdentifierForNewRecord t i).
Proof.
  intros st. unfold Identifiers.createIdentifierForNewRecord.
  case_match; simpl; [reflexivity|apply ignores_identifierCache].
Qed.

Lemma preserves_forgetRecordIdentifier `{!IgnoresIdentifierCache R} l :
  preserves R (Identifiers.forgetRecordIdentifier l).
Proof. intros st. apply ignores_identifierCache. Qed.

Lemma preserves_update `{!IgnoresInternalModels R} f im :
  preserves R (InternalModels.update f im).
Proof. intros st. apply ignores_internalModels. Qed.

Lemma preserves_create `{!IgnoresInternalModels R} i :
  preserves R (InternalModels.create i).
Proof. intros st. apply ignores_internalModels. Qed.

Lemma preserves_mapAdd `{!IgnoresIdentityMap R} t im l :
  preserves R (InternalModelFactory.mapAdd t im l).
Proof. intros st. apply ignores_identityMap. Qed.

Lemma preserves_mapRemove `{!IgnoresIdentityMap R} t im l :
  preserves R (InternalModelFactory.mapRemove t im l).
Proof. intros st. apply ignores_identityMap. Qed.

Lemma preserves_alloc `{!IgnoresHeap R} cell :
  preserves R (SnapshotClass.alloc cell).
Proof. intros st. apply ignores_heap. Qed.

Lemma preserves_arrayPush `{!IgnoresHeap R} l v :
  preserves R (SnapshotClass.arrayPush l v).
Proof. intros st. apply ignores_heap. Qed.

Lemma preserves_objectSet `{!IgnoresHeap R} l k v :
  preserves R (SnapshotClass.objectSet l k v).
Proof. intros st. apply ignores_heap. Qed.

Lemma preserves_this s : preserves R (SnapshotClass.this s).
Proof. intros st. unfold SnapshotClass.this. case_match; simpl; reflexivity. Qed.

Lemma preserves_assign `{!IgnoresSnapshots R} f s :
  preserves R (SnapshotClass.assign f s).
Proof. intros st. apply ignores_snapshots. Qed.
End Primitives.

Global Hint Resolve preserves_getOrCreateRecordIdentifier
  preserves_createIdentifierForNewRecord preserves_forgetRecordIdentifier
  preserves_update preserves_create preserves_mapAdd preserves_mapRemove
  preserves_alloc preserves_arrayPush preserves_objectSet preserves_this
  preserves_assign : preserves.

Section Compound.
Context (R : relation Store) `{!PreOrder R}.
Context `{!IgnoresIdentifierCache R, !IgnoresIdentityMap R, !IgnoresInternalModels R}.

Lemma preserves_remove im : preserves R (InternalModelFactory.remove im).
Proof. unfold InternalModelFactory.remove. preserves_tac. Qed.
Hint Resolve preserves_remove : preserves.

Lemma preserves_destroySync im : preserves R (InternalModelFactory.destroySync im).
Proof. unfold InternalModelFactory.destroySync. preserves_tac. Qed.
Hint Resolve preserves_destroySync : preserves.

Lemma preserves_peekById t i : preserves R (InternalModelFactory.peekById t i).
Proof. unfold InternalModelFactory.peekById. preserves_tac. Qed.
Hint Resolve preserves_peekById : preserves.

Lemma preserves__build r b : preserves R (InternalModelFactory._build r b).
Proof.
  unfold InternalModelFactory._build, InternalModels.cancelDestroy. preserves_tac.
Qed.
Hint Resolve preserves__build : preserves.

Lemma preserves_lookup r d : preserves R (InternalModelFactory.lookup r d).
Proof.
  unfold InternalModelFactory.lookup, InternalModels.cancelDestroy. preserves_tac.
Qed.
Hint Resolve preserves_lookup : preserves.

Lemma preserves_lookupIdentifier l : preserves R (InternalModelFactory.lookupIdentifier l).
Proof. unfold InternalModelFactory.lookupIdentifier. preserves_tac. Qed.

Lemma preserves__internalModelForResource r :
  preserves R (CoreStore._internalModelForResource r).
Proof.
  unfold CoreStore._internalModelForResource, InternalModelFactory.getByResource.
  preserves_tac.
Qed.

Lemma preserves_getRecord l : preserves R (CoreStore.getRecord l).
Proof.
  unfold CoreStore.getRecord, InternalModelFactory.lookupIdentifier. preserves_tac.
Qed.
End Compound.

Global Hint Resolve preserves_remove preserves_destroySync preserves_peekById
  preserves__build preserves_lookup preserves_lookupIdentifier
  preserves__internalModelForResource preserves_getRecord : preserves.

(** ** Inverting a run that returned *)

Lemma bind_Ok {A B} (c : M A) (k : A → M B) (st st' : Store) (b : B) :
  bind c k st = (st', Ok b) → ∃ s1 a, c st = (s1, Ok a) ∧ k a s1 = (st', Ok b).
Proof.
  unfold bind. destruct (c st) as [s1 [a|e]]; [|done]. intros H. by exists s1, a.
Qed.

Lemma gets_Ok {A} (f : Store → A) (st st' : Store) (a : A) :
  gets f st = (st', Ok a) → st' = st ∧ a = f st.
Proof. by intros [= <- <-]. Qed.

Lemma ret_Ok {A} (x : A) (st st' : Store) (a : A) :
  ret x st = (st', Ok a) → st' = st ∧ a = x.
Proof. by intros [= <- <-]. Qed.

Lemma assert_Ok (message : string) (test : bool) (st st' : Store) (u : unit) :
  assert message test st = (st', Ok u) → st' = st ∧ test = true.
Proof. destruct test; [by intros [= <-]|done]. Qed.

Lemma throw_Ok {A} (e : Exn) (st st' : Store) (a : A) :
  @throw A e st = (st', Ok a) → False.
Proof. done. Qed.

(** Splits a hypothesis [H : (let! x := c in k) st = (st', Ok v)] into the
    runs of its steps. *)
Ltac minv H :=
  repeat match type of H with
  | bind _ _ _ = (_, Ok _) =>
      let s1 := fresh "s" in let a := fresh "a" in let H1 := fresh H in
      apply bind_Ok in H as (s1 & a & H1 & H);
      first [ apply gets_Ok in H1 as [-> ->]
            | apply ret_Ok in H1 as [-> ->]
            | apply assert_Ok in H1 as [-> H1]
            | idtac ]
  | ret _ _ = (_, Ok _) => apply ret_Ok in H as [-> ->]
  | gets _ _ = (_, Ok _) => apply gets_Ok in H as [-> ->]
  | throw _ _ = (_, Ok _) => by apply throw_Ok in H
  end.

(** ** Resolving a resource to its entry *)

Lemma coerceId_id_property (v : IdValue) :
  coerceId (id_property (coerceId v)) = coerceId v.
Proof.
  destruct v as [| |s]; simpl; try done.
  case_bool_decide; simpl; [done|]. by rewrite bool_decide_eq_false_2.
Qed.

Lemma id_property_inj (a b : option string) : id_property a = id_property b → a = b.
Proof. destruct a, b; simpl; congruence. Qed.

Lemma peekRecordIdentifier_constructResource (c : IdentifierCache) (r : ResourceData) :
  Identifiers.peekRecordIdentifier c (constructResource r)
  = Identifiers.peekRecordIdentifier c r.
Proof.
  unfold Identifiers.peekRecordIdentifier, constructResource, constructResource3,
    read_id, normalizeModelName. simpl.
  rewrite coerceId_id_property. by destruct (res_type r).
Qed.

(** What the cache finds is on file. *)
Lemma peekRecordIdentifier_on_file (c : IdentifierCache) (r : ResourceData) (l : string) :
  Identifiers.peekRecordIdentifier c r = Some l → l ∈ cache_lids c.
Proof.
  unfold Identifiers.peekRecordIdentifier, Identifiers.findByTypeAndId.
  assert (∀ t i, find (λ l0, bool_decide (cache_identifiers c !! l0 = Some (t, Some i)))
                   (cache_lids c) = Some l → l ∈ cache_lids c) as Hfind.
  { intros t i H. apply find_some in H as [H _]. by apply list_elem_of_In. }
  destruct (res_lid r) as [l'|].
  - case_bool_decide; [by intros [= <-]|].
    destruct (res_type r), (coerceId (read_id r)); try done; apply Hfind.
  - destruct (res_type r), (coerceId (read_id r)); try done; apply Hfind.
Qed.

(** An identifier on file resolves to itself. *)
Lemma peekRecordIdentifier_identifier (c : IdentifierCache) (l : string) :
  l ∈ cache_lids c →
  Identifiers.peekRecordIdentifier c
    (Identifiers.asResource (Identifiers.identifierOf c l)) = Some l.
Proof.
  intros Hl. unfold Identifiers.peekRecordIdentifier, Identifiers.asResource.
  assert (ident_lid (Identifiers.identifierOf c l) = l) as Hlid.
  { unfold Identifiers.identifierOf. by destruct (_ !! l) as [[??]|]. }
  simpl. rewrite Hlid. by rewrite bool_decide_eq_true_2.
Qed.

(** Looking up a resource whose identifier and entry exist returns that
    entry; at most its scheduled destroy is cancelled. *)
Lemma lookup_existing (st : Store) (r : ResourceData) (l : string) (im : nat) :
  Identifiers.peekRecordIdentifier (identifierCache st) r = Some l →
  InternalModelFactory.peek l st = Some im →
  InternalModelFactory.lookup r None st = (cancelled im st, Ok im).
Proof.
  intros Hr Hpeek.
  unfold InternalModelFactory.lookup, Identifiers.getOrCreateRecordIdentifier, cancelled.
  mrun. rewrite Hr, Hpeek. by destruct (InternalModels.hasScheduledDestroy im st).
Qed.

Section Cancelled.
Variables (im : nat) (st : Store).

Lemma cancelled_identifierCache : identifierCache (cancelled im st) = identifierCache st.
Proof. unfold cancelled. by case_match. Qed.

Lemma cancelled_identityMap : _identityMap (cancelled im st) = _identityMap st.
Proof. unfold cancelled. by case_match. Qed.

Lemma cancelled_peek l :
  InternalModelFactory.peek l (cancelled im st) = InternalModelFactory.peek l st.
Proof.
  unfold InternalModelFactory.peek, InternalModelFactory.mapGet,
    InternalModelFactory.modelMapFor.
  by rewrite cancelled_identifierCache, cancelled_identityMap.
Qed.

Lemma cancelled_fetchUntouched : fetchUntouched st (cancelled im st).
Proof. unfold cancelled. by case_match. Qed.

Lemma cancelled_objectsUntouched : objectsUntouched st (cancelled im st).
Proof. unfold cancelled. by case_match. Qed.

Lemma cancelled_pendingFetch : pendingFetch (cancelled im st) = pendingFetch st.
Proof. unfold cancelled. by case_match. Qed.

Lemma cancelled_isDestroyed :
  isDestroying (cancelled im st) || isDestroyed (cancelled im st)
  = isDestroying st || isDestroyed st.
Proof. unfold cancelled. by case_match. Qed.

Lemma cancelled_dom : dom (internalModels (cancelled im st)) = dom (internalModels st).
Proof. unfold cancelled. case_match; [|done]. simpl. apply dom_alter_L. Qed.

Lemma cancelled_field {A} (f : InternalModel → A) (d : A) (r : nat) :
  (∀ m, f (InternalModels.with_scheduledDestroy false m) = f m) →
  InternalModels.field f d r (cancelled im st) = InternalModels.field f d r st.
Proof.
  intros Hf. unfold cancelled, InternalModels.field. case_match; [|done]. simpl.
  rewrite lookup_alter. case_decide; [subst|done].
  destruct (internalModels st !! r); simpl; [apply Hf|done].
Qed.

Lemma cancelled_hasScheduledDestroy :
  InternalModels.hasScheduledDestroy im (cancelled im st) = false.
Proof.
  unfold cancelled. destruct (InternalModels.hasScheduledDestroy im st) eqn:E; [|done].
  unfold InternalModels.hasScheduledDestroy, InternalModels.field. simpl.
  rewrite lookup_alter_eq. by destruct (internalModels st !! im).
Qed.

Lemma cancelled_idem : cancelled im (cancelled im st) = cancelled im st.
Proof. unfold cancelled at 1. by rewrite cancelled_hasScheduledDestroy. Qed.
End Cancelled.

Global Instance fetchUntouched_preorder : PreOrder fetchUntouched.
Proof.
  split; [by intros ?|].
  intros a b c (?&?&?) (?&?&?). repeat split; congruence.
Qed.

Global Instance objectsUntouched_preorder : PreOrder objectsUntouched.
Proof. split; [by intros ?|]. intros a b c [??] [??]. split; congruence. Qed.
Global Instance objectsUntouched_cache : IgnoresIdentifierCache objectsUntouched.
Proof. by intros ??. Qed.
Global Instance objectsUntouched_map : IgnoresIdentityMap objectsUntouched.
Proof. by intros ??. Qed.
Global Instance objectsUntouched_models : IgnoresInternalModels objectsUntouched.
Proof. by intros ??. Qed.

(** ** The merge callback of the identifier cache *)





Section MergeChoice.
Import InternalModelFactory.
Variables (identifier matchedIdentifier : StableRecordIdentifier).
Variable resourceData : ResourceData.

Lemma intended_is_one_of_the_two :
  intendedIdentifier identifier matchedIdentifier resourceData = identifier
  ∨ intendedIdentifier identifier matchedIdentifier resourceData = matchedIdentifier.
Proof.
  unfold intendedIdentifier.
  repeat case_bool_decide; repeat (destruct (_ && _)); auto.
Qed.

(** C4: of the two identifiers handed to the merge callback, [chosen] and
    [other], [chosen] is the intended identifier and [other] the alternate
    one when the ids of the two differ and the id of [chosen] is the id of
    the resource data, and also when the ids do not differ, the types do,
    and the type of [chosen] is the type of the resource data. *)
Theorem merge_intended_choice (chosen other : StableRecordIdentifier) :
  (chosen = identifier ∧ other = matchedIdentifier)
  ∨ (chosen = matchedIdentifier ∧ other = identifier) →
  (ident_id identifier ≠ ident_id matchedIdentifier
   ∧ id_property (ident_id chosen) = read_id resourceData)
  ∨ (ident_id identifier = ident_id matchedIdentifier
     ∧ ident_type identifier ≠ ident_type matchedIdentifier
     ∧ res_type resourceData = Some (ident_type chosen)) →
  intendedIdentifier identifier matchedIdentifier resourceData = chosen
  ∧ altIdentifier identifier matchedIdentifier resourceData = other.
Proof.
  intros Hwho Hwhy.
  assert (Hint : intendedIdentifier identifier matchedIdentifier resourceData = chosen).
  { unfold intendedIdentifier, sameId, read_id in *.
    destruct (res_id resourceData) as [v|] eqn:Ev; simpl in *;
      repeat case_bool_decide; simpl; try done;
      destruct Hwho as [[-> ->] | [-> ->]];
      destruct Hwhy as [[Hid Hdata] | (Hid & Hty & Hdata)];
      try done; try (by destruct (ident_id identifier));
      try (by destruct (ident_id matchedIdentifier));
      try naive_solver.
    all: try (exfalso; match goal with H : ¬ is_Some _ |- _ => apply H; eauto end).
    all: exfalso; subst;
      match goal with
      | H : ident_id _ ≠ ident_id _ |- _ => apply H
      | H : ident_type _ ≠ ident_type _ |- _ => apply H
      end; try congruence;
      by apply id_property_inj. }
  split; [done|].
  unfold altIdentifier. rewrite Hint.
  destruct Hwho as [[-> ->] | [-> ->]].
  - by rewrite bool_decide_eq_true_2.
  - rewrite bool_decide_eq_false_2; [done|].
    intros ->. destruct Hwhy as [[? _] | (_ & ? & _)]; done.
Qed.
End MergeChoice.

(** The ids differ and the second identifier has the id of the data; the
    ids agree, the types differ and the first has the type of the data. *)
Lemma merge_intended_choice_witness :
  (InternalModelFactory.intendedIdentifier
     (mkIdentifier "x" None "0") (mkIdentifier "x" (Some "1") "1") Example.x1
   = mkIdentifier "x" (Some "1") "1"
   ∧ InternalModelFactory.altIdentifier
       (mkIdentifier "x" None "0") (mkIdentifier "x" (Some "1") "1") Example.x1
     = mkIdentifier "x" None "0")
  ∧ (InternalModelFactory.intendedIdentifier
       (mkIdentifier "x" (Some "1") "0") (mkIdentifier "y" (Some "1") "1") Example.x1
     = mkIdentifier "x" (Some "1") "0"
     ∧ InternalModelFactory.altIdentifier
         (mkIdentifier "x" (Some "1") "0") (mkIdentifier "y" (Some "1") "1") Example.x1
       = mkIdentifier "y" (Some "1") "1").
Proof.
  split.
  - apply merge_intended_choice.
    + right. split; reflexivity.
    + left. split; [discriminate|reflexivity].
  - apply merge_intended_choice.
    + left. split; reflexivity.
    + right. split; [reflexivity|]. split; [discriminate|reflexivity].
Defined.

Section MergeConflict.
Import InternalModelFactory.
Variables (identifier matchedIdentifier : StableRecordIdentifier).
Variable resourceData : ResourceData.
Variable st : Store.

End MergeConflict.



(** ** Lookups and scheduled destroys *)

Section Lookup.
Import InternalModelFactory.

(** C5: a lookup, by a resource or by the identifier itself, that finds an
    entry with a scheduled destroy returns that entry and cancels the
    destroy; the entry stays filed under its identifier and no entry is
    created. *)
Theorem lookup_cancels_scheduled_destroy
    (st : Store) (resource : ResourceData) (identifier : string) (im : nat) :
  Identifiers.peekRecordIdentifier (identifierCache st) resource = Some identifier →
  peek identifier st = Some im →
  InternalModels.hasScheduledDestroy im st = true →
  ∃ st',
    lookup resource None st = (st', Ok im)
    ∧ lookupIdentifier identifier st = (st', Ok im)
    ∧ InternalModels.hasScheduledDestroy im st' = false
    ∧ peek identifier st' = Some im
    ∧ _identityMap st' = _identityMap st
    ∧ dom (internalModels st') = dom (internalModels st).
Proof.
  intros Hresource Hpeek Hsched.
  assert (Hfile := peekRecordIdentifier_on_file _ _ _ Hresource).
  exists (cancelled im st).
  split; [by apply (lookup_existing _ _ identifier)|].
  split.
  { unfold lookupIdentifier. unfold bind, gets.
    apply (lookup_existing _ _ identifier); [|done].
    by apply peekRecordIdentifier_identifier. }
  split; [apply cancelled_hasScheduledDestroy|].
  split; [by rewrite cancelled_peek|].
  split; [apply cancelled_identityMap|apply cancelled_dom].
Qed.
End Lookup.

(** [x:1] was unloaded; it is looked up again before its destroy ran. *)
Lemma lookup_cancels_scheduled_destroy_witness :
  ∃ st',
    InternalModelFactory.lookup Example.x1 None Example.unloaded = (st', Ok 0)
    ∧ InternalModelFactory.lookupIdentifier "0" Example.unloaded = (st', Ok 0)
    ∧ InternalModels.hasScheduledDestroy 0 st' = false
    ∧ InternalModelFactory.peek "0" st' = Some 0
    ∧ _identityMap st' = _identityMap Example.unloaded
    ∧ dom (internalModels st') = dom (internalModels Example.unloaded).
Proof.
  apply lookup_cancels_scheduled_destroy; vm_compute; reflexivity.
Defined.

Section PeekById.
Import InternalModelFactory.


Lemma find_head_filter {A} (P : A → Prop) `{∀ x, Decision (P x)} (l : list A) :
  find (λ x, bool_decide (P x)) l = head (filter P l).
Proof.
  induction l as [|x l IH]; [done|].
  rewrite filter_cons. simpl. case_bool_decide.
  - by rewrite decide_True.
  - by rewrite decide_False.
Qed.

End PeekById.



(** ** Loading a resource without an id *)

Section ForEach.
Context {A B : Type} (f : A → M B).

Lemma forEach_app (l1 l2 : list A) (st : Store) :
  forEach f (l1 ++ l2) st =
  (let! ys1 := forEach f l1 in let! ys2 := forEach f l2 in ret (ys1 ++ ys2)%list) st.
Proof.
  revert st. induction l1 as [|x l1 IH]; intros st; simpl.
  - unfold bind, ret. by destruct (forEach f l2 st) as [? [?|?]].
  - unfold bind, ret in *. destruct (f x st) as [s1 [y|e]]; [|done].
    rewrite IH.
    destruct (forEach f l1 s1) as [s2 [ys1|e]]; [|done].
    by destruct (forEach f l2 s2) as [s3 [ys2|e]].
Qed.

(** A loop stops at the first element whose body throws. *)
Lemma forEach_throws (pre post : list A) (x : A) (e : Exn) (st : Store) :
  (∀ s, f x s = (s, Throw e)) →
  ∃ s' e', forEach f (pre ++ x :: post) st = (s', Throw e')
           ∧ ∀ s1 ys, forEach f pre st = (s1, Ok ys) → s' = s1 ∧ e' = e.
Proof.
  intros Hx. revert st. induction pre as [|a pre IH]; intros st; simpl.
  - unfold bind, ret. rewrite Hx. eexists _, _. split; [done|]. by intros ?? [= <-].
  - unfold bind, ret in *. destruct (f a st) as [s1 [y|e1]].
    + destruct (IH s1) as (s' & e' & Hrun & Hfirst).
      rewrite Hrun. eexists _, _. split; [done|].
      intros s2 ys.
      destruct (forEach f pre s1) as [s3 [ys'|?]] eqn:E; [|done].
      intros [= <-]. by eapply Hfirst.
    + eexists _, _. split; [done|]. done.
Qed.

Lemma forEach_app_Ok (l1 l2 : list A) (st st' : Store) (ys : list B) :
  forEach f (l1 ++ l2) st = (st', Ok ys) →
  ∃ s1 ys1 ys2, forEach f l1 st = (s1, Ok ys1) ∧ forEach f l2 s1 = (st', Ok ys2).
Proof.
  revert st ys. induction l1 as [|x l1 IH]; intros st ys H; simpl in *.
  - by exists st, [], ys.
  - apply bind_Ok in H as (sx & y & Hx & H).
    apply bind_Ok in H as (s2 & ys' & Hrest & H).
    apply ret_Ok in H as [-> ->].
    apply IH in Hrest as (s1 & ys1 & ys2 & H1 & H2).
    exists s1, (y :: ys1), ys2. split; [|done].
    unfold bind. by rewrite Hx, H1.
Qed.
End ForEach.

Section Push.
Import CoreStore.

Lemma load_missing_id (r : ResourceData) (s : Store) :
  idIsMissing r →
  _load r s = (s, Throw (AssertionFailed (missingIdMessage (show_type (res_type r))))).
Proof.
  intros Hid. unfold _load. mrun.
  destruct Hid as [-> | [-> | ->]]; done.
Qed.

(** Where loading the resources one after the other throws, so does
    [_push], with the same exception and in the same store. *)
Lemma _push_throws_as_loads (doc : JsonApiDocument) (st s' : Store) (e : Exn) :
  isDestroying st || isDestroyed st = false →
  forEach _load (documentResources doc) st = (s', Throw e) →
  _push doc st = (s', Throw e).
Proof.
  intros Halive. unfold documentResources. rewrite forEach_app.
  unfold _push, assertDestroyingStore. mrun. rewrite Halive. simpl.
  destruct (doc_included doc) as [inc|]; simpl.
  - destruct (forEach _load inc st) as [s1 [ys|e1]]; [|by intros [= -> ->]].
    destruct (doc_data doc); mrun; try done.
    + destruct (_load resource s1) as [s2 [y|e2]]; [done|by intros [= -> ->]].
    + destruct (forEach _load resources s1) as [s2 [y|e2]]; [done|by intros [= -> ->]].
  - destruct (doc_data doc); mrun; try done.
    + destruct (_load resource st) as [s2 [y|e2]]; [done|by intros [= -> ->]].
    + destruct (forEach _load resources st) as [s2 [y|e2]]; [done|by intros [= -> ->]].
Qed.

Lemma _push_destroyed (doc : JsonApiDocument) (st : Store) :
  isDestroying st || isDestroyed st = true →
  ∃ e, _push doc st = (st, Throw e).
Proof.
  intros Hd. unfold _push, assertDestroyingStore. mrun. rewrite Hd. simpl. eauto.
Qed.

Lemma push_throws_as__push (doc : JsonApiDocument) (st s' : Store) (e : Exn) :
  isDestroying st || isDestroyed st = false →
  _push doc st = (s', Throw e) → push doc st = (s', Throw e).
Proof.
  intros Halive H. unfold push, assertDestroyingStore. mrun. rewrite Halive. simpl.
  by rewrite H.
Qed.

Lemma push_destroyed (doc : JsonApiDocument) (st : Store) :
  isDestroying st || isDestroyed st = true →
  ∃ e, push doc st = (st, Throw e).
Proof.
  intros Hd. unfold push, assertDestroyingStore. mrun. rewrite Hd. simpl. eauto.
Qed.

(** C1: [_load] of a resource whose id is missing, [null] or the empty
    string throws the assertion about the missing id and changes nothing,
    so no identifier and no entry is made for the resource; [_push] and
    [push] of a document that holds such a resource throw, and when the
    resources before it load, they throw that assertion, in the store
    those resources left. *)
Theorem push_missing_id_fails
    (doc : JsonApiDocument) (st : Store) (pre post : list ResourceData)
    (r : ResourceData) :
  documentResources doc = (pre ++ r :: post)%list →
  idIsMissing r →
  let error := AssertionFailed (missingIdMessage (show_type (res_type r))) in
  (∀ s, _load r s = (s, Throw error))
  ∧ throwsAfterLoading error pre st (_push doc)
  ∧ throwsAfterLoading error pre st (push doc).
Proof.
  intros Hdoc Hid error.
  assert (Hload : ∀ s, _load r s = (s, Throw error)).
  { intros s. by apply load_missing_id. }
  split; [done|]. unfold throwsAfterLoading.
  destruct (isDestroying st || isDestroyed st) eqn:Halive.
  - destruct (_push_destroyed doc st Halive) as [e He].
    destruct (push_destroyed doc st Halive) as [e' He'].
    split; [exists st, e|exists st, e']; (split; [done|]); by intros.
  - destruct (forEach_throws _load pre post r error st Hload) as (s' & e & Hrun & Hfirst).
    rewrite <- Hdoc in Hrun. apply _push_throws_as_loads in Hrun; [|done].
    split; exists s', e.
    + split; [done|]. intros s1 ids _. apply Hfirst.
    + split; [by apply push_throws_as__push|]. intros s1 ids _. apply Hfirst.
Qed.
End Push.

(** A payload whose second resource has no id. *)
Lemma push_missing_id_fails_witness :
  CoreStore._load Example.x_without_id Example.store0
  = (Example.store0, Throw (AssertionFailed (CoreStore.missingIdMessage "x")))
  ∧ throwsAfterLoading (AssertionFailed (CoreStore.missingIdMessage "x"))
      [Example.x1] Example.store0
      (CoreStore._push (Example.document [Example.x1; Example.x_without_id; Example.x2]))
  ∧ throwsAfterLoading (AssertionFailed (CoreStore.missingIdMessage "x"))
      [Example.x1] Example.store0
      (CoreStore.push (Example.document [Example.x1; Example.x_without_id; Example.x2])).
Proof.
  destruct (push_missing_id_fails
              (Example.document [Example.x1; Example.x_without_id; Example.x2])
              Example.store0 [Example.x1] [Example.x2] Example.x_without_id)
    as (Hload & H_push & Hpush).
  - reflexivity.
  - right. left. reflexivity.
  - split; [apply Hload|]. split; [exact H_push|exact Hpush].
Defined.

(** ** Fetches that are already pending *)

Section PendingFetch.
Import CoreStore.




End PendingFetch.



(** ** Relationships of a snapshot are read once *)

Global Instance snapshotStays_preorder s : PreOrder (snapshotStays s).
Proof. split; [intros ? H; exact H|]. intros a b c H1 H2 H. by apply H2, H1. Qed.
Global Instance snapshotStays_cache s : IgnoresIdentifierCache (snapshotStays s).
Proof. intros st c H. exact H. Qed.
Global Instance snapshotStays_map s : IgnoresIdentityMap (snapshotStays s).
Proof. intros st c H. exact H. Qed.
Global Instance snapshotStays_models s : IgnoresInternalModels (snapshotStays s).
Proof. intros st c H. exact H. Qed.
Global Instance snapshotStays_heap s : IgnoresHeap (snapshotStays s).
Proof. intros st c H. exact H. Qed.

Section SnapshotStays.
Import SnapshotClass.
Variable s : nat.

Lemma snapshotStays_assign f s' : preserves (snapshotStays s) (assign f s').
Proof.
  intros st H. simpl. rewrite lookup_alter.
  case_decide; [subst|done]. destruct H as [x ->]. by eexists.
Qed.
Hint Resolve snapshotStays_assign : preserves.

Lemma snapshotStays_recordDataChangedAttributes l :
  preserves (snapshotStays s) (recordDataChangedAttributes l).
Proof. unfold recordDataChangedAttributes. preserves_tac. Qed.
Hint Resolve snapshotStays_recordDataChangedAttributes : preserves.

Lemma snapshotStays__attributes s' : preserves (snapshotStays s) (_attributes s').
Proof. unfold _attributes. preserves_tac. Qed.
Hint Resolve snapshotStays__attributes : preserves.

Lemma snapshotStays_new o l : preserves (snapshotStays s) (new o l).
Proof.
  unfold new. preserves_tac.
  intros st H. simpl.
  destruct (decide (fresh (dom (snapshots st)) = s)) as [->|Hne].
  - by rewrite lookup_insert_eq.
  - by rewrite lookup_insert_ne.
Qed.

Lemma snapshotStays_createSnapshot l : preserves (snapshotStays s) (createSnapshot l).
Proof. apply snapshotStays_new. Qed.
Hint Resolve snapshotStays_createSnapshot : preserves.

Lemma snapshotStays_hasManyMember mode results member :
  preserves (snapshotStays s) (hasManyMember mode results member).
Proof. unfold hasManyMember. preserves_tac. Qed.
End SnapshotStays.

Global Hint Resolve snapshotStays_assign snapshotStays_createSnapshot
  snapshotStays_hasManyMember : preserves.

Section Memo.
Import SnapshotClass.
Variables (s : nat) (keyName : string) (mode : bool).

Lemma belongsTo_memoized (st : Store) (v : JsValue) :
  memoized (belongsToMemo mode) s keyName st = Some v →
  belongsTo s keyName mode st = (st, Ok v).
Proof.
  unfold memoized, belongsTo, this, belongsToMemo. mrun.
  destruct (snapshots st !! s) as [x|]; [simpl|done].
  destruct mode; simpl; intros ->; done.
Qed.

Lemma hasMany_memoized (st : Store) (v : JsValue) :
  memoized (hasManyMemo mode) s keyName st = Some v →
  hasMany s keyName mode st = (st, Ok v).
Proof.
  unfold memoized, hasMany, this, hasManyMemo. mrun.
  destruct (snapshots st !! s) as [x|]; [simpl|done].
  destruct mode; simpl; intros ->; done.
Qed.

Lemma assign_memoizes (memo : Snapshot → gmap string JsValue)
    (f : Snapshot → Snapshot) (st : Store) (v : JsValue) :
  is_Some (snapshots st !! s) →
  (∀ x, memo (f x) !! keyName = Some v) →
  memoized memo s keyName (assign f s st).1 = Some v.
Proof.
  intros [x Hx] Hf. unfold memoized. simpl.
  rewrite lookup_alter_eq, Hx. simpl. apply Hf.
Qed.

Lemma belongsTo_memoizes (st st' : Store) (v : JsValue) :
  belongsTo s keyName mode st = (st', Ok v) →
  memoized (belongsToMemo mode) s keyName st' = Some v.
Proof.
  unfold belongsTo, this. unfold bind at 1.
  destruct (snapshots st !! s) as [x|] eqn:Ex; [|done].
  destruct (if mode then _ else _) as [cached|] eqn:E1.
  { intros [= <- <-]. unfold memoized, belongsToMemo. rewrite Ex. simpl.
    by destruct mode. }
  destruct (if negb mode then _ else _) as [cached|] eqn:E2.
  { intros [= <- <-]. unfold memoized, belongsToMemo. rewrite Ex. simpl.
    by destruct mode. }
  intros H. minv H.
  destruct (graphGet _ _ _ _) as [value|]; [|done].
  minv H.
  assert (is_Some (snapshots s1 !! s)) as Hs.
  { eapply (preserves_run (snapshotStays s)) in H2; [|preserves_tac].
    eapply (preserves_run (snapshotStays s)) in H3; [|preserves_tac].
    apply H3, H2. by rewrite Ex. }
  destruct mode; injection H4 as <- _.
  - by apply (assign_memoizes (belongsToMemo true)); [|intros; apply lookup_insert_eq].
  - by apply (assign_memoizes (belongsToMemo false)); [|intros; apply lookup_insert_eq].
Qed.

Lemma hasMany_memoizes (st st' : Store) (v : JsValue) :
  hasMany s keyName mode st = (st', Ok v) →
  memoized (hasManyMemo mode) s keyName st' = Some v.
Proof.
  unfold hasMany, this. unfold bind at 1.
  destruct (snapshots st !! s) as [x|] eqn:Ex; [|done].
  destruct (if mode then _ else _) as [cached|] eqn:E1.
  { intros [= <- <-]. unfold memoized, hasManyMemo. rewrite Ex. simpl.
    by destruct mode. }
  destruct (if negb mode then _ else _) as [cached|] eqn:E2.
  { intros [= <- <-]. unfold memoized, hasManyMemo. rewrite Ex. simpl.
    by destruct mode. }
  intros H. minv H.
  destruct (graphGet _ _ _ _) as [value|]; [|done].
  minv H.
  assert (is_Some (snapshots s0 !! s)) as Hs.
  { eapply (preserves_run (snapshotStays s)) in H2; [|preserves_tac].
    apply H2. by rewrite Ex. }
  destruct mode; injection H3 as <- _.
  - by apply (assign_memoizes (hasManyMemo true)); [|intros; apply lookup_insert_eq].
  - by apply (assign_memoizes (hasManyMemo false)); [|intros; apply lookup_insert_eq].
Qed.

End Memo.

(** ** What is memoized stays memoized *)

Global Instance memosSame_preorder : PreOrder memosSame.
Proof.
  split; [by intros ????|].
  intros a b c H1 H2 s k mode. destruct (H1 s k mode) as [??], (H2 s k mode) as [??].
  split; congruence.
Qed.
Global Instance memosSame_cache : IgnoresIdentifierCache memosSame.
Proof. by intros ?????. Qed.
Global Instance memosSame_map : IgnoresIdentityMap memosSame.
Proof. by intros ?????. Qed.
Global Instance memosSame_models : IgnoresInternalModels memosSame.
Proof. by intros ?????. Qed.
Global Instance memosSame_heap : IgnoresHeap memosSame.
Proof. by intros ?????. Qed.

Global Instance memosKept_preorder : PreOrder memosKept.
Proof.
  split; [by intros ?????|].
  intros a b c H1 H2 s k mode v. destruct (H1 s k mode v) as [??], (H2 s k mode v) as [??].
  split; auto.
Qed.

Lemma memosSame_kept (st st' : Store) : memosSame st st' → memosKept st st'.
Proof. intros H s k mode v. destruct (H s k mode) as [-> ->]. done. Qed.

(** A store that differs from [st] in something else than its snapshots. *)
Ltac same_snapshots := by intros ???.

Section Same.
Import SnapshotClass.

(** Assignments to a snapshot that leave its four dictionaries alone. *)
Lemma memosSame_assign (f : Snapshot → Snapshot) (s : nat) :
  (∀ x mode, belongsToMemo mode (f x) = belongsToMemo mode x
             ∧ hasManyMemo mode (f x) = hasManyMemo mode x) →
  preserves memosSame (assign f s).
Proof.
  intros Hf st s' k mode. unfold memoized. simpl. rewrite lookup_alter.
  case_decide; [subst|done].
  destruct (snapshots st !! s') as [x|]; [simpl|done].
  by destruct (Hf x mode) as [-> ->].
Qed.

Lemma memosSame_assign_attributes a s : preserves memosSame (assign (with___attributes a) s).
Proof. apply memosSame_assign. intros x mode. by destruct mode. Qed.
Lemma memosSame_assign_id i s : preserves memosSame (assign (with_id i) s).
Proof. apply memosSame_assign. intros x mode. by destruct mode. Qed.
Lemma memosSame_assign_changed c s :
  preserves memosSame (assign (with__changedAttributes c) s).
Proof. apply memosSame_assign. intros x mode. by destruct mode. Qed.
Hint Resolve memosSame_assign_attributes memosSame_assign_id memosSame_assign_changed
  : preserves.

Lemma memosSame_recordDidChange l : preserves memosSame (CoreStore.recordDidChange l).
Proof. unfold CoreStore.recordDidChange. preserves_tac. same_snapshots. Qed.
Hint Resolve memosSame_recordDidChange : preserves.

Lemma memosSame_configuredMerge a b d :
  preserves memosSame (InternalModelFactory.configuredMerge a b d).
Proof. unfold InternalModelFactory.configuredMerge. preserves_tac. Qed.
Hint Resolve memosSame_configuredMerge : preserves.

Lemma memosSame_updateRecordIdentifier l d :
  preserves memosSame (IdentifierMerge.updateRecordIdentifier l d).
Proof. unfold IdentifierMerge.updateRecordIdentifier. preserves_tac; same_snapshots. Qed.
Hint Resolve memosSame_updateRecordIdentifier : preserves.

Lemma memosSame__load d : preserves memosSame (CoreStore._load d).
Proof. unfold CoreStore._load, InternalModels.setupData. preserves_tac. Qed.
Hint Resolve memosSame__load : preserves.

Lemma memosSame_assertDestroyingStore method :
  preserves memosSame (CoreStore.assertDestroyingStore method).
Proof. unfold CoreStore.assertDestroyingStore. preserves_tac. Qed.
Hint Resolve memosSame_assertDestroyingStore : preserves.

Lemma memosSame__push doc : preserves memosSame (CoreStore._push doc).
Proof. unfold CoreStore._push. preserves_tac. Qed.
Hint Resolve memosSame__push : preserves.

Lemma memosSame_push doc : preserves memosSame (CoreStore.push doc).
Proof. unfold CoreStore.push. preserves_tac. Qed.

Lemma memosSame_adapterFor modelName : preserves memosSame (CoreStore.adapterFor modelName).
Proof. unfold CoreStore.adapterFor. preserves_tac; same_snapshots. Qed.
Hint Resolve memosSame_adapterFor : preserves.

Lemma memosSame_createRecord modelName id :
  preserves memosSame (CoreStore.createRecord modelName id).
Proof.
  unfold CoreStore.createRecord, CoreStore.clientDidCreate, InternalModelFactory.build.
  preserves_tac.
Qed.

Lemma memosSame_deleteRecord l : preserves memosSame (CoreStore.deleteRecord l).
Proof. unfold CoreStore.deleteRecord, InternalModels.deleteRecord. preserves_tac. Qed.

Lemma memosSame_unloadRecord l : preserves memosSame (CoreStore.unloadRecord l).
Proof. unfold CoreStore.unloadRecord, InternalModels.unloadRecord. preserves_tac. Qed.

Lemma memosSame_peekRecord identifier id :
  preserves memosSame (StoreReads.peekRecord identifier id).
Proof. unfold StoreReads.peekRecord, StoreReads.peekLoadedRecord. preserves_tac. Qed.

Lemma memosSame_hasRecordForId modelName id :
  preserves memosSame (StoreReads.hasRecordForId modelName id).
Proof. unfold StoreReads.hasRecordForId. preserves_tac. Qed.

Lemma memosSame_factorySetRecordId type id lid :
  preserves memosSame (FactoryIds.setRecordId type id lid).
Proof. unfold FactoryIds.setRecordId, FactoryIds.setId. preserves_tac. Qed.

Lemma memosSame_storeSetRecordId modelName newId clientId :
  preserves memosSame (FactoryIds.storeSetRecordId modelName newId clientId).
Proof.
  unfold FactoryIds.storeSetRecordId, FactoryIds.setRecordId, FactoryIds.setId.
  preserves_tac.
Qed.

Lemma memosSame_newPromise p : preserves memosSame (FetchManager.newPromise p).
Proof. same_snapshots. Qed.
Hint Resolve memosSame_newPromise : preserves.

Lemma memosSame_scheduleFetch l o : preserves memosSame (FetchManager.scheduleFetch l o).
Proof.
  unfold FetchManager.scheduleFetch, FetchManager.dispatch. preserves_tac; same_snapshots.
Qed.
Hint Resolve memosSame_scheduleFetch : preserves.

Lemma memosSame__fetchDataIfNeededForIdentifier l o :
  preserves memosSame (CoreStore._fetchDataIfNeededForIdentifier l o).
Proof.
  unfold CoreStore._fetchDataIfNeededForIdentifier, CoreStore.preloadData,
    CoreStore.assertIdentifierHasId, FetchManager.resolve.
  preserves_tac.
Qed.
Hint Resolve memosSame__fetchDataIfNeededForIdentifier : preserves.

Lemma memosSame_internalModelForRelatedResource r :
  preserves memosSame (CoreStore.internalModelForRelatedResource r).
Proof. unfold CoreStore.internalModelForRelatedResource. preserves_tac. Qed.
Hint Resolve memosSame_internalModelForRelatedResource : preserves.

Lemma memosSame_areAllInverseRecordsLoaded r :
  preserves memosSame (CoreStore.areAllInverseRecordsLoaded r).
Proof.
  unfold CoreStore.areAllInverseRecordsLoaded.
  destruct (rel_data r) as [| |member|members]; [preserves_tac..|].
  apply preserves_bind; [apply _| |intros ?; apply preserves_ret; apply _].
  assert (∀ acc : M bool, preserves memosSame acc →
            preserves memosSame
              (foldl (λ acc resourceIdentifier,
                        let! hasEmptyModel := acc in
                        if hasEmptyModel : bool then ret true
                        else let! im := CoreStore.internalModelForRelatedResource
                                          resourceIdentifier in
                             gets (InternalModels.isEmpty im))
                     acc members)) as Hfold.
  { induction members as [|x members IH]; intros acc Hacc; simpl; [done|].
    apply IH. preserves_tac. }
  apply Hfold. preserves_tac.
Qed.
Hint Resolve memosSame_areAllInverseRecordsLoaded : preserves.

Lemma memosSame__findBelongsToByJsonApiResource r p o :
  preserves memosSame (CoreStore._findBelongsToByJsonApiResource r p o).
Proof.
  unfold CoreStore._findBelongsToByJsonApiResource, FetchManager.resolve,
    FetchManager._findBelongsTo, FetchManager.dispatch, CoreStore.assertIdentifierHasId.
  preserves_tac; same_snapshots.
Qed.

Lemma memosSame_recordDataChangedAttributes l :
  preserves memosSame (recordDataChangedAttributes l).
Proof. unfold recordDataChangedAttributes. preserves_tac. Qed.
Hint Resolve memosSame_recordDataChangedAttributes : preserves.

Lemma memosSame__attributes s : preserves memosSame (_attributes s).
Proof. unfold _attributes. preserves_tac. Qed.
Hint Resolve memosSame__attributes : preserves.

Lemma memosSame_new o l : preserves memosSame (new o l).
Proof.
  unfold new. preserves_tac.
  intros st s k mode. unfold memoized. simpl.
  destruct (decide (s = fresh (dom (snapshots st)))) as [->|Hne].
  - rewrite lookup_insert_eq.
    assert (snapshots st !! fresh (dom (snapshots st)) = None) as ->
      by apply not_elem_of_dom, is_fresh.
    by destruct mode.
  - by rewrite lookup_insert_ne.
Qed.

Lemma memosSame_createSnapshot l : preserves memosSame (createSnapshot l).
Proof. apply memosSame_new. Qed.
Hint Resolve memosSame_createSnapshot : preserves.

Lemma memosSame_attributes s : preserves memosSame (attributes s).
Proof. unfold attributes. preserves_tac. Qed.

Lemma memosSame_attr s k : preserves memosSame (SnapshotReads.attr s k).
Proof. unfold SnapshotReads.attr. preserves_tac. Qed.

Lemma memosSame_changedAttributes s : preserves memosSame (changedAttributes s).
Proof. unfold changedAttributes, slice. preserves_tac. Qed.

Lemma memosSame_hasManyMember mode results member :
  preserves memosSame (hasManyMember mode results member).
Proof. unfold hasManyMember. preserves_tac. Qed.
Hint Resolve memosSame_hasManyMember : preserves.

(** Running [k] after [c], which leaves the memos as they are. *)
Lemma kept_after_same {A B} (c : M A) (k : A → M B) (st0 st : Store) :
  memosSame st0 st →
  preserves memosSame c →
  (∀ a s1, memosSame st0 s1 → memosKept st0 (k a s1).1) →
  memosKept st0 (bind c k st).1.
Proof.
  intros H0 Hc Hk. unfold bind. specialize (Hc st).
  destruct (c st) as [s1 [a|e]]; simpl in *.
  - apply Hk. by etrans.
  - apply memosSame_kept. by etrans.
Qed.

(** Writing a memo that was not there keeps the others. *)
Lemma kept_memo_write (st0 st : Store) (s : nat) (f : Snapshot → Snapshot) :
  memosSame st0 st →
  (∀ x, snapshots st !! s = Some x →
        ∀ k mode v,
          (memoized (belongsToMemo mode) s k st0 = Some v →
           belongsToMemo mode (f x) !! k = Some v)
          ∧ (memoized (hasManyMemo mode) s k st0 = Some v →
             hasManyMemo mode (f x) !! k = Some v)) →
  memosKept st0 (assign f s st).1.
Proof.
  intros H0 Hf s' k mode v. simpl. unfold memoized at 2 4. simpl.
  rewrite lookup_alter. case_decide as Hs; [subst s'|].
  - destruct (snapshots st !! s) as [x|] eqn:Ex; simpl.
    + apply (Hf x eq_refl).
    + destruct (H0 s k mode) as [H1 H2]. unfold memoized in H1 at 1, H2 at 1.
      rewrite Ex in H1, H2. simpl in *. rewrite <- H1, <- H2. done.
  - destruct (H0 s' k mode) as [<- <-]. done.
Qed.

(** The memo writes of [belongsTo] and [hasMany]: one key of one
    dictionary, for which nothing was memoized, is written. *)
Lemma kept_new_memo (st0 st : Store) (s : nat) (f : Snapshot → Snapshot) :
  memosSame st0 st →
  (∀ x k mode v,
     (memoized (belongsToMemo mode) s k st0 = Some v →
      belongsToMemo mode x !! k = Some v →
      belongsToMemo mode (f x) !! k = Some v)
     ∧ (memoized (hasManyMemo mode) s k st0 = Some v →
        hasManyMemo mode x !! k = Some v →
        hasManyMemo mode (f x) !! k = Some v)) →
  memosKept st0 (assign f s st).1.
Proof.
  intros H0 Hf. apply kept_memo_write; [done|]. intros x Ex k mode v.
  destruct (H0 s k mode) as [Hb Hh]. unfold memoized in Hb at 1, Hh at 1.
  rewrite Ex in Hb, Hh. simpl in Hb, Hh.
  destruct (Hf x k mode v) as [Hfb Hfh]. split; intros Hv.
  - apply Hfb; [done|]. by rewrite Hb.
  - apply Hfh; [done|]. by rewrite Hh.
Qed.

Lemma belongsTo_keeps s keyName mode : preserves memosKept (belongsTo s keyName mode).
Proof.
  intros st. unfold belongsTo, this. unfold bind at 1.
  destruct (snapshots st !! s) as [x|] eqn:Ex; [|reflexivity].
  destruct (if mode then _ else _) as [cached|] eqn:E1; [reflexivity|].
  destruct (if negb mode then _ else _) as [cached|] eqn:E2; [reflexivity|].
  assert (Hnone : memoized (belongsToMemo mode) s keyName st = None).
  { unfold memoized. rewrite Ex. simpl. by destruct mode. }
  apply kept_after_same; [reflexivity|preserves_tac|]. intros meta s1 H1.
  apply kept_after_same; [done|preserves_tac|]. intros _ s2 H2.
  apply kept_after_same; [done|preserves_tac|]. intros i s3 H3.
  apply kept_after_same; [done|preserves_tac|]. intros relationship s4 H4.
  destruct relationship as [value|]; [|by apply memosSame_kept].
  apply kept_after_same; [done|preserves_tac|]. intros _ s5 H5.
  apply kept_after_same; [done|preserves_tac|]. intros inverse s6 H6.
  apply kept_after_same; [done|preserves_tac|]. intros result s7 H7.
  unfold bind, ret.
  assert (∀ f, memosKept st (assign f s s7).1 →
               memosKept st (match assign f s s7 with
                             | (st', Ok _) => (st', Ok result)
                             | (st', Throw e) => (st', Throw e)
                             end).1) as Hret by done.
  destruct mode; apply Hret, kept_new_memo; try done; intros x0 k mode' v;
    (split; [|by destruct mode']); intros Hv Hx0.
  - destruct mode'; [simpl|done].
    rewrite lookup_insert_ne; [done|]. intros <-. by rewrite Hnone in Hv.
  - destruct mode'; [done|simpl].
    rewrite lookup_insert_ne; [done|]. intros <-. by rewrite Hnone in Hv.
Qed.

Lemma hasMany_keeps s keyName mode : preserves memosKept (hasMany s keyName mode).
Proof.
  intros st. unfold hasMany, this. unfold bind at 1.
  destruct (snapshots st !! s) as [x|] eqn:Ex; [|reflexivity].
  destruct (if mode then _ else _) as [cached|] eqn:E1; [reflexivity|].
  destruct (if negb mode then _ else _) as [cached|] eqn:E2; [reflexivity|].
  assert (Hnone : memoized (hasManyMemo mode) s keyName st = None).
  { unfold memoized. rewrite Ex. simpl. by destruct mode. }
  apply kept_after_same; [reflexivity|preserves_tac|]. intros meta s1 H1.
  apply kept_after_same; [done|preserves_tac|]. intros _ s2 H2.
  apply kept_after_same; [done|preserves_tac|]. intros i s3 H3.
  apply kept_after_same; [done|preserves_tac|]. intros relationship s4 H4.
  destruct relationship as [value|]; [|by apply memosSame_kept].
  apply kept_after_same; [done|preserves_tac|]. intros _ s5 H5.
  apply kept_after_same; [done|preserves_tac|]. intros results s6 H6.
  unfold bind, ret.
  assert (∀ f, memosKept st (assign f s s6).1 →
               memosKept st (match assign f s s6 with
                             | (st', Ok _) => (st', Ok results)
                             | (st', Throw e) => (st', Throw e)
                             end).1) as Hret by done.
  destruct mode; apply Hret, kept_new_memo; try done; intros x0 k mode' v;
    (split; [by destruct mode'|]); intros Hv Hx0.
  - destruct mode'; [simpl|done].
    rewrite lookup_insert_ne; [done|]. intros <-. by rewrite Hnone in Hv.
  - destruct mode'; [done|simpl].
    rewrite lookup_insert_ne; [done|]. intros <-. by rewrite Hnone in Hv.
Qed.
End Same.

(** Every event keeps what the snapshots have memoized. *)
Lemma after_keeps (e : Event) (st : Store) : memosKept st (after e st).
Proof.
  destruct e; simpl;
    try (apply memosSame_kept;
         first [ apply memosSame_push | apply memosSame__push | apply memosSame__load
               | apply memosSame_createRecord | apply memosSame_deleteRecord
               | apply memosSame_unloadRecord | apply memosSame_peekRecord
               | apply memosSame_hasRecordForId | apply memosSame_storeSetRecordId
               | apply memosSame_adapterFor
               | apply memosSame__fetchDataIfNeededForIdentifier
               | apply memosSame__findBelongsToByJsonApiResource
               | apply (preserves_lookup memosSame)
               | apply (preserves_lookupIdentifier memosSame)
               | apply (preserves_peekById memosSame)
               | apply (preserves__build memosSame)
               | apply (preserves_remove memosSame)
               | apply (preserves_destroySync memosSame)
               | apply memosSame_factorySetRecordId
               | apply memosSame_updateRecordIdentifier
               | apply (preserves_forgetRecordIdentifier memosSame)
               | apply memosSame_scheduleFetch
               | apply (preserves__internalModelForResource memosSame)
               | apply (preserves_getRecord memosSame)
               | apply memosSame_createSnapshot | apply memosSame_attr
               | apply memosSame_attributes | apply memosSame_changedAttributes
               | by intros ??? ]).
  - apply belongsTo_keeps.
  - apply hasMany_keeps.
Qed.

Lemma afterAll_keeps (events : list Event) (st : Store) : memosKept st (afterAll events st).
Proof.
  revert st. induction events as [|e events IH]; intros st; [reflexivity|].
  simpl. etrans; [apply after_keeps|apply IH].
Qed.

Section Life.
Import SnapshotClass.
Variables (s : nat) (keyName : string) (mode : bool).

(** C8: a call of [belongsTo], and of [hasMany], that returns a value
    leaves that value memoized in the snapshot for the relationship and
    the mode; and after whatever calls of the store, of the factory, of
    the identifier cache, of the fetch manager and of snapshots, and
    whatever changes of the relationship graph and of the record data, the
    same call returns that value and changes nothing. *)
Theorem relationships_memoized_for_life (st st1 : Store) (v : JsValue) :
  (belongsTo s keyName mode st = (st1, Ok v) →
   memoized (belongsToMemo mode) s keyName st1 = Some v
   ∧ ∀ events,
       belongsTo s keyName mode (afterAll events st1) = (afterAll events st1, Ok v))
  ∧ (hasMany s keyName mode st = (st1, Ok v) →
     memoized (hasManyMemo mode) s keyName st1 = Some v
     ∧ ∀ events,
         hasMany s keyName mode (afterAll events st1) = (afterAll events st1, Ok v)).
Proof.
  split; intros H.
  - apply belongsTo_memoizes in H. split; [done|].
    intros events. apply belongsTo_memoized.
    by apply (afterAll_keeps events st1 s keyName mode v).
  - apply hasMany_memoizes in H. split; [done|].
    intros events. apply hasMany_memoized.
    by apply (afterAll_keeps events st1 s keyName mode v).
Qed.
End Life.

(** The author of the post and the ids of its comments are read from a
    snapshot; they are read again after the author and a comment were
    deleted, other relationships of the snapshot were read, another
    snapshot was taken and the relationship graph was emptied. *)
Lemma relationships_memoized_for_life_witness :
  (memoized (belongsToMemo false) 0 "author" Example.authorRead = Some (VSnapshot 1)
   ∧ SnapshotClass.belongsTo 0 "author" false
       (afterAll [CallDeleteRecord "0"; CallHasMany 0 "comments" false;
                  CallBelongsTo 0 "author" true; CallCreateSnapshot "3"; GraphChanges ∅]
          Example.authorRead)
     = (afterAll [CallDeleteRecord "0"; CallHasMany 0 "comments" false;
                  CallBelongsTo 0 "author" true; CallCreateSnapshot "3"; GraphChanges ∅]
          Example.authorRead,
        Ok (VSnapshot 1)))
  ∧ (memoized (hasManyMemo true) 0 "comments" Example.commentsRead = Some (VRef 3)
     ∧ SnapshotClass.hasMany 0 "comments" true
         (afterAll [CallDeleteRecord "1"; CallBelongsTo 0 "author" false; CallDestroySync 1;
                    GraphChanges ∅; RecordDataChanges ∅]
            Example.commentsRead)
       = (afterAll [CallDeleteRecord "1"; CallBelongsTo 0 "author" false; CallDestroySync 1;
                    GraphChanges ∅; RecordDataChanges ∅]
            Example.commentsRead,
          Ok (VRef 3))).
Proof.
  split.
  - destruct (relationships_memoized_for_life 0 "author" false
                Example.snapped Example.authorRead (VSnapshot 1)) as [H _].
    destruct H as [Hmemo Hlater]; [vm_compute; reflexivity|].
    split; [exact Hmemo|]. apply Hlater.
  - destruct (relationships_memoized_for_life 0 "comments" true
                Example.snapped Example.commentsRead (VRef 3)) as [_ H].
    destruct H as [Hmemo Hlater]; [vm_compute; reflexivity|].
    split; [exact Hmemo|]. apply Hlater.
Defined.

(** ** Attributes of a snapshot are handed out as copies *)

Section Returns.
Import InternalModelFactory.

(** Looking up an identifier object always returns an entry. *)
Lemma lookupIdentifier_returns (l : string) (st : Store) :
  ∃ st' im, lookupIdentifier l st = (st', Ok im).
Proof.
  unfold lookupIdentifier, lookup, Identifiers.getOrCreateRecordIdentifier, _build,
    InternalModels.create, mapAdd, InternalModels.cancelDestroy, InternalModels.update.
  mrun.
  repeat (case_match; simplify_eq/=); eauto.
Qed.

Lemma getRecord_returns (l : string) (st : Store) :
  ∃ st', CoreStore.getRecord l st = (st', Ok tt) ∧ objectsUntouched st st'.
Proof.
  destruct (CoreStore.getRecord l st) as [st' r] eqn:E.
  assert (objectsUntouched st st') as Hst.
  { eapply (preserves_run objectsUntouched); [|done]. apply preserves_getRecord; apply _. }
  revert E. unfold CoreStore.getRecord, bind.
  destruct (lookupIdentifier_returns l st) as (s1 & im & ->).
  unfold InternalModels.update, modify. intros [= <- <-]. eauto.
Qed.
End Returns.

Section Attributes.
Import SnapshotClass.
Variable s : nat.

(** Filling the attribute object key by key. *)
Lemma fill_attributes (l : nat) (value : string → Store → JsValue)
    (keys : list string) (st : Store) :
  isObject l st →
  ∃ st' us,
    forEach (λ keyName, let! v := gets (value keyName) in objectSet l keyName v)
            keys st = (st', Ok us)
    ∧ snapshots st' = snapshots st
    ∧ dom (heap st') = dom (heap st)
    ∧ isObject l st'.
Proof.
  revert st. induction keys as [|k keys IH]; intros st Hl.
  - by exists st, [].
  - simpl. mrun.
    destruct (IH (set_heap
                    (alter (λ cell, match cell with
                                    | JsObject props => JsObject (<[k := value k st]> props)
                                    | JsArray items => JsArray items
                                    end) l (heap st)) st))
      as (st' & us & Hrun & Hsnap & Hdom & Hobj).
    { destruct Hl as [props Hl]. eexists. simpl. by rewrite lookup_alter_eq, Hl. }
    unfold bind, gets, ret in Hrun. rewrite Hrun.
    eexists _, _. split; [done|]. split; [done|]. split; [|done].
    rewrite Hdom. simpl. apply dom_alter_L.
Qed.

(** The getter returns the attribute object of the snapshot, which it
    makes on first use. *)
Lemma _attributes_returns (st : Store) (x : Snapshot) :
  snapshots st !! s = Some x →
  (∀ internal, snap___attributes x = Some internal → isObject internal st) →
  ∃ st1 internal x1,
    _attributes s st = (st1, Ok internal)
    ∧ snapshots st1 !! s = Some x1
    ∧ snap___attributes x1 = Some internal
    ∧ isObject internal st1.
Proof.
  intros Hs Hshape. unfold _attributes, this. unfold bind at 1. rewrite Hs.
  destruct (snap___attributes x) as [internal|] eqn:Ei.
  { exists st, internal, x. eauto. }
  unfold bind at 1.
  destruct (getRecord_returns (snap_identifier x) st) as (s1 & -> & Hsnap & Hheap).
  unfold bind at 1, alloc at 1.
  unfold bind at 1, assign at 1, modify at 1.
  unfold bind at 1, gets at 1. unfold bind at 1, gets at 1. unfold bind at 1, gets at 1.
  set (l := fresh (dom (heap s1))).
  set (σ := set_snapshots _ _).
  assert (isObject l σ) as Hl.
  { exists ∅. subst σ. simpl. by rewrite lookup_insert_eq. }
  unfold bind at 1.
  match goal with
  | |- context [forEach (λ keyName, let! v := gets (@?g keyName) in _) ?keys σ] =>
      destruct (fill_attributes l g keys σ Hl) as (st' & us & Hrun & Hsnap' & _ & Hobj)
  end.
  unfold bind, gets in Hrun |- *. rewrite Hrun.
  eexists _, _, _. split; [reflexivity|]. rewrite Hsnap'. subst σ. simpl.
  rewrite lookup_alter_eq, Hsnap, Hs. simpl. split; [reflexivity|]. done.
Qed.

Lemma _attributes_cached (st : Store) (x : Snapshot) (internal : nat) :
  snapshots st !! s = Some x →
  snap___attributes x = Some internal →
  _attributes s st = (st, Ok internal).
Proof. intros Hs Hi. unfold _attributes, this. unfold bind. by rewrite Hs, Hi. Qed.

Lemma attributes_copies (st : Store) (x : Snapshot) :
  snapshots st !! s = Some x →
  (∀ internal, snap___attributes x = Some internal → isObject internal st) →
  ∃ st1 copy internal props x1,
    attributes s st = (st1, Ok (VRef copy))
    ∧ snapshots st1 !! s = Some x1
    ∧ snap___attributes x1 = Some internal
    ∧ heap st1 !! internal = Some (JsObject props)
    ∧ heap st1 !! copy = Some (JsObject props)
    ∧ copy ≠ internal
    ∧ ∀ cell,
        let st2 := set_heap (<[copy := cell]> (heap st1)) st1 in
        heap st2 !! internal = Some (JsObject props)
        ∧ ∃ st3 copy',
            attributes s st2 = (st3, Ok (VRef copy'))
            ∧ heap st3 !! copy' = Some (JsObject props)
            ∧ heap st3 !! internal = Some (JsObject props)
            ∧ snapshots st3 !! s = Some x1.
Proof.
  intros Hs Hshape.
  destruct (_attributes_returns st x Hs Hshape)
    as (s1 & internal & x1 & Hrun & Hs1 & Hi & [props Hobj]).
  unfold attributes. unfold bind at 1. rewrite Hrun.
  unfold bind at 1, gets at 1. rewrite Hobj.
  unfold bind, alloc, ret.
  assert (fresh (dom (heap s1)) ≠ internal) as Hne.
  { intros E. apply (is_fresh (dom (heap s1))). rewrite E. apply elem_of_dom. eauto. }
  eexists _, _, internal, props, x1. split; [reflexivity|]. simpl.
  split; [done|]. split; [done|].
  split; [by rewrite lookup_insert_ne|].
  split; [by rewrite lookup_insert_eq|].
  split; [done|].
  intros cell. simpl.
  assert (Hint : <[fresh (dom (heap s1)):=cell]>
                   (<[fresh (dom (heap s1)):=JsObject props]> (heap s1)) !! internal
                 = Some (JsObject props)).
  { by rewrite !lookup_insert_ne. }
  split; [done|].
  rewrite (_attributes_cached _ x1 internal) by done. simpl. rewrite Hint.
  eexists _, _. split; [reflexivity|]. simpl.
  split; [by rewrite lookup_insert_eq|].
  split; [|done].
  rewrite lookup_insert_ne; [done|].
  match goal with
  | |- fresh (dom ?h) ≠ _ =>
      intros E; apply (is_fresh (dom h)); rewrite E; apply elem_of_dom; eexists; exact Hint
  end.
Qed.
End Attributes.

Section ChangedAttributes.
Import SnapshotClass.
Variable s : nat.

Lemma readPair_agree (h h' : gmap nat HeapCell) (v : JsValue) (items : list JsValue) :
  readPair h v = Some items →
  (∀ l, l ∈ dom h → h' !! l = h !! l) →
  readPair h' v = Some items.
Proof.
  destruct v; simpl; try done.
  destruct (h !! loc) as [cell|] eqn:E; [|done].
  intros Hr Hagree. rewrite Hagree, E; [done|]. apply elem_of_dom. eauto.
Qed.

Lemma readPair_cell (h : gmap nat HeapCell) (v : JsValue) (items : list JsValue) :
  readPair h v = Some items → ∃ b, v = VRef b ∧ h !! b = Some (JsArray items).
Proof.
  destruct v as [| | | | |b|]; simpl; try done.
  destruct (h !! b) as [[?|?]|] eqn:E; try done. intros [= <-]. by exists b.
Qed.

(** The loop of [changedAttributes]: each key gets a new array with the
    items of the array the snapshot holds for it.  [h0] is the heap at
    the call. *)
Lemma slice_loop (h0 : gmap nat HeapCell) (props : gmap string JsValue)
    (copy : nat) (keys : list string) :
  copy ∉ dom h0 →
  ∀ (st : Store) (acc : gmap string JsValue),
    (∀ l, l ∈ dom h0 → heap st !! l = h0 !! l) →
    heap st !! copy = Some (JsObject acc) →
    (∀ k, k ∈ keys → ∃ v, props !! k = Some v ∧ is_Some (readPair h0 v)) →
    ∃ st' us acc',
      forEach (λ key, let! c := slice (props !! key) in objectSet copy key c) keys st
      = (st', Ok us)
      ∧ heap st' !! copy = Some (JsObject acc')
      ∧ snapshots st' = snapshots st
      ∧ (∀ l, l ∈ dom (heap st) → l ≠ copy → heap st' !! l = heap st !! l)
      ∧ ∀ k,
          (k ∈ keys →
           ∃ a v items, acc' !! k = Some (VRef a) ∧ props !! k = Some v
                        ∧ readPair h0 v = Some items
                        ∧ heap st' !! a = Some (JsArray items)
                        ∧ a ∉ dom h0)
          ∧ (k ∉ keys → acc' !! k = acc !! k).
Proof.
  intros Hcopy0.
  induction keys as [|k0 keys IH]; intros st acc Hagree Hcopy Hkeys.
  - exists st, [], acc. repeat split; try done. intros Hk. by apply not_elem_of_nil in Hk.
  - destruct (Hkeys k0) as (v0 & Hv0 & [items0 Hr0]); [by left|].
    destruct (readPair_cell _ _ _ Hr0) as (b0 & -> & Hcell0).
    assert (heap st !! b0 = Some (JsArray items0)) as Hcell.
    { rewrite Hagree; [done|]. apply elem_of_dom. eauto. }
    set (a0 := fresh (dom (heap st))).
    assert (a0 ∉ dom (heap st)) as Hfresh by apply is_fresh.
    assert (dom h0 ⊆ dom (heap st)) as Hsub.
    { intros l Hl. apply elem_of_dom. rewrite Hagree by done. by apply elem_of_dom. }
    assert (a0 ≠ copy) as Ha0.
    { intros E. apply Hfresh. rewrite E. apply elem_of_dom. eauto. }
    set (h1 := alter (λ cell, match cell with
                              | JsObject p => JsObject (<[k0 := VRef a0]> p)
                              | JsArray items => JsArray items
                              end) copy (<[a0 := JsArray items0]> (heap st))).
    assert (Hstep : (let! c := slice (props !! k0) in objectSet copy k0 c) st
                    = (set_heap h1 st, Ok tt)).
    { unfold slice. rewrite Hv0. mrun. rewrite Hcell. done. }
    assert (Hh1 : ∀ l, l ∈ dom (heap st) → l ≠ copy → h1 !! l = heap st !! l).
    { intros l Hl Hne. subst h1. rewrite lookup_alter_ne by done.
      rewrite lookup_insert_ne; [done|]. by intros <-. }
    destruct (IH (set_heap h1 st) (<[k0 := VRef a0]> acc))
      as (st' & us & acc' & Hrun & Hcopy' & Hsnap & Hframe & Hcontent).
    { intros l Hl. simpl. rewrite Hh1; [by apply Hagree|by apply Hsub|].
      intros ->. done. }
    { simpl. subst h1. rewrite lookup_alter_eq, lookup_insert_ne, Hcopy by done. done. }
    { intros k Hk. apply Hkeys. by right. }
    simpl in Hframe.
    assert (Hdom1 : dom h1 = {[a0]} ∪ dom (heap st)).
    { subst h1. by rewrite dom_alter_L, dom_insert_L. }
    exists st', (tt :: us), acc'.
    split.
    { simpl. unfold bind at 1. rewrite Hstep. unfold bind at 1. rewrite Hrun. done. }
    split; [done|]. split; [done|].
    split.
    { intros l Hl Hne. rewrite Hframe; [by apply Hh1| |done].
    rewrite Hdom1. apply elem_of_union. by right. }
    intros k. split.
    + intros Hk. destruct (decide (k ∈ keys)) as [Hin|Hnotin].
      * by apply Hcontent.
      * assert (k = k0) as -> by (apply elem_of_cons in Hk as [?|?]; done).
        destruct (Hcontent k0) as [_ Hc]. rewrite (Hc Hnotin), lookup_insert_eq.
        exists a0, (VRef b0), items0. split; [done|]. split; [done|].
        split; [done|]. split; [|intros Hin; apply Hfresh, Hsub, Hin].
        rewrite Hframe; [| |done].
      2:{ rewrite Hdom1. apply elem_of_union. left. by apply elem_of_singleton. }
        subst h1. rewrite lookup_alter_ne by done. by rewrite lookup_insert_eq.
    + intros Hk. destruct (Hcontent k) as [_ Hc].
      rewrite Hc by (intros ?; apply Hk; by right).
    apply lookup_insert_ne. intros ->. apply Hk. by left.
Qed.

(** A call returns a new object whose arrays are new and hold what the
    arrays of the snapshot hold; no cell that existed is changed. *)
Lemma changedAttributes_copies (st : Store) (x : Snapshot) :
  snapshots st !! s = Some x →
  wellShaped st (snap__changedAttributes x) →
  ∃ st1 copy props,
    changedAttributes s st = (st1, Ok (VRef copy))
    ∧ (copy ∉ dom (heap st))
    ∧ heap st1 !! copy = Some (JsObject props)
    ∧ (∀ k a, props !! k = Some (VRef a) → a ∉ dom (heap st))
    ∧ (∀ l, l ∈ dom (heap st) → heap st1 !! l = heap st !! l)
    ∧ snapshots st1 = snapshots st
    ∧ readPairs (heap st1) copy = internalPairs st x.
Proof.
  intros Hs Hshape. unfold changedAttributes, this. unfold bind at 1. rewrite Hs.
  unfold bind at 1, alloc at 1.
  set (copy := fresh (dom (heap st))).
  assert (copy ∉ dom (heap st)) as Hfresh by apply is_fresh.
  unfold internalPairs, wellShaped in *.
  destruct (snap__changedAttributes x) as [internal|].
  - destruct Hshape as (iprops & Hinternal & Hvalues).
    unfold bind at 1, gets at 1. simpl. rewrite lookup_insert_ne.
    2:{ intros <-. apply Hfresh. apply elem_of_dom. eauto. }
    rewrite Hinternal.
    destruct (slice_loop (heap st) iprops copy (map_to_list iprops).*1 Hfresh
                (set_heap (<[copy := JsObject ∅]> (heap st)) st) ∅)
      as (st' & us & acc' & Hrun & Hcopy' & Hsnap & Hframe & Hcontent).
    { intros l Hl. simpl. rewrite lookup_insert_ne; [done|]. by intros <-. }
    { simpl. by rewrite lookup_insert_eq. }
    { intros k Hk. apply list_elem_of_fmap in Hk as ([k' v] & -> & Hkv).
      apply elem_of_map_to_list in Hkv. eauto. }
    unfold bind at 1. rewrite Hrun. unfold ret.
    assert (Hkeys : ∀ k, k ∈ (map_to_list iprops).*1 ↔ is_Some (iprops !! k)).
    { intros k. rewrite list_elem_of_fmap. split.
      - intros ([k' v] & -> & Hkv). apply elem_of_map_to_list in Hkv. eauto.
      - intros [v Hv]. exists (k, v). split; [done|]. by apply elem_of_map_to_list. }
    assert (Hagree : ∀ l, l ∈ dom (heap st) → heap st' !! l = heap st !! l).
    { intros l Hl. rewrite Hframe; simpl.
      - rewrite lookup_insert_ne; [done|]. by intros <-.
      - rewrite dom_insert_L. apply elem_of_union. by right.
      - by intros ->. }
    exists st', copy, acc'. split; [done|]. split; [done|]. split; [done|].
    split.
    { intros k a Hka. destruct (Hcontent k) as [Hin Hout].
      destruct (decide (k ∈ (map_to_list iprops).*1)) as [Hk|Hk].
      - destruct (Hin Hk) as (a' & v & items & Hacc & _ & _ & _ & Ha').
        rewrite Hacc in Hka. by injection Hka as <-.
      - rewrite (Hout Hk) in Hka. by rewrite lookup_empty in Hka. }
    split; [done|]. split; [done|].
    unfold readPairs. rewrite Hcopy', Hinternal. f_equal.
    apply map_eq. intros k. rewrite !lookup_fmap.
    destruct (Hcontent k) as [Hin Hout].
    destruct (iprops !! k) as [v|] eqn:Ev.
    + destruct Hin as (a & v' & items & Hacc & Hv' & Hr & Ha & _);
        [apply Hkeys; eauto|].
      assert (v' = v) as -> by congruence.
      rewrite Hacc. simpl. by rewrite Ha, Hr.
    + rewrite Hout; [by rewrite lookup_empty|].
      rewrite Hkeys, Ev. by intros [??].
  - unfold ret. eexists _, copy, ∅. split; [done|]. split; [done|]. simpl.
    split; [by rewrite lookup_insert_eq|]. split; [by intros ??; rewrite lookup_empty|].
    split.
    { intros l Hl. rewrite lookup_insert_ne; [done|]. by intros <-. }
    split; [done|].
    unfold readPairs. rewrite lookup_insert_eq. by rewrite fmap_empty.
Qed.

Lemma wellShaped_agree (st st2 : Store) (changed : option nat) :
  wellShaped st changed →
  (∀ l, l ∈ dom (heap st) → heap st2 !! l = heap st !! l) →
  wellShaped st2 changed.
Proof.
  destruct changed as [internal|]; [|done].
  intros (props & Hi & Hv) Hagree. exists props. split.
  - rewrite Hagree; [done|]. apply elem_of_dom. eauto.
  - intros k v Hkv. destruct (Hv k v Hkv) as [items Hr]. exists items.
    by eapply readPair_agree.
Qed.

Lemma internalPairs_agree (st st2 : Store) (x : Snapshot) :
  wellShaped st (snap__changedAttributes x) →
  (∀ l, l ∈ dom (heap st) → heap st2 !! l = heap st !! l) →
  internalPairs st2 x = internalPairs st x.
Proof.
  unfold internalPairs, wellShaped, readPairs.
  destruct (snap__changedAttributes x) as [internal|]; [|done].
  intros (props & Hi & Hv) Hagree.
  rewrite Hagree, Hi by (apply elem_of_dom; eauto). f_equal.
  apply map_eq. intros k. rewrite !lookup_fmap.
  destruct (props !! k) as [v|] eqn:Ev; [simpl|done].
  destruct (Hv k v Ev) as [items Hr]. rewrite Hr. f_equal.
  by eapply readPair_agree.
Qed.

Lemma changedAttributes_copies_again (st : Store) (x : Snapshot) :
  snapshots st !! s = Some x →
  wellShaped st (snap__changedAttributes x) →
  ∃ st1 copy props,
    changedAttributes s st = (st1, Ok (VRef copy))
    ∧ (copy ∉ dom (heap st))
    ∧ heap st1 !! copy = Some (JsObject props)
    ∧ (∀ k a, props !! k = Some (VRef a) → a ∉ dom (heap st))
    ∧ snapshots st1 = snapshots st
    ∧ (∀ l, l ∈ dom (heap st) → heap st1 !! l = heap st !! l)
    ∧ readPairs (heap st1) copy = internalPairs st x
    ∧ ∀ st2,
        snapshots st2 !! s = Some x →
        (∀ l, l ∈ dom (heap st) → heap st2 !! l = heap st !! l) →
        (internalPairs st2 x = internalPairs st x
         ∧ ∃ st3 copy',
             changedAttributes s st2 = (st3, Ok (VRef copy'))
             ∧ readPairs (heap st3) copy' = readPairs (heap st1) copy).
Proof.
  intros Hs Hshape.
  destruct (changedAttributes_copies st x Hs Hshape)
    as (st1 & copy & props & Hrun & Hfresh & Hcopy & Harrays & Hframe & Hsnap & Hpairs).
  exists st1, copy, props. repeat (split; [done|]).
  intros st2 Hs2 Hagree.
  assert (internalPairs st2 x = internalPairs st x) as Hsame
    by by apply internalPairs_agree.
  split; [done|].
  destruct (changedAttributes_copies st2 x Hs2 (wellShaped_agree _ _ _ Hshape Hagree))
    as (st3 & copy' & props' & Hrun' & _ & _ & _ & _ & _ & Hpairs').
  exists st3, copy'. split; [done|]. congruence.
Qed.

(** C10: [attributes()] returns a new object with the properties of the
    attribute object of the snapshot; whatever is then put in the place
    of the returned object, the attribute object keeps its properties and
    the next call returns them in another new object.
    [changedAttributes()] returns a new object whose arrays are new and
    hold the pairs the snapshot holds; whatever is then done to objects
    that did not exist before the call, the snapshot holds the same pairs
    and the next call returns them again. *)
Theorem snapshot_returns_fresh_copies (st : Store) (x : Snapshot) :
  snapshots st !! s = Some x →
  (∀ internal, snap___attributes x = Some internal → isObject internal st) →
  wellShaped st (snap__changedAttributes x) →
  (∃ st1 copy internal props x1,
     attributes s st = (st1, Ok (VRef copy))
     ∧ snapshots st1 !! s = Some x1
     ∧ snap___attributes x1 = Some internal
     ∧ heap st1 !! internal = Some (JsObject props)
     ∧ heap st1 !! copy = Some (JsObject props)
     ∧ copy ≠ internal
     ∧ ∀ cell,
         let st2 := set_heap (<[copy := cell]> (heap st1)) st1 in
         heap st2 !! internal = Some (JsObject props)
         ∧ ∃ st3 copy',
             attributes s st2 = (st3, Ok (VRef copy'))
             ∧ heap st3 !! copy' = Some (JsObject props)
             ∧ heap st3 !! internal = Some (JsObject props)
             ∧ snapshots st3 !! s = Some x1)
  ∧ (∃ st1 copy props,
       changedAttributes s st = (st1, Ok (VRef copy))
       ∧ (copy ∉ dom (heap st))
       ∧ heap st1 !! copy = Some (JsObject props)
       ∧ (∀ k a, props !! k = Some (VRef a) → a ∉ dom (heap st))
       ∧ snapshots st1 = snapshots st
       ∧ (∀ l, l ∈ dom (heap st) → heap st1 !! l = heap st !! l)
       ∧ readPairs (heap st1) copy = internalPairs st x
       ∧ ∀ st2,
           snapshots st2 !! s = Some x →
           (∀ l, l ∈ dom (heap st) → heap st2 !! l = heap st !! l) →
           (internalPairs st2 x = internalPairs st x
            ∧ ∃ st3 copy',
                changedAttributes s st2 = (st3, Ok (VRef copy'))
                ∧ readPairs (heap st3) copy' = readPairs (heap st1) copy)).
Proof.
  intros Hs Hattributes Hchanged. split.
  - by apply (attributes_copies s st x).
  - by apply (changedAttributes_copies_again st x).
Qed.
End ChangedAttributes.

(** A snapshot of the post hands out its attributes and its changed
    attributes; each returned object is emptied before the next call. *)
Lemma snapshot_returns_fresh_copies_witness :
  (∃ st1 copy props,
     SnapshotClass.attributes 0 Example.snapped = (st1, Ok (VRef copy))
     ∧ heap st1 !! copy = Some (JsObject props)
     ∧ ∃ st3 copy',
         SnapshotClass.attributes 0 (set_heap (<[copy := JsObject ∅]> (heap st1)) st1)
         = (st3, Ok (VRef copy'))
         ∧ heap st3 !! copy' = Some (JsObject props))
  ∧ (∃ st1 copy,
       SnapshotClass.changedAttributes 0 Example.snapped = (st1, Ok (VRef copy))
       ∧ readPairs (heap st1) copy = internalPairs Example.snapped Example.postSnapshot
       ∧ ∃ st3 copy',
           SnapshotClass.changedAttributes 0
             (set_heap (<[copy := JsObject ∅]> (heap st1)) st1)
           = (st3, Ok (VRef copy'))
           ∧ readPairs (heap st3) copy' = readPairs (heap st1) copy).
Proof.
  destruct (snapshot_returns_fresh_copies 0 Example.snapped Example.postSnapshot)
    as [Hattributes Hchanged].
  - vm_compute. reflexivity.
  - intros internal [= <-]. eexists. vm_compute. reflexivity.
  - exists {[ "title" := VRef 1 ]}. split; [vm_compute; reflexivity|].
    intros k v Hkv. apply lookup_singleton_Some in Hkv as [_ <-].
    eexists. vm_compute. reflexivity.
  - split.
    + destruct Hattributes as (st1 & copy & internal & props & x1 & Hrun & _ & _ & _
                               & Hcopy & _ & Hlater).
      exists st1, copy, props. split; [exact Hrun|]. split; [exact Hcopy|].
      destruct (Hlater (JsObject ∅)) as (_ & st3 & copy' & Hrun' & Hcopy' & _).
      exists st3, copy'. split; [exact Hrun'|exact Hcopy'].
    + destruct Hchanged as (st1 & copy & props & Hrun & Hfresh & _ & _ & Hsnap & Hframe
                            & Hpairs & Hlater).
      exists st1, copy. split; [exact Hrun|]. split; [exact Hpairs|].
      apply (Hlater (set_heap (<[copy := JsObject ∅]> (heap st1)) st1)).
      * simpl. rewrite Hsnap. vm_compute. reflexivity.
      * intros l Hl. simpl. rewrite lookup_insert_ne; [by apply Hframe|].
        intros <-. by apply Hfresh.
Defined.

(** ** Loading a resource that merges two identifiers *)

Section MergeOutcome.
Import InternalModelFactory.

Lemma mapGet_insert (t l l' : string) (r : nat) (st : Store) (m : gmap string nat) :
  mapGet t l' (set_identityMap (<[t := <[l := r]> m]> (_identityMap st)) st)
  = if decide (l = l') then Some r else m !! l'.
Proof.
  unfold mapGet, modelMapFor. simpl. rewrite lookup_insert_eq. simpl.
  by rewrite lookup_insert.
Qed.

Lemma mapGet_delete (t l l' : string) (st : Store) (m : gmap string nat) :
  mapGet t l' (set_identityMap (<[t := delete l m]> (_identityMap st)) st)
  = if decide (l = l') then None else m !! l'.
Proof.
  unfold mapGet, modelMapFor. simpl. rewrite lookup_insert_eq. simpl.
  by rewrite lookup_delete.
Qed.

(** What the merge callback leaves when it keeps the matched identifier
    and the entry of the other one is filed: exactly one of the two slots
    is filled, the one of the identifier kept. *)
Lemma merge_keeps_matched
    (current matched kept : StableRecordIdentifier) (data : ResourceData)
    (st st' : Store) (m : nat) :
  configuredMerge current matched data st = (st', Ok kept) →
  ident_lid kept ≠ ident_lid current →
  mapGet (ident_type current) (ident_lid current) st = Some m →
  kept = matched
  ∧ identifierCache st' = identifierCache st
  ∧ dom (internalModels st') = dom (internalModels st)
  ∧ mapGet (ident_type current) (ident_lid current) st' = None
  ∧ ∃ survivor,
      mapGet (ident_type current) (ident_lid matched) st' = Some survivor
      ∧ (survivor = m
         ∨ mapGet (ident_type current) (ident_lid matched) st = Some survivor).
Proof.
  intros Hrun Hkept Hm.
  assert (intendedIdentifier current matched data = matched
          ∧ altIdentifier current matched data = current
          ∧ kept = matched) as (Hint & Halt & ->).
  { assert (kept = intendedIdentifier current matched data) as ->.
    { revert Hrun. unfold configuredMerge. intros H. minv H.
      repeat case_match; minv H; done. }
    destruct (intended_is_one_of_the_two current matched data) as [E|E].
    - by rewrite E in Hkept.
    - split; [done|]. split; [|done]. unfold altIdentifier. rewrite E.
      rewrite bool_decide_eq_false_2; [done|]. intros <-. by rewrite E in Hkept. }
  split; [done|].
  assert (Hne : ident_lid current ≠ ident_lid matched) by done.
  revert Hrun. unfold configuredMerge. rewrite Hint, Halt.
  unfold InternalModels.update, InternalModels.hasRecord, InternalModels.field, mapRemove,
    mapAdd.
  mrun.
  rewrite Hm.
  destruct (mapGet (ident_type current) (ident_lid matched) st) as [a|] eqn:Ea; simpl.
  - destruct (from_option im_hasRecord false (internalModels st !! a)) eqn:Ra,
             (from_option im_hasRecord false (internalModels st !! m)) eqn:Rm; simpl.
    + destruct (bool_decide (is_Some (res_id data))); done.
    + repeat case_bool_decide; try done; simpl; rewrite ?Ra, ?Rm; simpl.
      intros [= <-]. simpl. split; [done|]. split; [done|].
      unfold mapGet, modelMapFor in *. simpl. rewrite lookup_insert_eq. simpl.
      rewrite lookup_delete_eq. split; [done|]. exists a.
      rewrite lookup_delete_ne by done. eauto.
    + repeat case_bool_decide; try done; simpl; rewrite ?Ra, ?Rm; simpl.
      intros [= <-]. simpl. split; [done|]. split; [apply dom_alter_L|].
      unfold mapGet, modelMapFor in *. simpl. rewrite !lookup_insert_eq. simpl.
      rewrite lookup_insert_ne by done. rewrite lookup_delete_ne by done.
      rewrite lookup_delete_eq. split; [done|]. exists m.
      rewrite lookup_insert_eq. eauto.
    + repeat case_bool_decide; try done; simpl; rewrite ?Ra, ?Rm; simpl.
      intros [= <-]. simpl. split; [done|]. split; [done|].
      unfold mapGet, modelMapFor in *. simpl. rewrite lookup_insert_eq. simpl.
      rewrite lookup_delete_eq. split; [done|]. exists a.
      rewrite lookup_delete_ne by done. eauto.
  - repeat case_bool_decide; try done; simpl; rewrite ?Ra, ?Rm; simpl.
    intros [= <-]. simpl. split; [done|]. split; [apply dom_alter_L|].
    unfold mapGet, modelMapFor in *. simpl. rewrite !lookup_insert_eq. simpl.
    rewrite lookup_insert_ne by done. rewrite lookup_delete_eq. split; [done|].
    exists m. rewrite lookup_insert_eq. eauto.
Qed.

Lemma identifierOf_lid (c : IdentifierCache) (l : string) :
  ident_lid (Identifiers.identifierOf c l) = l.
Proof. unfold Identifiers.identifierOf. by destruct (_ !! l) as [[??]|]. Qed.

(** What [updateRecordIdentifier] leaves when it returns another
    identifier than the one it was given. *)
Lemma update_merge_outcome (i u : string) (data : ResourceData) (s1 s2 : Store) (m : nat) :
  let T := ident_type (Identifiers.identifierOf (identifierCache s1) i) in
  IdentifierMerge.updateRecordIdentifier i data s1 = (s2, Ok u) →
  u ≠ i →
  mapGet T i s1 = Some m →
  u ∈ cache_lids (identifierCache s2)
  ∧ cache_identifiers (identifierCache s2) = cache_identifiers (identifierCache s1)
  ∧ dom (internalModels s2) = dom (internalModels s1)
  ∧ mapGet T i s2 = None
  ∧ ∃ survivor,
      mapGet T u s2 = Some survivor
      ∧ (survivor = m ∨ mapGet T u s1 = Some survivor).
Proof.
  intros T Hrun Hne Hm. revert Hrun.
  unfold IdentifierMerge.updateRecordIdentifier. intros H. minv H.
  destruct (_ ≫= _) as [other|] eqn:Eother.
  2:{ minv H. done. }
  minv H. rename a into kept.
  assert (Hother : other ∈ cache_lids (identifierCache s1)).
  { destruct (match coerceId (read_id data) with Some i0 => _ | None => _ end)
      as [newId|]; [simpl in Eother|done].
    unfold IdentifierMerge.existingIdentifier in Eother.
    apply find_some in Eother as [Hin _]. by apply list_elem_of_In. }
  destruct (merge_keeps_matched _ _ _ _ _ _ m H0)
    as (-> & Hcache & Hdom & Hgone & survivor & Hsurv & Hwhich).
  { by rewrite identifierOf_lid. }
  { by rewrite identifierOf_lid. }
  rewrite !identifierOf_lid in *.
  rewrite bool_decide_eq_false_2 by done. simpl. rewrite Hcache.
  split.
  { apply list_elem_of_filter. done. }
  split; [done|]. split; [done|]. split; [done|]. eauto.
Qed.

End MergeOutcome.


(** ** Deleted records in the relationships of a snapshot *)

Global Instance arrayGrows_preorder l : PreOrder (arrayGrows l).
Proof.
  split.
  - intros st items H. exists []. by rewrite app_nil_r.
  - intros a b c Hab Hbc items H.
    destruct (Hab items H) as [more1 H1]. destruct (Hbc _ H1) as [more2 H2].
    exists (more1 ++ more2)%list. by rewrite app_assoc.
Qed.
Global Instance arrayGrows_cache l : IgnoresIdentifierCache (arrayGrows l).
Proof. intros st c items H. exists []. by rewrite app_nil_r. Qed.
Global Instance arrayGrows_map l : IgnoresIdentityMap (arrayGrows l).
Proof. intros st c items H. exists []. by rewrite app_nil_r. Qed.
Global Instance arrayGrows_models l : IgnoresInternalModels (arrayGrows l).
Proof. intros st c items H. exists []. by rewrite app_nil_r. Qed.
Global Instance arrayGrows_snapshots l : IgnoresSnapshots (arrayGrows l).
Proof. intros st c items H. exists []. by rewrite app_nil_r. Qed.

Section ArrayGrows.
Import SnapshotClass.
Variable l : nat.

Lemma arrayGrows_alloc cell : preserves (arrayGrows l) (alloc cell).
Proof.
  intros st items H. exists []. simpl. rewrite app_nil_r.
  rewrite lookup_insert_ne; [done|].
  intros E. apply (is_fresh (dom (heap st))). rewrite E. apply elem_of_dom. eauto.
Qed.

Lemma arrayGrows_objectSet l' k v : preserves (arrayGrows l) (objectSet l' k v).
Proof.
  intros st items H. exists []. simpl. rewrite app_nil_r, lookup_alter.
  case_decide; [subst|done]. by rewrite H.
Qed.

Lemma arrayGrows_arrayPush l' v : preserves (arrayGrows l) (arrayPush l' v).
Proof.
  intros st items H. simpl. rewrite lookup_alter.
  case_decide; [subst|].
  - exists [v]. by rewrite H.
  - exists []. by rewrite app_nil_r.
Qed.
Hint Resolve arrayGrows_alloc arrayGrows_objectSet arrayGrows_arrayPush : preserves.

Lemma arrayGrows_recordDataChangedAttributes i :
  preserves (arrayGrows l) (recordDataChangedAttributes i).
Proof. unfold recordDataChangedAttributes. preserves_tac. Qed.
Hint Resolve arrayGrows_recordDataChangedAttributes : preserves.

Lemma arrayGrows__attributes s : preserves (arrayGrows l) (_attributes s).
Proof. unfold _attributes. preserves_tac. Qed.
Hint Resolve arrayGrows__attributes : preserves.

Lemma arrayGrows_createSnapshot i : preserves (arrayGrows l) (createSnapshot i).
Proof.
  unfold createSnapshot, new. preserves_tac. intros st items H. exists []. by rewrite app_nil_r.
Qed.
Hint Resolve arrayGrows_createSnapshot : preserves.

Lemma arrayGrows_hasManyMember mode results member :
  preserves (arrayGrows l) (hasManyMember mode results member).
Proof. unfold hasManyMember. preserves_tac. Qed.
End ArrayGrows.

Section Deleted.
Import SnapshotClass.
Variables (s : nat) (keyName : string) (mode : bool).

Lemma belongsTo_of_deleted_is_null
    (st : Store) (x : Snapshot) (value : JsonApiRelationship)
    (related : ResourceData) (identifier : string) (im : nat) :
  snapshots st !! s = Some x →
  belongsToMemo mode x !! keyName = None →
  relationshipMeta (snap_modelName x) keyName st = Some belongsToKind →
  edgeOf keyName x st = Some value →
  rel_kind value = belongsToKind →
  rel_data value = DataOne related →
  Identifiers.peekRecordIdentifier (identifierCache st) related = Some identifier →
  InternalModelFactory.peek identifier st = Some im →
  InternalModels.isDeleted im st = true →
  ∃ st', belongsTo s keyName mode st = (st', Ok VNull).
Proof.
  intros Hs Hmemo Hmeta Hedge Hkind Hdata Hrelated Hpeek Hdeleted.
  unfold belongsTo, this. unfold bind at 1. rewrite Hs.
  assert ((if mode then snap__belongsToIds x !! keyName else None) = None) as ->.
  { destruct mode; [exact Hmemo|done]. }
  assert ((if negb mode then snap__belongsToRelationships x !! keyName else None) = None)
    as ->.
  { destruct mode; [done|exact Hmemo]. }
  unfold bind at 1, gets at 1. rewrite Hmeta.
  unfold bind at 1, assert at 1. rewrite bool_decide_eq_true_2 by done. unfold ret at 1.
  unfold bind at 1, gets at 1. unfold bind at 1, gets at 1.
  unfold edgeOf in Hedge. rewrite Hedge.
  unfold bind at 1, assert at 1. rewrite bool_decide_eq_true_2 by done. unfold ret at 1.
  rewrite Hdata. simpl CoreStore.asOne. cbv iota beta.
  unfold bind at 1. unfold bind at 1.
  unfold CoreStore._internalModelForResource, InternalModelFactory.getByResource.
  rewrite (lookup_existing st _ identifier im);
    [|by rewrite peekRecordIdentifier_constructResource|done].
  unfold ret at 1. unfold bind at 1. unfold bind at 1, gets at 1.
  unfold InternalModels.isDeleted in *. rewrite cancelled_field by done.
  rewrite Hdeleted. simpl negb. cbv iota. unfold ret at 1.
  destruct mode; unfold bind, assign, modify, ret; eauto.
Qed.

Lemma hasMany_skips_deleted
    (st st' : Store) (x : Snapshot) (value : JsonApiRelationship)
    (pre post : list ResourceData) (member : ResourceData) (v : JsValue) :
  snapshots st !! s = Some x →
  hasManyMemo mode x !! keyName = None →
  edgeOf keyName x st = Some value →
  rel_data value = DataMany (pre ++ member :: post) →
  hasMany s keyName mode st = (st', Ok v) →
  ∃ results σ us before,
    v = VRef results
    ∧ (results ∉ dom (heap st))
    ∧ forEach (hasManyMember mode results) pre (alloc (JsArray []) st).1 = (σ, Ok us)
    ∧ heap σ !! results = Some (JsArray before)
    ∧ ∀ σ1 im,
        CoreStore._internalModelForResource member σ = (σ1, Ok im) →
        InternalModels.isDeleted im σ1 = true →
        ∃ after σm σe us',
          hasManyMember mode results member σ = (σm, Ok tt)
          ∧ heap σm = heap σ
          ∧ forEach (hasManyMember mode results) post σm = (σe, Ok us')
          ∧ heap st' !! results = Some (JsArray (before ++ after)%list)
          ∧ heap σe !! results = Some (JsArray (before ++ after)%list).
Proof.
  intros Hs Hmemo Hedge Hdata. unfold hasMany, this. unfold bind at 1. rewrite Hs.
  assert ((if mode then snap__hasManyIds x !! keyName else None) = None) as ->.
  { destruct mode; [exact Hmemo|done]. }
  assert ((if negb mode then snap__hasManyRelationships x !! keyName else None) = None)
    as ->.
  { destruct mode; [done|exact Hmemo]. }
  intros H. minv H. unfold edgeOf in Hedge. rewrite Hedge in H. minv H.
  rewrite Hdata in H2. minv H2.
  set (results := fresh (dom (heap st))) in *.
  set (σ0 := set_heap (<[results := JsArray []]> (heap st)) st) in *.
  match goal with
  | Hrun : forEach _ _ σ0 = (?σ, Ok _) |- _ =>
      rename Hrun into Hloop; rename σ into σe
  end.
  match goal with
  | Hrun : (if mode then _ else _) σe = (?σ', Ok _) |- _ =>
      rename Hrun into Hassign; rename σ' into st'
  end.
  apply forEach_app_Ok in Hloop as (σ & us & us2 & Hpre & Hrest).
  simpl in Hrest. apply bind_Ok in Hrest as (σm & [] & Hm & Hrest).
  apply bind_Ok in Hrest as (σe' & us' & Hpost & Hrest).
  apply ret_Ok in Hrest as [<- _].
  assert (heap σ0 !! results = Some (JsArray [])) as Harr0.
  { subst σ0. simpl. by rewrite lookup_insert_eq. }
  destruct (preserves_run (arrayGrows results) _ _ _ _
              (preserves_forEach _ _ _ (arrayGrows_hasManyMember results mode results))
              Hpre [] Harr0) as [before Hbefore].
  simpl in Hbefore.
  assert (heap st' = heap σe) as Hst'.
  { destruct mode; unfold assign, modify in Hassign; by injection Hassign as <-. }
  exists results, σ, us, before.
  split; [done|]. split; [apply is_fresh|].
  split; [done|]. split; [done|].
  intros σ1 im Hlookup Hdeleted.
  assert (σm = σ1) as ->.
  { revert Hm. unfold hasManyMember. unfold bind at 1. rewrite Hlookup.
    unfold bind, gets. rewrite Hdeleted. simpl. by intros [= <-]. }
  assert (heap σ1 = heap σ) as Hheap.
  { eapply (preserves_run objectsUntouched) in Hlookup;
      [by destruct Hlookup|apply preserves__internalModelForResource; apply _]. }
  destruct (preserves_run (arrayGrows results) _ _ _ _
              (preserves_forEach _ _ _ (arrayGrows_hasManyMember results mode results))
              Hpost before) as [after Hafter].
  { by rewrite Hheap. }
  exists after, σ1, σe, us'. rewrite Hst'. done.
Qed.

(** C9, amended: when a snapshot has nothing memoized for a relationship
    and a mode, [belongsTo] returns [null] if the entry of the related
    record is deleted; and [hasMany], where it returns, returns a new
    array to which the visit of a member whose entry is deleted adds
    nothing: the array holds what the members before it and the members
    after it put there. *)
Theorem first_read_skips_deleted
    (st : Store) (x : Snapshot) (value : JsonApiRelationship) :
  snapshots st !! s = Some x →
  edgeOf keyName x st = Some value →
  (∀ (related : ResourceData) (identifier : string) (im : nat),
      belongsToMemo mode x !! keyName = None →
      relationshipMeta (snap_modelName x) keyName st = Some belongsToKind →
      rel_kind value = belongsToKind →
      rel_data value = DataOne related →
      Identifiers.peekRecordIdentifier (identifierCache st) related = Some identifier →
      InternalModelFactory.peek identifier st = Some im →
      InternalModels.isDeleted im st = true →
      ∃ st', belongsTo s keyName mode st = (st', Ok VNull))
  ∧ (∀ (pre post : list ResourceData) (member : ResourceData) (st' : Store) (v : JsValue),
       hasManyMemo mode x !! keyName = None →
       rel_data value = DataMany (pre ++ member :: post) →
       hasMany s keyName mode st = (st', Ok v) →
       ∃ results σ us before,
         v = VRef results
         ∧ (results ∉ dom (heap st))
         ∧ forEach (hasManyMember mode results) pre (alloc (JsArray []) st).1 = (σ, Ok us)
         ∧ heap σ !! results = Some (JsArray before)
         ∧ ∀ σ1 im,
             CoreStore._internalModelForResource member σ = (σ1, Ok im) →
             InternalModels.isDeleted im σ1 = true →
             ∃ after σm σe us',
               hasManyMember mode results member σ = (σm, Ok tt)
               ∧ heap σm = heap σ
               ∧ forEach (hasManyMember mode results) post σm = (σe, Ok us')
               ∧ heap st' !! results = Some (JsArray (before ++ after)%list)
               ∧ heap σe !! results = Some (JsArray (before ++ after)%list)).
Proof.
  intros Hs Hedge. split.
  - intros related identifier im Hmemo Hmeta Hkind Hdata Hrelated Hpeek Hdeleted.
    by apply (belongsTo_of_deleted_is_null st x value related identifier im).
  - intros pre post member st' v Hmemo Hdata Hrun.
    by apply (hasMany_skips_deleted st st' x value pre post member v).
Qed.
End Deleted.

(** A snapshot of the post is taken after its author and its first comment
    were deleted. *)
Lemma first_read_skips_deleted_witness :
  (∃ st', SnapshotClass.belongsTo 2 "author" false Example.snappedAgain = (st', Ok VNull))
  ∧ (∃ results σ σm σe us after,
       result (SnapshotClass.hasMany 2 "comments" true) Example.snappedAgain
       = Ok (VRef results)
       ∧ heap σ !! results = Some (JsArray [])
       ∧ SnapshotClass.hasManyMember true results Example.comment3 σ = (σm, Ok tt)
       ∧ heap σm = heap σ
       ∧ forEach (SnapshotClass.hasManyMember true results) [Example.comment4] σm
         = (σe, Ok us)
       ∧ heap (run (SnapshotClass.hasMany 2 "comments" true) Example.snappedAgain)
         !! results = Some (JsArray after)).
Proof.
  split.
  - destruct (first_read_skips_deleted 2 "author" false Example.snappedAgain
                Example.postSnapshotAgain
                (mkRelationship belongsToKind (DataOne Example.user7) None Example.received))
      as [HbelongsTo _]; [vm_compute; reflexivity..|].
    apply (HbelongsTo Example.user7 "0" 0); vm_compute; reflexivity.
  - destruct (first_read_skips_deleted 2 "comments" true Example.snappedAgain
                Example.postSnapshotAgain
                (mkRelationship hasManyKind
                   (DataMany [Example.comment3; Example.comment4]) None Example.received))
      as [_ HhasMany]; [vm_compute; reflexivity..|].
    destruct (HhasMany [] [Example.comment4] Example.comment3
                (run (SnapshotClass.hasMany 2 "comments" true) Example.snappedAgain)
                (VRef 6))
      as (results & σ & us & before & Hv & _ & Hpre & Hbefore & Hmember);
      [vm_compute; reflexivity..|].
    injection Hv as <-. pose proof (ret_Ok _ _ _ _ Hpre) as [-> _].
    assert (before = []) as -> by (vm_compute in Hbefore; congruence).
    destruct (Hmember
                (run (CoreStore._internalModelForResource Example.comment3)
                   (SnapshotClass.alloc (JsArray []) Example.snappedAgain).1) 1)
      as (after & σm & σe & us' & Hvisit & Hheap & Hpost & Hfinal & _);
      [vm_compute; reflexivity..|].
    exists 6, (SnapshotClass.alloc (JsArray []) Example.snappedAgain).1, σm, σe, us', after.
    split; [vm_compute; reflexivity|]. split; [exact Hbefore|].
    split; [exact Hvisit|]. split; [exact Hheap|]. split; [exact Hpost|exact Hfinal].
Defined.

(** C9, as stated, fails: the author of the post and the ids of its
    comments were read from a snapshot before the author and the first
    comment were deleted; the snapshot still returns the author and the id
    of the deleted comment. *)
Lemma memoized_relationship_counterexample :
  (InternalModelFactory.peek "0" Example.authorDeleted = Some 0
   ∧ InternalModels.isDeleted 0 Example.authorDeleted = true
   ∧ result (SnapshotClass.belongsTo 0 "author" false) Example.authorDeleted
     = Ok (VSnapshot 1)
   ∧ (snap_identifier <$> snapshots Example.authorDeleted !! 1) = Some "0")
  ∧ (InternalModelFactory.peek "1" Example.commentsReadThenDeleted = Some 1
     ∧ InternalModels.isDeleted 1 Example.commentsReadThenDeleted = true
     ∧ InternalModels.id 1 Example.commentsReadThenDeleted = Some "3"
     ∧ result (SnapshotClass.hasMany 0 "comments" true) Example.commentsReadThenDeleted
       = Ok (VRef 3)
     ∧ heap (run (SnapshotClass.hasMany 0 "comments" true) Example.commentsReadThenDeleted)
       !! 3 = Some (JsArray [VString "3"; VString "4"])).
Proof. vm_compute. repeat split; reflexivity. Qed.

(** ** Lookups create an entry once *)

Lemma ensureStringId_string (i : string) : i ≠ "" → ensureStringId (IdString i) = Some i.
Proof. intros Hi. simpl. by rewrite bool_decide_eq_false_2. Qed.

Lemma find_app_last {A} (f : A → bool) (xs : list A) (a : A) :
  (∀ x, x ∈ xs → f x = true → x = a) → f a = true → find f (xs ++ [a]) = Some a.
Proof.
  intros Hxs Ha. induction xs as [|x xs IH]; simpl.
  - by rewrite Ha.
  - destruct (f x) eqn:Ex.
    + f_equal. apply Hxs; [left|done].
    + apply IH. intros y Hy. apply Hxs. by right.
Qed.

Lemma find_none_elem {A} (f : A → bool) (xs : list A) (x : A) :
  find f xs = None → x ∈ xs → f x = false.
Proof.
  intros Hnone Hx. apply list_elem_of_In in Hx.
  exact (find_none f xs Hnone x Hx).
Qed.

Section GetOrCreate.
Import Identifiers.

Lemma findByTypeAndId_register (c : IdentifierCache) (l t i : string) :
  findByTypeAndId c t i = None →
  findByTypeAndId (register l t (Some i) c) t i = Some l.
Proof.
  intros Hnone. unfold findByTypeAndId, register. simpl.
  apply find_app_last.
  - intros x Hx Hfields. apply bool_decide_eq_true in Hfields.
    destruct (decide (x = l)) as [->|Hne]; [done|].
    rewrite lookup_insert_ne in Hfields by done.
    apply (find_none_elem _ _ x) in Hnone; [|done].
    simpl in Hnone. by apply bool_decide_eq_false in Hnone.
  - apply bool_decide_eq_true. by rewrite lookup_insert_eq.
Qed.

Lemma getOrCreate_then_peek (r : ResourceData) (st st0 : Store) (l : string) :
  findable r →
  getOrCreateRecordIdentifier r st = (st0, Ok l) →
  peekRecordIdentifier (identifierCache st0) r = Some l.
Proof.
  intros Hkey. unfold getOrCreateRecordIdentifier.
  destruct (peekRecordIdentifier (identifierCache st) r) as [l0|] eqn:Epeek.
  { by intros [= <- <-]. }
  destruct (res_type r) as [t|] eqn:Et; [|done].
  intros [= <- <-]. simpl.
  unfold peekRecordIdentifier in *. rewrite Et in *.
  destruct (res_lid r) as [l0|] eqn:El; simpl.
  - rewrite bool_decide_eq_true_2; [done|]. unfold register. simpl.
    apply elem_of_app. right. by apply list_elem_of_singleton.
  - unfold findable in Hkey. rewrite El in Hkey.
    destruct Hkey as [[x Hx]|[i Hi]]; [done|]. rewrite Hi in Epeek |- *.
    unfold normalizeModelName in *. by apply findByTypeAndId_register.
Qed.
End GetOrCreate.

Section LookupTwice.
Import InternalModelFactory.

Lemma build_for_identifier (l : string) (st : Store) :
  _build (ForIdentifier l) false st = (built l st, Ok (fresh (dom (internalModels st)))).
Proof.
  unfold _build, built, InternalModels.create, mapAdd. mrun.
  destruct (ident_id _) eqn:E; simpl; rewrite ?E, identifierOf_lid; reflexivity.
Qed.

Lemma built_peek (l : string) (st : Store) :
  peek l (built l st) = Some (fresh (dom (internalModels st))).
Proof.
  unfold peek, built, mapGet, modelMapFor. simpl.
  rewrite lookup_insert_eq. simpl. by rewrite lookup_insert_eq.
Qed.

Lemma built_not_scheduled (l : string) (st : Store) :
  InternalModels.hasScheduledDestroy (fresh (dom (internalModels st))) (built l st) = false.
Proof.
  unfold InternalModels.hasScheduledDestroy, InternalModels.field, built. simpl.
  by rewrite lookup_insert_eq.
Qed.

(** What [lookup] does once the resource resolves to the identifier [l]. *)
Lemma lookup_resolved (st : Store) (r : ResourceData) (l : string) :
  Identifiers.peekRecordIdentifier (identifierCache st) r = Some l →
  lookup r None st =
  match peek l st with
  | Some im => (cancelled im st, Ok im)
  | None => (built l st, Ok (fresh (dom (internalModels st))))
  end.
Proof.
  intros Hr. destruct (peek l st) as [im|] eqn:Epeek.
  - by apply (lookup_existing _ _ l).
  - unfold lookup, Identifiers.getOrCreateRecordIdentifier.
    unfold bind at 1. unfold ret at 1. unfold bind at 1. rewrite Hr.
    unfold bind at 1, gets at 1. rewrite Epeek. apply build_for_identifier.
Qed.

Lemma lookup_resolved_twice (st st1 : Store) (r : ResourceData) (l : string) (im : nat) :
  Identifiers.peekRecordIdentifier (identifierCache st) r = Some l →
  lookup r None st = (st1, Ok im) →
  lookup r None st1 = (st1, Ok im).
Proof.
  intros Hr. rewrite (lookup_resolved st r l Hr).
  destruct (peek l st) as [im0|] eqn:Epeek; intros [= <- <-].
  - rewrite (lookup_resolved _ r l) by by rewrite cancelled_identifierCache.
    by rewrite cancelled_peek, Epeek, cancelled_idem.
  - rewrite (lookup_resolved _ r l) by done.
    rewrite built_peek. unfold cancelled. by rewrite built_not_scheduled.
Qed.

Lemma lookup_after_getOrCreate (st st0 : Store) (r : ResourceData) (l : string) :
  Identifiers.getOrCreateRecordIdentifier r st = (st0, Ok l) →
  Identifiers.peekRecordIdentifier (identifierCache st0) r = Some l →
  lookup r None st = lookup r None st0.
Proof.
  intros Hget Hpeek. unfold lookup.
  unfold bind at 1. unfold ret at 1. unfold bind at 1. rewrite Hget.
  symmetry. unfold bind at 1. unfold ret at 1. unfold bind at 1.
  unfold Identifiers.getOrCreateRecordIdentifier at 1. by rewrite Hpeek.
Qed.

(** X1: a second [lookup] of a resource that has a [lid] or an id returns
    the entry the first one returned and changes nothing. *)
Theorem lookup_twice (st st1 : Store) (r : ResourceData) (im : nat) :
  findable r →
  lookup r None st = (st1, Ok im) →
  lookup r None st1 = (st1, Ok im).
Proof.
  intros Hkey Hrun.
  destruct (Identifiers.getOrCreateRecordIdentifier r st) as [st0 [l|e]] eqn:Hget.
  - assert (Hl := getOrCreate_then_peek r st st0 l Hkey Hget).
    rewrite (lookup_after_getOrCreate st st0 r l Hget Hl) in Hrun.
    by apply (lookup_resolved_twice st0 st1 r l).
  - revert Hrun. unfold lookup. unfold bind at 1. unfold ret at 1. unfold bind at 1.
    by rewrite Hget.
Qed.
End LookupTwice.

(** The entry of [x:1] is looked up a second time. *)
Lemma lookup_twice_witness :
  InternalModelFactory.lookup Example.x1 None Scenes.lookedUp = (Scenes.lookedUp, Ok 0).
Proof.
  apply (lookup_twice Example.store0 Scenes.lookedUp Example.x1 0).
  - right. vm_compute. by eexists.
  - vm_compute. reflexivity.
Defined.
(** ** Loading a resource that merges two identifiers *)

Section LoadMerge.
Import CoreStore.


End LoadMerge.



(** ** Loading a resource that is loaded already *)

Lemma set_identifierCache_same (st : Store) :
  set_identifierCache (identifierCache st) st = st.
Proof. by destruct st. Qed.


Section OnlyIdentifier.
Variables (type id l : string) (st : Store).
Hypothesis Honly : onlyIdentifierOf type id l st.


Lemma onlyIdentifierOf_on_file : l ∈ cache_lids (identifierCache st).
Proof.
  assert (l ∈ filter (λ l', cache_identifiers (identifierCache st) !! l'
                            = Some (type, Some id))
                (cache_lids (identifierCache st))) as Hin.
  { unfold onlyIdentifierOf in Honly. rewrite Honly. by apply list_elem_of_singleton. }
  by apply list_elem_of_filter in Hin as [_ ?].
Qed.


Lemma onlyIdentifierOf_find :
  Identifiers.findByTypeAndId (identifierCache st) type id = Some l.
Proof.
  unfold Identifiers.findByTypeAndId.
  rewrite (find_head_filter
             (λ l', cache_identifiers (identifierCache st) !! l' = Some (type, Some id))).
  unfold onlyIdentifierOf in Honly. by rewrite Honly.
Qed.


End OnlyIdentifier.

Section LoadAgain.
Import CoreStore.


End LoadAgain.


(** ** Loading a resource the store has not seen *)

Lemma filter_none {A} (P : A → Prop) `{∀ x, Decision (P x)} (l : list A) :
  (∀ x, x ∈ l → ¬ P x) → filter P l = [].
Proof.
  intros Hl. induction l as [|x l IH]; [done|].
  rewrite filter_cons_False; [|apply Hl; left].
  apply IH. intros y Hy. apply Hl. by right.
Qed.

Lemma peekRecordIdentifier_type_id (c : IdentifierCache) (t i : string) :
  i ≠ "" →
  Identifiers.peekRecordIdentifier c
    {| res_type := Some (normalizeModelName t);
       res_id := Some (id_property (if bool_decide (i = "") then None else Some i));
       res_lid := None;
       res_attributes := ∅ |}
  = Identifiers.findByTypeAndId c t i.
Proof.
  intros Hne. unfold Identifiers.peekRecordIdentifier. simpl.
  rewrite bool_decide_eq_false_2 by done. simpl.
  by rewrite bool_decide_eq_false_2.
Qed.

Section LoadNew.
Import CoreStore.

Lemma generateLid_fresh (c : IdentifierCache) :
  cache_identifiers c !! Identifiers.generateLid c = None.
Proof. unfold Identifiers.generateLid. apply not_elem_of_dom. apply is_fresh. Qed.

Lemma slotsHaveIdentifiers_fresh (st : Store) (T : string) :
  slotsHaveIdentifiers st →
  InternalModelFactory.mapGet T (Identifiers.generateLid (identifierCache st)) st = None.
Proof.
  intros Hslots. unfold InternalModelFactory.mapGet, InternalModelFactory.modelMapFor.
  destruct (_identityMap st !! T) as [slots|] eqn:ET; [simpl|done].
  destruct (slots !! _) as [im|] eqn:Eim; [|done].
  destruct (Hslots T slots ET _ im Eim) as [x Hx].
  by rewrite generateLid_fresh in Hx.
Qed.

(** What [_load] leaves for a resource of a known type whose id the
    store has not seen. *)
Lemma load_new_resource_outcome (st : Store) (data : ResourceData) (t i : string) :
  res_type data = Some t →
  read_id data = IdString i →
  i ≠ "" →
  res_lid data = None →
  doesTypeExist (Some t) st = true →
  Identifiers.findByTypeAndId (identifierCache st) t i = None →
  slotsHaveIdentifiers st →
  lidsHaveIdentifiers st →
  ∃ st' l im,
    _load data st = (st', Ok l)
    ∧ cache_identifiers (identifierCache st) !! l = None
    ∧ internalModels st !! im = None
    ∧ onlyIdentifierOf t i l st'
    ∧ InternalModelFactory.peek l st' = Some im
    ∧ InternalModels.identifier im st' = l
    ∧ InternalModels.isLoaded im st' = true
    ∧ InternalModels.isEmpty im st' = false
    ∧ InternalModels.isLoading im st' = false
    ∧ InternalModels.hasScheduledDestroy im st' = false
    ∧ InternalModels.hasRecord im st' = false
    ∧ InternalModels.data im st' = Some data
    ∧ recordArrayChanges st' = (recordArrayChanges st ++ [l])%list
    ∧ isDestroying st' || isDestroyed st' = isDestroying st || isDestroyed st
    ∧ slotsHaveIdentifiers st'
    ∧ lidsHaveIdentifiers st'.
Proof.
  intros Ht Hi Hne Hlid Hexists Hnone Hslots Hlids.
  set (c := identifierCache st) in *.
  set (l := Identifiers.generateLid c).
  set (im := fresh (dom (internalModels st))).
  assert (Hfresh : cache_identifiers c !! l = None) by apply generateLid_fresh.
  assert (Hnew : internalModels st !! im = None).
  { apply not_elem_of_dom. apply is_fresh. }
  assert (Hcoerce : coerceId (IdString i) = Some i).
  { simpl. by rewrite bool_decide_eq_false_2. }
  set (st0 := set_identifierCache (Identifiers.register l t (Some i) c) st).
  assert (Hd : Identifiers.getOrCreateRecordIdentifier data st = (st0, Ok l)).
  { unfold Identifiers.getOrCreateRecordIdentifier, Identifiers.peekRecordIdentifier.
    fold c. rewrite Hlid, Ht, Hi, Hcoerce. unfold normalizeModelName. rewrite Hnone.
    done. }
  set (r := constructResource3 (normalizeModelName <$> Some t)
              (ensureStringId (IdString i)) (coerceLid None)).
  assert (Hr0 : Identifiers.peekRecordIdentifier c r = None).
  { subst r. rewrite (ensureStringId_string i) by done.
    unfold Identifiers.peekRecordIdentifier. simpl.
    by rewrite bool_decide_eq_false_2. }
  assert (Hr : Identifiers.peekRecordIdentifier (identifierCache st0) r = Some l).
  { subst r. rewrite (ensureStringId_string i) by done.
    unfold Identifiers.peekRecordIdentifier. simpl.
    rewrite bool_decide_eq_false_2 by done. unfold normalizeModelName.
    by apply findByTypeAndId_register. }
  assert (Hof : Identifiers.identifierOf (identifierCache st0) l = mkIdentifier t (Some i) l).
  { unfold Identifiers.identifierOf. simpl. by rewrite lookup_insert_eq. }
  assert (Hpeek0 : InternalModelFactory.peek l st0 = None).
  { unfold InternalModelFactory.peek. rewrite Hof. simpl.
    apply (slotsHaveIdentifiers_fresh st t Hslots). }
  assert (Hlookup : InternalModelFactory.lookup r (Some data) st = (built l st0, Ok im)).
  { transitivity (InternalModelFactory.lookup r None st0).
    - unfold InternalModelFactory.lookup. unfold bind at 1. unfold bind at 1.
      rewrite Hd. unfold ret at 1. reflexivity.
    - rewrite (lookup_resolved st0 r l Hr), Hpeek0. reflexivity. }
  unfold _load. cbv zeta. rewrite Ht, Hi, Hlid. fold r.
  unfold bind at 1, assert at 1.
  rewrite !bool_decide_eq_true_2 by congruence. cbn [andb]. unfold ret at 1.
  unfold bind at 1, gets at 1. rewrite Hexists.
  unfold bind at 1, assert at 1, ret at 1.
  unfold bind at 1, gets at 1. fold c. rewrite Hr0.
  unfold bind at 1. rewrite Hlookup.
  assert (Him : internalModels (built l st0) !! im
                = Some (mkInternalModel l t (Some i) root_empty false false false false None)).
  { unfold built. rewrite Hof. simpl. by rewrite lookup_insert_eq. }
  assert (Hloading : InternalModels.isLoading im (built l st0) = false).
  { unfold InternalModels.isLoading, InternalModels.field. by rewrite Him. }
  assert (Hloaded : InternalModels.isLoaded im (built l st0) = false).
  { unfold InternalModels.isLoaded, InternalModels.field. by rewrite Him. }
  assert (Hempty : InternalModels.isEmpty im (built l st0) = true).
  { unfold InternalModels.isEmpty, InternalModels.field. by rewrite Him. }
  assert (Hident : InternalModels.identifier im (built l st0) = l).
  { unfold InternalModels.identifier, InternalModels.field. by rewrite Him. }
  unfold bind at 1, gets at 1. rewrite Hloading, Hloaded.
  rewrite (bool_decide_eq_false_2 (is_Some None)) by (by intros [??]).
  cbn [negb andb orb].
  unfold bind at 1, gets at 1. rewrite Hempty.
  rewrite (bool_decide_eq_false_2 (true = false)) by done.
  cbn [negb andb orb].
  unfold bind at 1, gets at 1. rewrite Hident.
  unfold bind at 1. unfold ret at 1.
  unfold InternalModels.setupData, InternalModels.update, recordDidChange, when, modify,
    bind, ret.
  eexists _, l, im. split; [reflexivity|].
  split; [done|]. split; [done|].
  match goal with |- context [InternalModelFactory.peek l ?s] => set (final := s) end.
  assert (Hfc : identifierCache final = Identifiers.register l t (Some i) c) by done.
  assert (Hfm : _identityMap final
                = <[t := <[l := im]> (InternalModelFactory.modelMapFor t st)]>
                    (_identityMap st)).
  { subst final. unfold built. rewrite Hof. reflexivity. }
  assert (Hfi : internalModels final !! im
                = Some (mkInternalModel l t (Some i) loaded_saved true false false false
                          (Some data))).
  { subst final. unfold built. rewrite Hof. simpl.
    by rewrite lookup_alter_eq, lookup_insert_eq. }
  assert (Hfr : recordArrayChanges final = (recordArrayChanges st ++ [l])%list) by done.
  assert (Hfd : isDestroying final || isDestroyed final
                = isDestroying st || isDestroyed st) by done.
  clearbody final.
  unfold onlyIdentifierOf, InternalModelFactory.peek, InternalModelFactory.mapGet,
    InternalModelFactory.modelMapFor, InternalModels.identifier, InternalModels.isLoaded,
    InternalModels.isEmpty, InternalModels.isLoading, InternalModels.hasScheduledDestroy,
    InternalModels.hasRecord, InternalModels.data,
    InternalModels.field, slotsHaveIdentifiers, lidsHaveIdentifiers.
  rewrite Hfc, Hfm, Hfi, Hfr, Hfd.
  assert (Hof' : Identifiers.identifierOf (Identifiers.register l t (Some i) c) l
                 = mkIdentifier t (Some i) l) by exact Hof.
  rewrite Hof'. simpl. rewrite !lookup_insert_eq. simpl. rewrite lookup_insert_eq.
  split.
  { rewrite filter_app, filter_none.
    - by rewrite filter_cons_True, filter_nil by by rewrite lookup_insert_eq.
    - intros l0 Hl0 Hfields.
      assert (l0 ≠ l) as Hne0.
      { intros ->. apply (proj1 (Forall_forall _ _) Hlids) in Hl0 as [x Hx].
        fold c in Hx. by rewrite Hfresh in Hx. }
      rewrite lookup_insert_ne in Hfields by done.
      apply (find_none_elem _ _ l0) in Hnone; [|done].
      simpl in Hnone. by apply bool_decide_eq_false in Hnone. }
  repeat (split; [done|]).
  split.
  - intros T slots HT l0 im0 Hl0.
    destruct (decide (T = t)) as [->|HneT].
    + rewrite lookup_insert_eq in HT. injection HT as <-.
      destruct (decide (l0 = l)) as [->|Hne0].
      * rewrite lookup_insert_eq. eauto.
      * rewrite lookup_insert_ne in Hl0 by done. rewrite lookup_insert_ne by done.
        unfold InternalModelFactory.modelMapFor in Hl0.
        destruct (_identityMap st !! t) as [slots|] eqn:Et; [|done].
        exact (Hslots t slots Et l0 im0 Hl0).
    + rewrite lookup_insert_ne in HT by done.
      destruct (decide (l0 = l)) as [->|Hne0].
      * rewrite lookup_insert_eq. eauto.
      * rewrite lookup_insert_ne by done. exact (Hslots T slots HT l0 im0 Hl0).
  - apply Forall_app. split.
    + eapply Forall_impl; [exact Hlids|]. intros l0 [x Hx]. simpl.
      destruct (decide (l0 = l)) as [->|Hne0].
      * rewrite lookup_insert_eq. eauto.
      * rewrite lookup_insert_ne by done. eauto.
    + apply Forall_singleton. rewrite lookup_insert_eq. eauto.
Qed.


(** X3: in a store where every slot of the identity map and every lid on
    file has an identifier, [_load] of a resource of a type of the schema
    that carries no [lid] and whose id, a non-empty string, no identifier
    on file has for that type, makes an identifier and an entry that did
    not exist, files the entry under that identifier as the only
    identifier of the type and id, loads it with the data and tells the
    record arrays once; afterwards every slot and every lid on file still
    has an identifier. *)
Theorem load_new_resource (st : Store) (data : ResourceData) (t i : string) :
  res_type data = Some t →
  read_id data = IdString i →
  i ≠ "" →
  res_lid data = None →
  doesTypeExist (Some t) st = true →
  Identifiers.findByTypeAndId (identifierCache st) t i = None →
  slotsHaveIdentifiers st →
  lidsHaveIdentifiers st →
  ∃ st' l im,
    _load data st = (st', Ok l)
    ∧ cache_identifiers (identifierCache st) !! l = None
    ∧ internalModels st !! im = None
    ∧ onlyIdentifierOf t i l st'
    ∧ InternalModelFactory.peek l st' = Some im
    ∧ InternalModels.isLoaded im st' = true
    ∧ InternalModels.data im st' = Some data
    ∧ recordArrayChanges st' = (recordArrayChanges st ++ [l])%list
    ∧ slotsHaveIdentifiers st'
    ∧ lidsHaveIdentifiers st'.
Proof.
  intros Ht Hi Hne Hlid Hexists Hnone Hslots Hlids.
  destruct (load_new_resource_outcome st data t i) as (st' & l & im & H); try done.
  exists st', l, im. intuition.
Qed.

(** What [peekRecord] and [hasRecordForId] do with a model name and an id
    that is a non-empty string, on a store that is not destroyed. *)
Lemma peekRecord_named (st : Store) (modelName i : string) :
  isDestroying st || isDestroyed st = false →
  modelName ≠ "" →
  i ≠ "" →
  StoreReads.peekRecord (inr modelName) (Some (IdString i)) st
  = StoreReads.peekLoadedRecord (mkResource (Some modelName) (Some (IdString i)) None ∅) st.
Proof.
  intros Halive Hname Hi.
  unfold StoreReads.peekRecord, assertDestroyingStore.
  unfold bind at 1. unfold bind at 1. unfold gets at 1. rewrite Halive.
  unfold assert at 1, negb, ret at 1.
  unfold bind at 1, assert at 1. rewrite (bool_decide_eq_false_2 (modelName = "")) by done.
  unfold negb, ret at 1.
  change (default IdUndefined (Some (IdString i))) with (IdString i).
  by rewrite (ensureStringId_string i) by done.
Qed.

Lemma hasRecordForId_named (st : Store) (modelName i : string) :
  isDestroying st || isDestroyed st = false →
  modelName ≠ "" →
  i ≠ "" →
  StoreReads.hasRecordForId modelName (IdString i) st
  = (st, Ok (from_option (λ im, InternalModels.isLoaded im st) false
               (Identifiers.peekRecordIdentifier (identifierCache st)
                  (mkResource (Some modelName) (Some (IdString i)) None ∅)
                ≫= λ l, InternalModelFactory.peek l st))).
Proof.
  intros Halive Hname Hi.
  unfold StoreReads.hasRecordForId, assertDestroyingStore.
  unfold bind at 1. unfold bind at 1. unfold gets at 1. rewrite Halive.
  unfold assert at 1, negb, ret at 1.
  unfold bind at 1, assert at 1. rewrite (bool_decide_eq_false_2 (modelName = "")) by done.
  unfold negb, ret at 1.
  by rewrite (ensureStringId_string i) by done.
Qed.

Lemma peekRecordIdentifier_name_id (c : IdentifierCache) (t i : string) :
  i ≠ "" →
  Identifiers.peekRecordIdentifier c (mkResource (Some t) (Some (IdString i)) None ∅)
  = Identifiers.findByTypeAndId c t i.
Proof.
  intros Hi. unfold Identifiers.peekRecordIdentifier, read_id, normalizeModelName. simpl.
  by rewrite bool_decide_eq_false_2.
Qed.

(** X4: in a store that is not destroyed and where every slot of the
    identity map and every lid on file has an identifier, let a resource
    carry no [lid], a non-empty type of the schema and an id, a non-empty
    string, that no identifier on file has for that type.  Before [_load] of the
    resource, [hasRecordForId] answers false for the type and id; after
    it, [hasRecordForId] answers true, the entry has no record yet, and
    [peekRecord], called with the type and the id, returns the record of
    the identifier that [_load] returned, which is then materialized. *)
Theorem loaded_resource_is_found (st : Store) (data : ResourceData) (t i : string) :
  isDestroying st || isDestroyed st = false →
  t ≠ "" →
  res_type data = Some t →
  read_id data = IdString i →
  i ≠ "" →
  res_lid data = None →
  doesTypeExist (Some t) st = true →
  Identifiers.findByTypeAndId (identifierCache st) t i = None →
  slotsHaveIdentifiers st →
  lidsHaveIdentifiers st →
  StoreReads.hasRecordForId t (IdString i) st = (st, Ok false)
  ∧ ∃ st' l im,
      _load data st = (st', Ok l)
      ∧ StoreReads.hasRecordForId t (IdString i) st' = (st', Ok true)
      ∧ InternalModelFactory.peek l st' = Some im
      ∧ InternalModels.hasRecord im st' = false
      ∧ ∃ st'',
          StoreReads.peekRecord (inr t) (Some (IdString i)) st' = (st'', Ok (Some l))
          ∧ InternalModels.hasRecord im st'' = true.
Proof.
  intros Halive Hname Ht Hi Hne Hlid Hexists Hnone Hslots Hlids.
  split.
  { rewrite hasRecordForId_named by done.
    by rewrite peekRecordIdentifier_name_id, Hnone by done. }
  destruct (load_new_resource_outcome st data t i)
    as (st' & l & im & Hrun & _ & _ & Honly & Hpeek & Hident & Hloaded & _ & _ & Hsched
        & Hrecord & _ & _ & Halive' & _); try done.
  rewrite Halive in Halive'.
  assert (Hfind := onlyIdentifierOf_find _ _ _ _ Honly).
  exists st', l, im. split; [done|].
  split.
  { rewrite hasRecordForId_named by done.
    rewrite peekRecordIdentifier_name_id, Hfind by done. simpl. rewrite Hpeek. simpl.
    by rewrite Hloaded. }
  split; [done|]. split; [done|].
  rewrite peekRecord_named by done. unfold StoreReads.peekLoadedRecord.
  unfold bind at 1, gets at 1.
  rewrite peekRecordIdentifier_name_id, Hfind by done.
  unfold bind at 1, gets at 1. simpl mbind. rewrite Hpeek.
  unfold bind at 1, gets at 1. cbn [from_option]. rewrite Hloaded.
  unfold getRecord, InternalModelFactory.lookupIdentifier.
  unfold bind at 1. unfold bind at 1. unfold bind at 1. unfold gets at 1.
  rewrite (lookup_existing st' _ l im);
    [|apply peekRecordIdentifier_identifier, (onlyIdentifierOf_on_file _ _ _ _ Honly)|done].
  unfold InternalModels.update, modify, ret. eexists. split; [reflexivity|].
  unfold InternalModels.hasRecord, InternalModels.field. simpl.
  rewrite lookup_alter_eq.
  assert (is_Some (internalModels (cancelled im st') !! im)) as [m ->]; [|done].
  apply elem_of_dom. rewrite cancelled_dom. apply elem_of_dom.
  unfold InternalModels.isLoaded, InternalModels.field in Hloaded.
  by destruct (internalModels st' !! im).
Qed.
End LoadNew.

(** [x:1] is loaded into a store that has one created record. *)
Lemma load_new_resource_witness :
  ∃ st' l im,
    CoreStore._load Example.x1 Example.created = (st', Ok l)
    ∧ onlyIdentifierOf "x" "1" l st'
    ∧ InternalModelFactory.peek l st' = Some im
    ∧ InternalModels.data im st' = Some Example.x1
    ∧ recordArrayChanges st' = (recordArrayChanges Example.created ++ [l])%list.
Proof.
  destruct (load_new_resource Example.created Example.x1 "x" "1")
    as (st' & l & im & Hrun & _ & _ & Honly & Hpeek & _ & Hdata & Hchanges & _).
  - reflexivity.
  - reflexivity.
  - discriminate.
  - reflexivity.
  - vm_compute. reflexivity.
  - vm_compute. reflexivity.
  - unfold slotsHaveIdentifiers. apply (bool_decide_unpack _). vm_compute. exact I.
  - unfold lidsHaveIdentifiers. apply (bool_decide_unpack _). vm_compute. exact I.
  - exists st', l, im. exact (conj Hrun (conj Honly (conj Hpeek (conj Hdata Hchanges)))).
Defined.

(** [x:1] is asked for before and after it is loaded. *)
Lemma loaded_resource_is_found_witness :
  StoreReads.hasRecordForId "x" (IdString "1") Example.created = (Example.created, Ok false)
  ∧ ∃ st' l,
      CoreStore._load Example.x1 Example.created = (st', Ok l)
      ∧ StoreReads.hasRecordForId "x" (IdString "1") st' = (st', Ok true)
      ∧ ∃ st'', StoreReads.peekRecord (inr "x") (Some (IdString "1")) st'
                = (st'', Ok (Some l)).
Proof.
  destruct (loaded_resource_is_found Example.created Example.x1 "x" "1")
    as (Hbefore & st' & l & im & Hrun & Hafter & _ & _ & st'' & Hpeek & _).
  - vm_compute. reflexivity.
  - discriminate.
  - reflexivity.
  - reflexivity.
  - discriminate.
  - reflexivity.
  - vm_compute. reflexivity.
  - vm_compute. reflexivity.
  - unfold slotsHaveIdentifiers. apply (bool_decide_unpack _). vm_compute. exact I.
  - unfold lidsHaveIdentifiers. apply (bool_decide_unpack _). vm_compute. exact I.
  - split; [exact Hbefore|]. exists st', l. split; [exact Hrun|]. split; [exact Hafter|].
    exists st''. exact Hpeek.
Defined.

(** ** Creating records *)

Section Create.
Import CoreStore InternalModelFactory.

(** X5: [build] for an id that a live entry of the type has, and so
    [createRecord] with that id, fails with the assertion that the id is
    used, and changes nothing. *)
Theorem build_rejects_used_id (st : Store) (type id l : string) (im : nat) :
  id ≠ "" →
  Identifiers.findByTypeAndId (identifierCache st) type id = Some l →
  mapGet type l st = Some im →
  InternalModels.hasScheduledDestroy im st = false →
  build type (Some id) st = (st, Throw (AssertionFailed (alreadyUsedMessage type id)))
  ∧ (isDestroying st || isDestroyed st = false →
     type ≠ "" →
     createRecord type (IdString id) st
     = (st, Throw (AssertionFailed (alreadyUsedMessage type id)))).
Proof.
  intros Hid Hfind Hmap Hsched.
  assert (Hpeek : peekById type id st = (st, Ok (Some im))).
  { unfold peekById. mrun.
    unfold Identifiers.peekRecordIdentifier, constructResource3, read_id. simpl.
    rewrite bool_decide_eq_false_2 by done. unfold normalizeModelName.
    by rewrite Hfind, Hmap, Hsched. }
  assert (Hbuild : build type (Some id) st
                   = (st, Throw (AssertionFailed (alreadyUsedMessage type id)))).
  { unfold build, _build.
    unfold bind at 1, gets at 1. unfold bind at 1.
    rewrite bool_decide_eq_false_2 by done. simpl andb. unfold when.
    unfold bind at 1. rewrite Hpeek. unfold assert.
    by rewrite bool_decide_eq_false_2. }
  split; [done|]. intros Halive Htype.
  unfold createRecord, assertDestroyingStore. unfold bind at 1. unfold bind at 1.
  unfold gets at 1. rewrite Halive. unfold assert at 1, negb, ret at 1.
  unfold bind at 1, assert at 1. rewrite (bool_decide_eq_false_2 (type = "")) by done.
  unfold negb, ret at 1.
  rewrite (bool_decide_eq_false_2 (IdString id = IdNull)) by done.
  rewrite (bool_decide_eq_false_2 (IdString id = IdUndefined)) by done.
  cbn [orb]. unfold bind at 1, ret at 1.
  unfold normalizeModelName. simpl coerceId. rewrite bool_decide_eq_false_2 by done.
  unfold bind at 1. by rewrite Hbuild.
Qed.

Lemma adapterFor_found (st : Store) (modelName : string) (a : Adapter) :
  isDestroying st || isDestroyed st = false →
  modelName ≠ "" →
  adapterOf modelName st = Some a →
  ∃ cache, adapterFor modelName st = (set_adapterCache cache st, Ok a).
Proof.
  intros Halive Hname. unfold adapterOf, adapterFor, assertDestroyingStore.
  unfold bind at 1. unfold bind at 1. unfold gets at 1. rewrite Halive.
  unfold assert at 1, negb, ret at 1.
  unfold bind at 1, assert at 1. rewrite (bool_decide_eq_false_2 (modelName = "")) by done.
  unfold negb, ret at 1. unfold normalizeModelName.
  unfold bind at 1, gets at 1.
  destruct (_adapterCache st !! modelName) as [a0|] eqn:E0.
  { intros [= ->]. exists (_adapterCache st). by destruct st. }
  unfold bind at 1, gets at 1.
  destruct (adapters st !! modelName) as [a1|] eqn:E1.
  { intros [= ->]. by eexists. }
  unfold bind at 1, gets at 1.
  destruct (match _adapterCache st !! "application" with
            | Some a2 => Some a2
            | None => adapters st !! "application"
            end) as [a2|] eqn:E2.
  { intros [= ->]. by eexists. }
  unfold bind at 1, gets at 1. intros ->. by eexists.
Qed.

Lemma adapterFor_missing (st : Store) (modelName : string) :
  isDestroying st || isDestroyed st = false →
  modelName ≠ "" →
  adapterOf modelName st = None →
  adapterFor modelName st = (st, Throw (AssertionFailed (noAdapterMessage modelName))).
Proof.
  intros Halive Hname. unfold adapterOf, adapterFor, assertDestroyingStore.
  unfold bind at 1. unfold bind at 1. unfold gets at 1. rewrite Halive.
  unfold assert at 1, negb, ret at 1.
  unfold bind at 1, assert at 1. rewrite (bool_decide_eq_false_2 (modelName = "")) by done.
  unfold negb, ret at 1. unfold normalizeModelName.
  unfold bind at 1, gets at 1.
  destruct (_adapterCache st !! modelName) as [a0|] eqn:E0; [done|].
  unfold bind at 1, gets at 1.
  destruct (adapters st !! modelName) as [a1|] eqn:E1; [done|].
  unfold bind at 1, gets at 1.
  destruct (match _adapterCache st !! "application" with
            | Some a2 => Some a2
            | None => adapters st !! "application"
            end) as [a2|] eqn:E2; [done|].
  unfold bind at 1, gets at 1. by intros ->.
Qed.

(** X6: let [createRecord] be called with a non-empty model name and with
    [null] or [undefined] for the id, on a store that is not destroyed.
    When [adapterFor] finds no adapter (none for the model name, no
    application adapter and no adapter [-json-api]), the call fails with
    the assertion of [adapterFor] and changes nothing.  When the adapter
    it finds has no [generateIdForRecord], the call returns: it
    makes an identifier and an entry that did not exist, files the entry
    under the identifier, with the model name, new, without id and with
    its record, and tells the record arrays once. *)
Theorem createRecord_makes_new_record (st : Store) (modelName : string) (id : IdValue) :
  isDestroying st || isDestroyed st = false →
  modelName ≠ "" →
  id = IdNull ∨ id = IdUndefined →
  (adapterOf modelName st = None →
   createRecord modelName id st
   = (st, Throw (AssertionFailed (noAdapterMessage modelName))))
  ∧ (∀ a, adapterOf modelName st = Some a →
       adapter_generateIdForRecord a = None →
       ∃ st' l im,
         createRecord modelName id st = (st', Ok l)
         ∧ cache_identifiers (identifierCache st) !! l = None
         ∧ internalModels st !! im = None
         ∧ peek l st' = Some im
         ∧ InternalModels.identifier im st' = l
         ∧ InternalModels.modelName im st' = modelName
         ∧ InternalModels.id im st' = None
         ∧ InternalModels.field im_isNew false im st' = true
         ∧ InternalModels.hasRecord im st' = true
         ∧ recordArrayChanges st' = (recordArrayChanges st ++ [l])%list).
Proof.
  intros Halive Hname Hid.
  assert (Hnoid : bool_decide (id = IdNull) || bool_decide (id = IdUndefined) = true)
    by by destruct Hid as [-> | ->].
  assert (Hstart : createRecord modelName id st
            = (let! id :=
                 (let! adapter := adapterFor modelName in
                  match adapter_generateIdForRecord adapter with
                  | Some generateIdForRecord => ret (generateIdForRecord modelName)
                  | None => ret IdNull
                  end) in
               let! internalModel := build (normalizeModelName modelName) (coerceId id) in
               let! identifier := gets (InternalModels.identifier internalModel) in
               do! clientDidCreate internalModel in
               do! recordDidChange identifier in
               do! getRecord identifier in
               ret identifier) st).
  { unfold createRecord, assertDestroyingStore. unfold bind at 1. unfold bind at 1.
    unfold gets at 1. rewrite Halive. unfold assert at 1, negb, ret at 1.
    unfold bind at 1, assert at 1.
    rewrite (bool_decide_eq_false_2 (modelName = "")) by done.
    unfold negb, ret at 1. by rewrite Hnoid. }
  rewrite Hstart. clear Hstart. split.
  { intros Hnone. unfold bind at 1. unfold bind at 1.
    by rewrite adapterFor_missing. }
  intros a Hfound Hgen.
  destruct (adapterFor_found st modelName a Halive Hname Hfound) as [cache Hadapter].
  unfold bind at 1. unfold bind at 1. rewrite Hadapter, Hgen. unfold ret at 1.
  set (s0 := set_adapterCache cache st).
  set (c := identifierCache s0).
  set (l := Identifiers.generateLid c).
  set (im := fresh (dom (internalModels s0))).
  set (m0 := mkInternalModel l modelName None root_empty false false false false None).
  set (s1 := set_identityMap
               (<[modelName := <[l := im]> (modelMapFor modelName s0)]> (_identityMap s0))
               (set_internalModels (<[im := m0]> (internalModels s0))
                  (set_identifierCache (Identifiers.register l modelName None c) s0))).
  assert (Hbuild : build modelName None s0 = (s1, Ok im)).
  { unfold build, _build, Identifiers.createIdentifierForNewRecord, InternalModels.create,
      mapAdd. mrun. unfold Identifiers.identifierOf. simpl.
    by rewrite lookup_insert_eq. }
  unfold normalizeModelName. cbn [coerceId].
  unfold bind at 1. rewrite Hbuild.
  assert (Hident : InternalModels.identifier im s1 = l).
  { unfold InternalModels.identifier, InternalModels.field. subst s1. simpl.
    by rewrite lookup_insert_eq. }
  unfold bind at 1, gets at 1. rewrite Hident.
  unfold clientDidCreate, InternalModels.update, recordDidChange.
  unfold bind at 1, modify at 1. unfold bind at 1, modify at 1.
  set (s2 := set_recordArrayChanges _ _).
  assert (Hfile : l ∈ cache_lids (identifierCache s2)).
  { subst s2 s1. simpl. apply elem_of_app. right. by apply list_elem_of_singleton. }
  assert (Hpeek : peek l s2 = Some im).
  { unfold peek, mapGet, modelMapFor, Identifiers.identifierOf. subst s2 s1. simpl.
    rewrite lookup_insert_eq. simpl. rewrite lookup_insert_eq. simpl.
    by rewrite lookup_insert_eq. }
  assert (Hm : internalModels s2 !! im
               = Some (InternalModels.with_currentState created_uncommitted m0)).
  { subst s2 s1. simpl. by rewrite lookup_alter_eq, lookup_insert_eq. }
  assert (Hsame : cancelled im s2 = s2).
  { unfold cancelled, InternalModels.hasScheduledDestroy, InternalModels.field.
    by rewrite Hm. }
  unfold getRecord, lookupIdentifier.
  unfold bind at 1. unfold bind at 1. unfold bind at 1. unfold gets at 1.
  rewrite (lookup_existing s2 _ l im), Hsame;
    [|by apply peekRecordIdentifier_identifier|done].
  assert (Hrec : recordArrayChanges s2 = (recordArrayChanges st ++ [l])%list) by done.
  unfold InternalModels.update, modify, ret.
  exists (set_internalModels (alter (InternalModels.with_hasRecord true) im
                                (internalModels s2)) s2), l, im.
  split; [done|].
  split; [apply (generateLid_fresh c)|].
  split; [apply (not_elem_of_dom (internalModels s0)), is_fresh|].
  split; [exact Hpeek|].
  clearbody s2. clear Hbuild Hident. clearbody s1.
  unfold InternalModels.identifier, InternalModels.modelName, InternalModels.id,
    InternalModels.hasRecord, InternalModels.field.
  simpl. rewrite lookup_alter_eq, Hm. done.
Qed.
End Create.

(** A record with the id of the loaded [x:1] is created. *)
Lemma build_rejects_used_id_witness :
  CoreStore.createRecord "x" (IdString "1") Example.loaded
  = (Example.loaded, Throw (AssertionFailed (InternalModelFactory.alreadyUsedMessage "x" "1"))).
Proof.
  destruct (build_rejects_used_id Example.loaded "x" "1" "0" 0) as [_ Hcreate].
  - discriminate.
  - vm_compute. reflexivity.
  - vm_compute. reflexivity.
  - vm_compute. reflexivity.
  - apply Hcreate; [vm_compute; reflexivity|discriminate].
Defined.

(** A record is created beside the loaded [x:1], and in a store whose
    owner has no adapter. *)
Lemma createRecord_makes_new_record_witness :
  CoreStore.createRecord "x" IdNull Scenes.withoutAdapter
  = (Scenes.withoutAdapter, Throw (AssertionFailed (CoreStore.noAdapterMessage "x")))
  ∧ ∃ st' l im,
      CoreStore.createRecord "x" IdNull Example.loaded = (st', Ok l)
      ∧ cache_identifiers (identifierCache Example.loaded) !! l = None
      ∧ InternalModelFactory.peek l st' = Some im
      ∧ InternalModels.hasRecord im st' = true.
Proof.
  split.
  - destruct (createRecord_makes_new_record Scenes.withoutAdapter "x" IdNull)
      as [Hmissing _].
    + reflexivity.
    + discriminate.
    + by left.
    + apply Hmissing. reflexivity.
  - destruct (createRecord_makes_new_record Example.loaded "x" IdNull) as [_ Hfound].
    + vm_compute. reflexivity.
    + discriminate.
    + by left.
    + destruct (Hfound (mkAdapter None))
        as (st' & l & im & Hrun & Hnew & _ & Hpeek & _ & _ & _ & _ & Hrecord & _).
      * vm_compute. reflexivity.
      * reflexivity.
      * exists st', l, im. exact (conj Hrun (conj Hnew (conj Hpeek Hrecord))).
Defined.

(** ** Removing an entry *)

Section Remove.
Import InternalModelFactory.

(** X7: [remove] empties the slot of the entry in the map of its type and
    takes its identifier off file; every other slot, every other
    identifier and all the entries stay as they are. *)
Theorem remove_unfiles (st : Store) (im : nat) :
  let l := InternalModels.identifier im st in
  let T := InternalModels.modelName im st in
  ∃ st',
    remove im st = (st', Ok tt)
    ∧ mapGet T l st' = None
    ∧ (l ∉ cache_lids (identifierCache st'))
    ∧ (∀ T' l', (T', l') ≠ (T, l) → mapGet T' l' st' = mapGet T' l' st)
    ∧ (∀ l', l' ≠ l →
         (l' ∈ cache_lids (identifierCache st') ↔ l' ∈ cache_lids (identifierCache st)))
    ∧ cache_identifiers (identifierCache st') = cache_identifiers (identifierCache st)
    ∧ internalModels st' = internalModels st.
Proof.
  intros l T. unfold remove, mapRemove, Identifiers.forgetRecordIdentifier. mrun.
  fold l T. eexists. split; [reflexivity|]. simpl.
  split.
  { unfold mapGet, modelMapFor. simpl. rewrite lookup_insert_eq. simpl.
    apply lookup_delete_eq. }
  split.
  { intros Hin. apply list_elem_of_filter in Hin as [Hne _]. by apply Hne. }
  split.
  { intros T' l' Hne. unfold mapGet, modelMapFor. simpl.
    destruct (decide (T' = T)) as [->|HT].
    - rewrite lookup_insert_eq. simpl. rewrite lookup_delete_ne; [done|].
      intros <-. by apply Hne.
    - by rewrite lookup_insert_ne. }
  split; [|done].
  intros l' Hne. rewrite list_elem_of_filter. split; [by intros [_ ?]|by split].
Qed.
End Remove.

(** ** A destroyed store *)

Section Destroyed.
Import CoreStore.

(** X8: on a store that is being destroyed or is destroyed, [push],
    [_push], [createRecord], [deleteRecord], [unloadRecord],
    [_findBelongsToByJsonApiResource], [setRecordId], [hasRecordForId],
    [adapterFor] and, when it is called with a model name, [peekRecord]
    each fail with the assertion that names the method and change
    nothing.  Called with one argument, a resource identifier object,
    [peekRecord] does not check and returns. *)
Theorem destroyed_store_rejects (st : Store) :
  isDestroying st || isDestroyed st = true →
  (∀ doc, rejectsDestroyed "push" (push doc) st)
  ∧ (∀ doc, rejectsDestroyed "_push" (_push doc) st)
  ∧ (∀ modelName id, rejectsDestroyed "createRecord" (createRecord modelName id) st)
  ∧ (∀ identifier, rejectsDestroyed "deleteRecord" (deleteRecord identifier) st)
  ∧ (∀ identifier, rejectsDestroyed "unloadRecord" (unloadRecord identifier) st)
  ∧ (∀ resource parent options,
       rejectsDestroyed "_findBelongsToByJsonApiResource"
         (_findBelongsToByJsonApiResource resource parent options) st)
  ∧ (∀ modelName newId clientId,
       rejectsDestroyed "setRecordId"
         (FactoryIds.storeSetRecordId modelName newId clientId) st)
  ∧ (∀ modelName id,
       rejectsDestroyed "peekRecord" (StoreReads.peekRecord (inr modelName) id) st)
  ∧ (∀ modelName id,
       rejectsDestroyed "hasRecordForId" (StoreReads.hasRecordForId modelName id) st)
  ∧ (∀ modelName, rejectsDestroyed "adapterFor" (adapterFor modelName) st)
  ∧ (∀ resource,
       StoreReads.isMaybeIdentifier resource = true →
       ∃ st' found, StoreReads.peekRecord (inl resource) None st = (st', Ok found)).
Proof.
  intros Hdestroyed.
  assert (Hguard : ∀ method, assertDestroyingStore method st
            = (st, Throw (AssertionFailed
                            ("Attempted to call store." +:+ method
                             +:+ "(), but the store instance has already been destroyed.")))).
  { intros method. unfold assertDestroyingStore, bind, gets, assert.
    by rewrite Hdestroyed. }
  unfold rejectsDestroyed.
  repeat match goal with |- _ ∧ _ => split end;
    try (intros;
         unfold push, _push, createRecord, deleteRecord, unloadRecord,
           _findBelongsToByJsonApiResource, FactoryIds.storeSetRecordId,
           StoreReads.peekRecord, StoreReads.hasRecordForId, adapterFor;
         unfold bind at 1; by rewrite Hguard).
  intros resource Hobject. unfold StoreReads.peekRecord. rewrite Hobject.
  unfold StoreReads.peekLoadedRecord. unfold bind at 1, gets at 1.
  unfold bind at 1, gets at 1. unfold bind at 1, gets at 1.
  destruct (Identifiers.peekRecordIdentifier _ _) as [l|]; [|by eexists _, _].
  destruct (from_option _ _ _); [|by eexists _, _].
  destruct (getRecord_returns l st) as (st' & Hrun & _).
  unfold bind at 1. rewrite Hrun. by eexists _, _.
Qed.

(** X9: [_load] of a resource that has an id and whose type the schema does
    not know fails with the assertion that names the type, and changes
    nothing. *)
Theorem load_unknown_type (st : Store) (data : ResourceData) (i : string) :
  read_id data = IdString i →
  i ≠ "" →
  doesTypeExist (res_type data) st = false →
  _load data st
  = (st, Throw (AssertionFailed (unknownTypeMessage (show_type (res_type data)))))
  ∧ ∀ doc, isDestroying st || isDestroyed st = false →
           doc_included doc = None →
           doc_data doc = DocOne data →
           ∃ e, push doc st = (st, Throw e).
Proof.
  intros Hi Hne Hexists.
  assert (Hload : _load data st
            = (st, Throw (AssertionFailed (unknownTypeMessage (show_type (res_type data)))))).
  { unfold _load. cbv zeta. unfold bind at 1, assert at 1. rewrite Hi.
    rewrite !bool_decide_eq_true_2 by congruence. cbn [andb]. unfold ret at 1.
    unfold bind at 1, gets at 1. rewrite Hexists. reflexivity. }
  split; [done|].
  intros doc Halive Hincluded Hdata.
  unfold push, assertDestroyingStore.
  unfold bind at 1. unfold bind at 1. unfold gets at 1. rewrite Halive.
  unfold assert at 1, negb, ret at 1. unfold bind at 1.
  unfold _push, assertDestroyingStore.
  unfold bind at 1. unfold bind at 1. unfold gets at 1. rewrite Halive.
  unfold assert at 1, negb, ret at 1. rewrite Hincluded, Hdata.
  unfold bind at 1, ret at 1. unfold bind at 1. rewrite Hload. eauto.
Qed.
End Destroyed.

(** ** Peeking *)

Section Peek.
Import CoreStore StoreReads.

(** X10: on a store that is not destroyed, [peekRecord] with a non-empty
    model name and an id that is a non-empty string returns, and makes no
    identifier and no entry; it returns a record exactly when
    [hasRecordForId] answers true for them; when it returns none, it
    changes nothing. *)
Theorem peekRecord_never_creates (st : Store) (modelName i : string) :
  isDestroying st || isDestroyed st = false →
  modelName ≠ "" →
  i ≠ "" →
  ∃ st' found,
    peekRecord (inr modelName) (Some (IdString i)) st = (st', Ok found)
    ∧ hasRecordForId modelName (IdString i) st = (st, Ok (bool_decide (is_Some found)))
    ∧ identifierCache st' = identifierCache st
    ∧ _identityMap st' = _identityMap st
    ∧ dom (internalModels st') = dom (internalModels st)
    ∧ (found = None → st' = st).
Proof.
  intros Halive Hname Hi.
  rewrite peekRecord_named, hasRecordForId_named by done.
  set (r := mkResource (Some modelName) (Some (IdString i)) None ∅).
  unfold peekLoadedRecord.
  unfold bind at 1, gets at 1. unfold bind at 1, gets at 1. unfold bind at 1, gets at 1.
  destruct (Identifiers.peekRecordIdentifier (identifierCache st) r) as [l|] eqn:El;
    unfold mbind, option_bind; cbn [from_option].
  2:{ exists st, None. rewrite bool_decide_eq_false_2; [|by intros [??]]. repeat split. }
  destruct (InternalModelFactory.peek l st) as [im|] eqn:Eim; cbn [from_option].
  2:{ exists st, None. rewrite bool_decide_eq_false_2; [|by intros [??]]. repeat split. }
  destruct (InternalModels.isLoaded im st) eqn:Eloaded.
  2:{ exists st, None. rewrite bool_decide_eq_false_2; [|by intros [??]]. repeat split. }
  unfold getRecord, InternalModelFactory.lookupIdentifier.
  unfold bind at 1. unfold bind at 1. unfold bind at 1. unfold gets at 1.
  rewrite (lookup_existing st _ l im);
    [|apply peekRecordIdentifier_identifier, (peekRecordIdentifier_on_file _ r), El|done].
  unfold InternalModels.update, modify, ret.
  eexists _, (Some l). split; [reflexivity|].
  split; [by rewrite bool_decide_eq_true_2 by eauto|]. simpl.
  split; [apply cancelled_identifierCache|].
  split; [apply cancelled_identityMap|].
  split; [|done]. rewrite dom_alter_L. apply cancelled_dom.
Qed.
End Peek.

(** A store that is being destroyed is pushed to and peeked at. *)
Lemma destroyed_store_rejects_witness :
  rejectsDestroyed "push" (CoreStore.push (Example.document [Example.x2])) Scenes.destroying
  ∧ rejectsDestroyed "peekRecord"
      (StoreReads.peekRecord (inr "x") (Some (IdString "1"))) Scenes.destroying
  ∧ ∃ st' found,
      StoreReads.peekRecord (inl Example.x1) None Scenes.destroying = (st', Ok found).
Proof.
  destruct (destroyed_store_rejects Scenes.destroying)
    as (Hpush & _ & _ & _ & _ & _ & _ & Hpeek & _ & _ & Hobject).
  - vm_compute. reflexivity.
  - split; [apply Hpush|]. split; [apply Hpeek|]. apply Hobject. reflexivity.
Defined.

(** A resource of the type [y], which the schema does not have. *)
Lemma load_unknown_type_witness :
  CoreStore._load Scenes.y1 Example.store0
  = (Example.store0, Throw (AssertionFailed (CoreStore.unknownTypeMessage "y")))
  ∧ ∃ e, CoreStore.push (mkDocument None (DocOne Scenes.y1) None) Example.store0
         = (Example.store0, Throw e).
Proof.
  destruct (load_unknown_type Example.store0 Scenes.y1 "1") as [Hload Hpush].
  - reflexivity.
  - discriminate.
  - vm_compute. reflexivity.
  - split; [exact Hload|]. apply Hpush; reflexivity.
Defined.

(** [x:1] is peeked at after it was loaded without a record. *)
Lemma peekRecord_never_creates_witness :
  ∃ st' found,
    StoreReads.peekRecord (inr "x") (Some (IdString "1")) Example.pushed = (st', Ok found)
    ∧ StoreReads.hasRecordForId "x" (IdString "1") Example.pushed
      = (Example.pushed, Ok (bool_decide (is_Some found)))
    ∧ identifierCache st' = identifierCache Example.pushed
    ∧ dom (internalModels st') = dom (internalModels Example.pushed).
Proof.
  destruct (peekRecord_never_creates Example.pushed "x" "1")
    as (st' & found & Hrun & Hhas & Hcache & _ & Hdom & _).
  - vm_compute. reflexivity.
  - discriminate.
  - discriminate.
  - exists st', found. exact (conj Hrun (conj Hhas (conj Hcache Hdom))).
Defined.

(** ** Deciding whether to fetch *)

Section Fetch.
Import CoreStore.

Lemma preloadData_field {A} (f : InternalModel → A) (d : A)
    (preload : gmap string JsValue) (im r : nat) (st : Store) :
  r ≠ im →
  InternalModels.field f d r (preloadData preload im st).1 = InternalModels.field f d r st.
Proof.
  intros Hne. unfold InternalModels.field. simpl. by rewrite lookup_alter_ne.
Qed.

(** The optional preload of [_fetchDataIfNeededForIdentifier]. *)
Lemma preload_runs (options : FindOptions) (im : nat) (st : Store) :
  ∃ s1, (match opt_preload options with
         | Some preload => preloadData preload im
         | None => ret tt
         end) st = (s1, Ok tt)
        ∧ fetchUntouched st s1
        ∧ identifierCache s1 = identifierCache st
        ∧ _identityMap s1 = _identityMap st
        ∧ (opt_preload options = None → s1 = st).
Proof.
  destruct (opt_preload options); eexists; (split; [reflexivity|]); by repeat split.
Qed.

(** X11: for an entry that is neither empty nor loading,
    [_fetchDataIfNeededForIdentifier] returns a new promise that is
    resolved with the identifier; it hands nothing to the transport and
    files no pending fetch. *)
Theorem loaded_entry_is_not_fetched
    (st : Store) (identifier : string) (options : FindOptions) (im : nat) :
  identifier ∈ cache_lids (identifierCache st) →
  InternalModelFactory.peek identifier st = Some im →
  InternalModels.isEmpty im st = false →
  InternalModels.isLoading im st = false →
  ∃ st' promise,
    _fetchDataIfNeededForIdentifier identifier options st = (st', Ok promise)
    ∧ promises st !! promise = None
    ∧ promises st' !! promise = Some (PromiseResolved (Some identifier))
    ∧ transport st' = transport st
    ∧ pendingFetch st' = pendingFetch st.
Proof.
  intros Hfile Hpeek Hempty Hloading.
  unfold _fetchDataIfNeededForIdentifier, InternalModelFactory.lookupIdentifier.
  unfold bind at 1. unfold bind at 1. unfold gets at 1.
  rewrite (lookup_existing st _ identifier im);
    [|by apply peekRecordIdentifier_identifier|done].
  unfold bind at 1, gets at 1. unfold bind at 1, gets at 1.
  unfold InternalModels.isEmpty, InternalModels.isLoading in *.
  rewrite !cancelled_field by done. rewrite Hempty, Hloading.
  destruct (preload_runs options im (cancelled im st))
    as (s1 & Hrun & (Ht & Hp & Hq) & _).
  unfold bind at 1. rewrite Hrun.
  unfold FetchManager.resolve, FetchManager.newPromise.
  destruct (cancelled_fetchUntouched im st) as (Ht' & Hp' & Hq').
  eexists _, _. split; [reflexivity|]. simpl.
  rewrite lookup_insert_eq, Hq, Hq', Ht, Ht', Hp, Hp'.
  split; [apply not_elem_of_dom, is_fresh|done].
Qed.

(** X12: for an empty entry with no pending fetch,
    [_fetchDataIfNeededForIdentifier] fails with an assertion when the
    identifier has no id, and nothing reaches the transport; when the
    identifier has an id, one request for the identifier reaches the
    transport, the promise returned is filed as its pending fetch, and the
    entry is loading. *)
Theorem empty_entry_is_fetched
    (st : Store) (identifier : string) (options : FindOptions) (im : nat) :
  identifier ∈ cache_lids (identifierCache st) →
  InternalModelFactory.peek identifier st = Some im →
  InternalModels.isEmpty im st = true →
  opt_preload options = None →
  FetchManager.getPendingFetch identifier options st = None →
  let i := Identifiers.identifierOf (identifierCache st) identifier in
  (ident_id i = None →
   ∃ st',
     _fetchDataIfNeededForIdentifier identifier options st
     = (st', Throw (AssertionFailed
                      "Attempted to schedule a fetch for a record without an id."))
     ∧ fetchUntouched st st')
  ∧ (ident_id i ≠ None →
     ∃ st' promise,
       _fetchDataIfNeededForIdentifier identifier options st = (st', Ok promise)
       ∧ transport st' = (transport st ++ [FindRecordRequest identifier])%list
       ∧ FetchManager.getPendingFetch identifier options st' = Some promise
       ∧ promises st' !! promise = Some PromisePending
       ∧ InternalModels.isLoading im st' = true).
Proof.
  intros Hfile Hpeek Hempty Hpreload Hpending i.
  assert (Hrun : _fetchDataIfNeededForIdentifier identifier options st
            = (do! assertIdentifierHasId identifier in
               FetchManager.scheduleFetch identifier options) (cancelled im st)).
  { unfold _fetchDataIfNeededForIdentifier, InternalModelFactory.lookupIdentifier.
    unfold bind at 1. unfold bind at 1. unfold gets at 1.
    rewrite (lookup_existing st _ identifier im);
      [|by apply peekRecordIdentifier_identifier|done].
    unfold bind at 1, gets at 1. unfold bind at 1, gets at 1.
    unfold InternalModels.isEmpty in *. rewrite cancelled_field by done.
    rewrite Hempty, Hpreload. unfold bind at 1, ret at 1. reflexivity. }
  rewrite Hrun. clear Hrun.
  unfold assertIdentifierHasId. unfold bind, gets. rewrite cancelled_identifierCache.
  fold i.
  split; intros Hid.
  - assert (bool_decide (ident_id i ≠ None) = false) as ->
      by (apply bool_decide_eq_false_2; intros H; by apply H).
    eexists. split; [reflexivity|]. apply cancelled_fetchUntouched.
  - assert (bool_decide (ident_id i ≠ None) = true) as ->
      by by apply bool_decide_eq_true_2.
    unfold assert at 1, ret at 1.
    unfold FetchManager.scheduleFetch. unfold bind at 1, gets at 1.
    unfold FetchManager.getPendingFetch in *. rewrite cancelled_pendingFetch, Hpending.
    unfold FetchManager.dispatch, FetchManager.newPromise.
    unfold bind at 1, modify at 1. unfold bind at 1. unfold bind at 1, modify at 1.
    unfold bind at 1, gets at 1.
    match goal with |- context [InternalModelFactory.peek identifier ?s] =>
      assert (InternalModelFactory.peek identifier s = Some im) as ->
        by (by rewrite <- (cancelled_peek im st) in Hpeek)
    end.
    unfold InternalModels.update, bind, modify, ret.
    eexists _, _. split; [reflexivity|]. simpl.
    destruct (cancelled_fetchUntouched im st) as (-> & _ & _).
    split; [done|]. rewrite !lookup_insert_eq. split; [done|]. split; [done|].
    assert (Hempty' : InternalModels.isEmpty im (cancelled im st) = true).
    { unfold InternalModels.isEmpty in *. by rewrite cancelled_field. }
    unfold InternalModels.isLoading, InternalModels.isEmpty, InternalModels.field in *.
    simpl. rewrite lookup_alter_eq.
    destruct (internalModels (cancelled im st) !! im) as [m|]; [simpl in *|done].
    by rewrite Hempty'.
Qed.
End Fetch.

(** The loaded [x:1] is asked for. *)
Lemma loaded_entry_is_not_fetched_witness :
  ∃ st' promise,
    CoreStore._fetchDataIfNeededForIdentifier "0" noOptions Example.loaded
    = (st', Ok promise)
    ∧ promises st' !! promise = Some (PromiseResolved (Some "0"))
    ∧ transport st' = transport Example.loaded.
Proof.
  destruct (loaded_entry_is_not_fetched Example.loaded "0" noOptions 0)
    as (st' & promise & Hrun & _ & Hpromise & Htransport & _).
  - vm_compute. by left.
  - vm_compute. reflexivity.
  - vm_compute. reflexivity.
  - vm_compute. reflexivity.
  - exists st', promise. exact (conj Hrun (conj Hpromise Htransport)).
Defined.

(** An empty entry without an id, and the empty entry of [x:1]. *)
Lemma empty_entry_is_fetched_witness :
  (∃ st',
     CoreStore._fetchDataIfNeededForIdentifier "draft" noOptions Scenes.drafted
     = (st', Throw (AssertionFailed
                      "Attempted to schedule a fetch for a record without an id."))
     ∧ fetchUntouched Scenes.drafted st')
  ∧ (∃ st' promise,
       CoreStore._fetchDataIfNeededForIdentifier "0" noOptions Scenes.lookedUp
       = (st', Ok promise)
       ∧ transport st' = (transport Scenes.lookedUp ++ [FindRecordRequest "0"])%list
       ∧ FetchManager.getPendingFetch "0" noOptions st' = Some promise
       ∧ promises st' !! promise = Some PromisePending
       ∧ InternalModels.isLoading 0 st' = true).
Proof.
  split.
  - destruct (empty_entry_is_fetched Scenes.drafted "draft" noOptions 0) as [Hnone _].
    + vm_compute. by left.
    + vm_compute. reflexivity.
    + vm_compute. reflexivity.
    + reflexivity.
    + vm_compute. reflexivity.
    + apply Hnone. vm_compute. reflexivity.
  - destruct (empty_entry_is_fetched Scenes.lookedUp "0" noOptions 0) as [_ Hsome].
    + vm_compute. by left.
    + vm_compute. reflexivity.
    + vm_compute. reflexivity.
    + reflexivity.
    + vm_compute. reflexivity.
    + apply Hsome. vm_compute. discriminate.
Defined.

(** ** A belongsTo relationship without data *)

Section NoData.
Import CoreStore.

(** X13: for a relationship without data, [_findBelongsToByJsonApiResource]
    looks at the link alone: with a link, and a forced reload, a
    dematerialized inverse or a stale edge, it hands one request through
    the link to the transport and returns a pending promise; otherwise it
    returns a promise resolved with [null] and hands nothing to the
    transport.  No entry is made. *)
Theorem belongsTo_without_data
    (st : Store) (resource : JsonApiRelationship) (parentIdentifier : string)
    (options : FindOptions) :
  isDestroying st || isDestroyed st = false →
  rel_data resource = DataNull ∨ rel_data resource = DataUndefined →
  let state := rel_state resource in
  let viaLink :=
    match rel_links_related resource with
    | Some link => bool_decide (link ≠ "")
    | None => false
    end
    && (shouldForceReload state || hasDematerializedInverse state || isStale state) in
  ∃ promise,
    promises st !! promise = None
    ∧ _findBelongsToByJsonApiResource (Some resource) parentIdentifier options st
      = (set_promises
           (<[promise := if viaLink then PromisePending else PromiseResolved None]>
              (promises st))
           (if viaLink
            then set_transport
                   (transport st
                    ++ [FindBelongsToRequest parentIdentifier
                          (default "" (rel_links_related resource))]) st
            else st),
         Ok promise).
Proof.
  intros Halive Hdata state viaLink.
  exists (fresh (dom (promises st))).
  split; [apply not_elem_of_dom, is_fresh|].
  unfold _findBelongsToByJsonApiResource, assertDestroyingStore.
  unfold bind at 1. unfold bind at 1. unfold gets at 1. rewrite Halive.
  unfold assert at 1, negb, ret at 1.
  assert (asOne (rel_data resource) = None) as Hone by by destruct Hdata as [-> | ->].
  assert (areAllInverseRecordsLoaded resource = ret true) as Hall.
  { unfold areAllInverseRecordsLoaded. by destruct Hdata as [-> | ->]. }
  rewrite Hone, Hall.
  unfold bind at 1, ret at 1. unfold bind at 1, ret at 1. unfold bind at 1, ret at 1.
  fold state. cbn [negb andb]. rewrite orb_false_r. fold viaLink.
  destruct viaLink.
  - unfold FetchManager._findBelongsTo, FetchManager.dispatch, FetchManager.newPromise.
    unfold bind, modify. reflexivity.
  - rewrite (bool_decide_eq_true_2 (@None ResourceData = None)) by done.
    unfold FetchManager.resolve, FetchManager.newPromise.
    match goal with |- (if ?b then _ else _) _ = _ => destruct b end; reflexivity.
Qed.
End NoData.

(** A stale relationship that has a link and no data. *)
Lemma belongsTo_without_data_witness :
  ∃ promise,
    promises Example.loaded !! promise = None
    ∧ CoreStore._findBelongsToByJsonApiResource (Some Scenes.authorLink) "0" noOptions
        Example.loaded
      = (set_promises (<[promise := PromisePending]> (promises Example.loaded))
           (set_transport
              (transport Example.loaded ++ [FindBelongsToRequest "0" "/posts/1/author"])
              Example.loaded),
         Ok promise).
Proof.
  destruct (belongsTo_without_data Example.loaded Scenes.authorLink "0" noOptions)
    as (promise & Hnew & Hrun).
  - vm_compute. reflexivity.
  - by right.
  - exists promise. split; [exact Hnew|]. rewrite Hrun. reflexivity.
Defined.

(** ** Setting the id of a record *)

Lemma find_unique {A} (f : A → bool) (xs : list A) (a : A) :
  a ∈ xs → f a = true → (∀ x, x ∈ xs → f x = true → x = a) → find f xs = Some a.
Proof.
  intros Ha Hfa Huniq. induction xs as [|x xs IH]; [by apply elem_of_nil in Ha|].
  simpl. destruct (f x) eqn:Ex.
  - f_equal. apply Huniq; [left|done].
  - apply IH.
    + apply elem_of_cons in Ha as [->|?]; [congruence|done].
    + intros y Hy. apply Huniq. by right.
Qed.

Section SetRecordId.
Import InternalModelFactory FactoryIds.

(** X14: [setRecordId] gives the id to an entry that has none, and to its
    identifier, when no identifier on file has the type and the id; the
    record is then found by its id. *)
Theorem setRecordId_sets_the_id (st : Store) (type id lid : string) (im : nat) :
  id ≠ "" →
  lid ∈ cache_lids (identifierCache st) →
  cache_identifiers (identifierCache st) !! lid = Some (type, None) →
  Identifiers.findByTypeAndId (identifierCache st) type id = None →
  mapGet type lid st = Some im →
  is_Some (internalModels st !! im) →
  InternalModels.id im st = None →
  InternalModels.modelName im st = type →
  InternalModels.hasScheduledDestroy im st = false →
  ∃ st',
    setRecordId type (Some id) lid st = (st', Ok tt)
    ∧ InternalModels.id im st' = Some id
    ∧ ident_id (Identifiers.identifierOf (identifierCache st') lid) = Some id
    ∧ peekById type id st' = (st', Ok (Some im))
    ∧ _identityMap st' = _identityMap st
    ∧ cache_lids (identifierCache st') = cache_lids (identifierCache st).
Proof.
  intros Hid Hfile Hfields Hnone Hmap Hm Hold Hname Hsched.
  assert (Hof : Identifiers.identifierOf (identifierCache st) lid = mkIdentifier type None lid).
  { unfold Identifiers.identifierOf. by rewrite Hfields. }
  assert (Hpeek : peek lid st = Some im).
  { unfold peek. by rewrite Hof. }
  unfold setRecordId.
  unfold bind at 1. unfold Identifiers.getOrCreateRecordIdentifier at 1.
  assert (Identifiers.peekRecordIdentifier (identifierCache st)
            (mkResource (Some type) (Some IdNull) (Some lid) ∅) = Some lid) as ->.
  { unfold Identifiers.peekRecordIdentifier. simpl. by rewrite bool_decide_eq_true_2. }
  unfold bind at 1, gets at 1. rewrite Hpeek.
  unfold bind at 1, gets at 1. rewrite Hold.
  unfold bind at 1, gets at 1. rewrite Hname.
  unfold bind at 1, assert at 1.
  rewrite (bool_decide_eq_false_2 (Some id = None)) by done. cbn [negb andb]. unfold ret at 1.
  unfold bind at 1, assert at 1.
  rewrite (bool_decide_eq_false_2 (@None string ≠ None)) by (intros H; by apply H).
  cbn [negb andb]. unfold ret at 1.
  assert (Hpeek0 : peekById type id st = (st, Ok None)).
  { unfold peekById. mrun.
    unfold Identifiers.peekRecordIdentifier, constructResource3, read_id. simpl.
    rewrite bool_decide_eq_false_2 by done. unfold normalizeModelName.
    by rewrite Hnone. }
  unfold bind at 1. rewrite Hpeek0.
  unfold bind at 1, assert at 1.
  rewrite (bool_decide_eq_true_2 (@None nat = None)) by done. cbn [orb]. unfold ret at 1.
  unfold bind at 1, gets at 1. rewrite Hof. simpl ident_id.
  rewrite (bool_decide_eq_true_2 (@None string = None)) by done. unfold when.
  unfold bind at 1. unfold bind at 1.
  assert (Hupdate : IdentifierMerge.updateRecordIdentifier lid
                      (mkResource (Some type) (Some (id_property (Some id))) None ∅) st
            = (set_identifierCache
                 (IdentifierMerge.assign lid type (Some id) (identifierCache st)) st,
               Ok lid)).
  { unfold IdentifierMerge.updateRecordIdentifier. unfold bind at 1, gets at 1.
    rewrite Hof. simpl. rewrite bool_decide_eq_false_2 by done. simpl.
    unfold normalizeModelName.
    assert (IdentifierMerge.existingIdentifier (identifierCache st) lid type id = None) as ->.
    { unfold IdentifierMerge.existingIdentifier.
      destruct (find _ _) as [l'|] eqn:E; [|done].
      apply find_some in E as [Hin Hb]. apply list_elem_of_In in Hin.
      apply andb_true_iff in Hb as [_ Hb].
      apply (find_none_elem _ _ l') in Hnone; [|done]. simpl in Hnone. congruence. }
    reflexivity. }
  rewrite Hupdate. unfold ret, setId, InternalModels.update, modify.
  eexists. split; [reflexivity|].
  destruct Hm as [m Hm].
  match goal with |- context [peekById type id ?s] => set (final := s) end.
  assert (Hfc : identifierCache final
                = IdentifierMerge.assign lid type (Some id) (identifierCache st)) by done.
  assert (Hfm : _identityMap final = _identityMap st) by done.
  assert (Hfi : internalModels final !! im = Some (InternalModels.with_id (Some id) m)).
  { subst final. simpl. by rewrite lookup_alter_eq, Hm. }
  clearbody final.
  assert (Hfind : Identifiers.findByTypeAndId (identifierCache final) type id = Some lid).
  { rewrite Hfc. unfold Identifiers.findByTypeAndId. simpl. apply find_unique; [done| |].
    - apply bool_decide_eq_true. by rewrite lookup_insert_eq.
    - intros x Hx Hb. apply bool_decide_eq_true in Hb.
      destruct (decide (x = lid)) as [->|Hne]; [done|].
      rewrite lookup_insert_ne in Hb by done.
      apply (find_none_elem _ _ x) in Hnone; [|done]. simpl in Hnone.
      by apply bool_decide_eq_false in Hnone. }
  split.
  { unfold InternalModels.id, InternalModels.field. by rewrite Hfi. }
  split.
  { rewrite Hfc. unfold Identifiers.identifierOf. simpl. by rewrite lookup_insert_eq. }
  split; [|by rewrite Hfc].
  unfold peekById.
  unfold bind at 1, gets at 1.
  assert (Identifiers.peekRecordIdentifier (identifierCache final)
            (constructResource3 (Some type) (Some id) None) = Some lid) as ->.
  { unfold Identifiers.peekRecordIdentifier, constructResource3, read_id. simpl.
    rewrite bool_decide_eq_false_2 by done. exact Hfind. }
  unfold bind at 1, gets at 1.
  assert (mapGet type lid final = Some im) as ->.
  { unfold mapGet, modelMapFor in *. by rewrite Hfm. }
  unfold bind at 1, gets at 1.
  assert (InternalModels.hasScheduledDestroy im final = false) as ->; [|done].
  unfold InternalModels.hasScheduledDestroy, InternalModels.field in *.
  rewrite Hfi. rewrite Hm in Hsched. done.
Qed.

(** X15: [setRecordId] fails, and changes nothing, when the [lid] is on file
    and has no entry, and when the entry has another id already. *)
Theorem setRecordId_rejects (st : Store) (type lid : string) (id : option string) :
  lid ∈ cache_lids (identifierCache st) →
  (peek lid st = None →
   setRecordId type id lid st = (st, Throw (JsError (noSuchRecordMessage type id lid))))
  ∧ (∀ im oldId,
       peek lid st = Some im →
       InternalModels.id im st = Some oldId →
       id ≠ Some oldId →
       setRecordId type id lid st
       = (st, Throw (AssertionFailed
                       (cannotUpdateIdMessage (InternalModels.modelName im st) lid
                          (Some oldId) id)))).
Proof.
  intros Hfile.
  assert (Hresolve : Identifiers.getOrCreateRecordIdentifier
                       (mkResource (Some type) (Some IdNull) (Some lid) ∅) st
                     = (st, Ok lid)).
  { unfold Identifiers.getOrCreateRecordIdentifier, Identifiers.peekRecordIdentifier.
    simpl. by rewrite bool_decide_eq_true_2. }
  split.
  - intros Hpeek. unfold setRecordId. unfold bind at 1. rewrite Hresolve.
    unfold bind at 1, gets at 1. by rewrite Hpeek.
  - intros im oldId Hpeek Hold Hne. unfold setRecordId. unfold bind at 1. rewrite Hresolve.
    unfold bind at 1, gets at 1. rewrite Hpeek.
    unfold bind at 1, gets at 1. rewrite Hold.
    unfold bind at 1, gets at 1.
    unfold bind at 1, assert at 1.
    rewrite (bool_decide_eq_false_2 (Some oldId = None)) by done.
    rewrite andb_false_r. cbn [negb]. unfold ret at 1.
    unfold bind at 1, assert at 1.
    rewrite (bool_decide_eq_true_2 (Some oldId ≠ None)) by done.
    rewrite (bool_decide_eq_true_2 (id ≠ Some oldId)) by done.
    reflexivity.
Qed.
End SetRecordId.

(** The created record is given the id 5. *)
Lemma setRecordId_sets_the_id_witness :
  ∃ st',
    FactoryIds.setRecordId "x" (Some "5") "0" Example.created = (st', Ok tt)
    ∧ InternalModels.id 0 st' = Some "5"
    ∧ ident_id (Identifiers.identifierOf (identifierCache st') "0") = Some "5"
    ∧ InternalModelFactory.peekById "x" "5" st' = (st', Ok (Some 0)).
Proof.
  destruct (setRecordId_sets_the_id Example.created "x" "5" "0" 0)
    as (st' & Hrun & Hid & Hident & Hpeek & _).
  - discriminate.
  - vm_compute. by left.
  - vm_compute. reflexivity.
  - vm_compute. reflexivity.
  - vm_compute. reflexivity.
  - vm_compute. by eexists.
  - vm_compute. reflexivity.
  - vm_compute. reflexivity.
  - vm_compute. reflexivity.
  - exists st'. exact (conj Hrun (conj Hid (conj Hident Hpeek))).
Defined.

(** An identifier without an entry, and the loaded [x:1] given the id 2. *)
Lemma setRecordId_rejects_witness :
  FactoryIds.setRecordId "x" (Some "1") "0" Scenes.identified
  = (Scenes.identified, Throw (JsError (FactoryIds.noSuchRecordMessage "x" (Some "1") "0")))
  ∧ FactoryIds.setRecordId "x" (Some "2") "0" Example.loaded
    = (Example.loaded,
       Throw (AssertionFailed
                (FactoryIds.cannotUpdateIdMessage (InternalModels.modelName 0 Example.loaded)
                   "0" (Some "1") (Some "2")))).
Proof.
  split.
  - destruct (setRecordId_rejects Scenes.identified "x" "0" (Some "1")) as [Hnone _].
    + vm_compute. by left.
    + apply Hnone. vm_compute. reflexivity.
  - destruct (setRecordId_rejects Example.loaded "x" "0" (Some "2")) as [_ Hother].
    + vm_compute. by left.
    + apply (Hother 0 "1").
      * vm_compute. reflexivity.
      * vm_compute. reflexivity.
      * discriminate.
Defined.

(** ** The record cache *)

Section RecordCacheFacts.
Import RecordCache.

(** X16: a record is given an identifier once: after [setRecordIdentifier]
    returned, [recordIdentifierFor] and [peekRecordIdentifier] give that
    identifier, every other record has what it had, and giving the record
    an identifier again throws and leaves the cache as it is. *)
Theorem record_identifier_is_set_once
    (cache cache' : gmap nat string) (record : nat) (identifier : string) :
  setRecordIdentifier record identifier cache = (cache', Ok tt) →
  peekRecordIdentifier record cache = None
  ∧ recordIdentifierFor record cache = Throw (AssertionFailed notARecordMessage)
  ∧ recordIdentifierFor record cache' = Ok identifier
  ∧ peekRecordIdentifier record cache' = Some identifier
  ∧ (∀ other, other ≠ record →
       peekRecordIdentifier other cache' = peekRecordIdentifier other cache)
  ∧ ∀ again, ∃ e, setRecordIdentifier record again cache' = (cache', Throw e).
Proof.
  unfold setRecordIdentifier, recordIdentifierFor, peekRecordIdentifier.
  case_bool_decide as Hhas; [done|]. intros [= <-].
  assert (cache !! record = None) as Hnone.
  { destruct (cache !! record) eqn:E; [|done]. exfalso. apply Hhas. eauto. }
  rewrite Hnone. rewrite lookup_insert_eq.
  repeat split; try done.
  - intros other Hne. by rewrite lookup_insert_ne.
  - intros again. rewrite bool_decide_eq_true_2 by eauto. eauto.
Qed.
End RecordCacheFacts.

(** ** Model factories *)

Section Factories.
Import SchemaService.

(** X17: [getModelFactory] does not cache a miss: when it finds no factory
    it changes nothing, so a factory registered afterwards is found; and it
    caches a hit: the factory it returned is returned again whatever the
    owner has registered since. *)
Theorem model_factory_cache (name : string) (r : Registry) :
  (∀ r', getModelFactory name r = (r', Ok None) → r' = r)
  ∧ (∀ r' f, getModelFactory name r = (r', Ok (Some f)) →
       _modelFactoryCache r' !! name = Some f
       ∧ ∀ owner mixins,
           getModelFactory name
             (mkRegistry owner mixins (factory_class r') (classes r') (_modelFactoryCache r'))
           = (mkRegistry owner mixins (factory_class r') (classes r')
                (_modelFactoryCache r'),
              Ok (Some f))).
Proof.
  unfold getModelFactory. split.
  - intros r'. repeat case_match; naive_solver.
  - intros r' f Hrun.
    assert (_modelFactoryCache r' !! name = Some f) as Hcached.
    { revert Hrun. repeat case_match; intros [= <- <-]; simplify_eq/=;
        try done; try apply lookup_insert_eq. }
    split; [done|]. intros owner mixins. simpl. by rewrite Hcached.
Qed.

(** X18: after [getModelFactory] found a factory whose class is a model
    class, the class has a [modelName] of its own: the one it had, if it
    had one of its own that was not empty, and the name asked for
    otherwise.  A class that is no model class is left as it is. *)
Theorem model_factory_names_the_class
    (name : string) (r r' : Registry) (f k : nat) (klass : ModelClass) :
  _modelFactoryCache r !! name = None →
  getModelFactory name r = (r', Ok (Some f)) →
  factory_class r !! f = Some k →
  classes r !! k = Some klass →
  classes r' !! k
  = Some (if klass_isModel klass
          then mkModelClass true
                 (if hasOwnModelNameSet klass then klass_modelName klass else Some name)
                 true
          else klass)
  ∧ ∀ k', k' ≠ k → classes r' !! k' = classes r !! k'.
Proof.
  intros Hmiss Hrun Hf Hk. revert Hrun. unfold getModelFactory. rewrite Hmiss.
  destruct (match owner_factories r !! _ with Some f0 => _ | None => _ end) as [f0|] eqn:Ef;
    [|done].
  destruct (factory_class r !! f0 ≫= _) as [[k0 klass0]|] eqn:Ek; [|done].
  intros [= <- ->]. rewrite Hf in Ek. simpl in Ek. rewrite Hk in Ek. simpl in Ek.
  injection Ek as <- <-.
  destruct klass as [isModel modelName own]. unfold hasOwnModelNameSet. simpl.
  destruct isModel; simpl.
  - destruct modelName as [n|]; simpl.
    + case_bool_decide; simpl.
      * rewrite lookup_insert_eq. split; [done|]. intros. by rewrite lookup_insert_ne.
      * destruct own; simpl.
        -- by split.
        -- rewrite lookup_insert_eq. split; [done|]. intros. by rewrite lookup_insert_ne.
    + rewrite lookup_insert_eq. split; [done|]. intros. by rewrite lookup_insert_ne.
  - by split.
Qed.
End Factories.

(** The record 0 is given the identifier 0. *)
Lemma record_identifier_is_set_once_witness :
  RecordCache.recordIdentifierFor 0 ∅ = Throw (AssertionFailed RecordCache.notARecordMessage)
  ∧ RecordCache.recordIdentifierFor 0 {[ 0 := "0" ]} = Ok "0"
  ∧ ∃ e, RecordCache.setRecordIdentifier 0 "1" {[ 0 := "0" ]} = ({[ 0 := "0" ]}, Throw e).
Proof.
  destruct (record_identifier_is_set_once ∅ {[ 0 := "0" ]} 0 "0")
    as (_ & Hbefore & Hafter & _ & _ & Hagain).
  - vm_compute. reflexivity.
  - exact (conj Hbefore (conj Hafter (Hagain "1"))).
Defined.

(** The registry has a factory for [post] and none for [user]. *)
Lemma model_factory_cache_witness :
  (SchemaService.getModelFactory "user" Scenes.registry0).1 = Scenes.registry0
  ∧ SchemaService._modelFactoryCache Scenes.registry1 !! "post" = Some 0
  ∧ SchemaService.getModelFactory "post"
      (SchemaService.mkRegistry ∅ ∅ (SchemaService.factory_class Scenes.registry1)
         (SchemaService.classes Scenes.registry1)
         (SchemaService._modelFactoryCache Scenes.registry1))
    = (SchemaService.mkRegistry ∅ ∅ (SchemaService.factory_class Scenes.registry1)
         (SchemaService.classes Scenes.registry1)
         (SchemaService._modelFactoryCache Scenes.registry1),
       Ok (Some 0)).
Proof.
  split.
  - destruct (model_factory_cache "user" Scenes.registry0) as [Hmiss _].
    apply Hmiss. vm_compute. reflexivity.
  - destruct (model_factory_cache "post" Scenes.registry0) as [_ Hhit].
    destruct (Hhit Scenes.registry1 0) as [Hcached Hagain].
    + vm_compute. reflexivity.
    + exact (conj Hcached (Hagain ∅ ∅)).
Defined.

(** The class of [post] has no name before its factory is asked for. *)
Lemma model_factory_names_the_class_witness :
  SchemaService.classes Scenes.registry1 !! 0
  = Some (SchemaService.mkModelClass true (Some "post") true).
Proof.
  destruct (model_factory_names_the_class "post" Scenes.registry0 Scenes.registry1 0 0
              Scenes.postClass) as [Hclass _].
  - reflexivity.
  - vm_compute. reflexivity.
  - reflexivity.
  - reflexivity.
  - exact Hclass.
Defined.

(** ** Reading one attribute of a snapshot *)

Section Attr.
Import SnapshotClass SnapshotReads.

(** The loop of the getter [_attributes] writes, for each key, the value
    read when the loop started, and changes only the heap. *)
Lemma fill_attributes_content (l : nat) (value : string → Store → JsValue)
    (keys : list string) :
  (∀ k s h, value k (set_heap h s) = value k s) →
  ∀ (st : Store) (props : gmap string JsValue),
    heap st !! l = Some (JsObject props) →
    ∃ h' us props',
      forEach (λ keyName, let! v := gets (value keyName) in objectSet l keyName v)
              keys st = (set_heap h' st, Ok us)
      ∧ h' !! l = Some (JsObject props')
      ∧ ∀ k, props' !! k = if bool_decide (k ∈ keys) then Some (value k st)
                           else props !! k.
Proof.
  intros Hvalue. induction keys as [|k0 keys IH]; intros st props Hl.
  - exists (heap st), [], props. split; [by destruct st|]. split; [done|].
    intros k. rewrite bool_decide_eq_false_2; [done|]. apply not_elem_of_nil.
  - set (h1 := alter (λ cell, match cell with
                              | JsObject p => JsObject (<[k0 := value k0 st]> p)
                              | JsArray items => JsArray items
                              end) l (heap st)).
    destruct (IH (set_heap h1 st) (<[k0 := value k0 st]> props))
      as (h' & us & props' & Hrun & Hl' & Hcontent).
    { simpl. subst h1. by rewrite lookup_alter_eq, Hl. }
    exists h', (tt :: us), props'. split.
    { simpl. unfold bind at 1. unfold bind at 1, gets at 1, objectSet at 1, modify at 1.
      fold h1. unfold bind at 1. rewrite Hrun. by destruct st. }
    split; [done|].
    intros k. rewrite Hcontent, Hvalue.
    destruct (decide (k ∈ keys)) as [Hin|Hnotin].
    + rewrite !bool_decide_eq_true_2; [done|by right|done].
    + rewrite (bool_decide_eq_false_2 (k ∈ keys)) by done.
      destruct (decide (k = k0)) as [->|Hne].
      * rewrite bool_decide_eq_true_2 by by left. by rewrite lookup_insert_eq.
      * rewrite bool_decide_eq_false_2.
        -- by rewrite lookup_insert_ne.
        -- intros Hin. apply elem_of_cons in Hin as [?|?]; done.
Qed.

(** X19: on a snapshot that has not taken its attributes yet, [attr]
    returns, for an attribute of the schema of the identifier's type, the
    value the record data has for it, and fails with an assertion for any
    other key. *)
Theorem attr_reads_schema_attributes
    (st : Store) (s : nat) (x : Snapshot) (keyName : string) :
  snapshots st !! s = Some x →
  snap___attributes x = None →
  ∃ st',
    let type := ident_type (Identifiers.identifierOf (identifierCache st')
                              (snap_identifier x)) in
    attr s keyName st
    = (st',
       if bool_decide (keyName ∈ attributeKeys type st')
       then Ok (getAttr (snap_identifier x) keyName st')
       else Throw (AssertionFailed (noAttributeMessage (snap_identifier x) keyName))).
Proof.
  intros Hs Hlazy.
  unfold attr, _attributes, this. unfold bind at 1. unfold bind at 1. rewrite Hs, Hlazy.
  unfold bind at 1.
  destruct (getRecord_returns (snap_identifier x) st) as (s1 & -> & Hsnap & Hheap).
  unfold bind at 1, alloc at 1.
  unfold bind at 1, assign at 1, modify at 1.
  unfold bind at 1, gets at 1. unfold bind at 1, gets at 1. unfold bind at 1, gets at 1.
  set (l := fresh (dom (heap s1))).
  set (σ := set_snapshots _ _).
  set (type := ident_type (Identifiers.identifierOf (identifierCache σ) (snap_identifier x))).
  set (value := λ keyName : string,
                  if schemaIsDSModel (snap_modelName x) σ
                  then getRecordProperty (snap_identifier x) keyName
                  else getAttr (snap_identifier x) keyName).
  destruct (fill_attributes_content l value (attributeKeys type σ)) with (st := σ) (props := (∅ : gmap string JsValue))
    as (h' & us & props' & Hrun & Hl' & Hcontent).
  { intros k s0 h. subst value. simpl. by destruct (schemaIsDSModel _ _). }
  { subst σ. simpl. by rewrite lookup_insert_eq. }
  unfold bind at 1. subst value. cbv beta in Hrun. rewrite Hrun. unfold ret at 1.
  unfold bind at 1, gets at 1. cbn [heap set_heap]. rewrite Hl'.
  exists (set_heap h' σ). cbv zeta.
  assert (Hkeys : attributeKeys
                    (ident_type (Identifiers.identifierOf (identifierCache (set_heap h' σ))
                                   (snap_identifier x))) (set_heap h' σ)
                  = attributeKeys type σ) by done.
  rewrite Hkeys, Hcontent, lookup_empty.
  destruct (bool_decide (keyName ∈ attributeKeys type σ)) eqn:E.
  - unfold ret. f_equal. f_equal. by destruct (schemaIsDSModel _ _).
  - unfold bind. subst σ. simpl. rewrite lookup_alter_eq, Hsnap, Hs. simpl. done.
Qed.
End Attr.

(** The post has the attribute [title] and no attribute [body]. *)
Lemma attr_reads_schema_attributes_witness :
  (∃ st', SnapshotReads.attr 0 "title" Scenes.blogSnapped = (st', Ok (VString "Hello!")))
  ∧ (∃ st', SnapshotReads.attr 0 "body" Scenes.blogSnapped
            = (st', Throw (AssertionFailed (SnapshotReads.noAttributeMessage "3" "body")))).
Proof.
  split.
  - destruct (attr_reads_schema_attributes Scenes.blogSnapped 0 Scenes.lazySnapshot "title")
      as [st' Hrun].
    + vm_compute. reflexivity.
    + reflexivity.
    + exists st'. rewrite Hrun. f_equal.
      assert (st' = run (SnapshotReads.attr 0 "title") Scenes.blogSnapped) as ->
        by exact (eq_sym (f_equal fst Hrun)).
      vm_compute. reflexivity.
  - destruct (attr_reads_schema_attributes Scenes.blogSnapped 0 Scenes.lazySnapshot "body")
      as [st' Hrun].
    + vm_compute. reflexivity.
    + reflexivity.
    + exists st'. rewrite Hrun. f_equal.
      assert (st' = run (SnapshotReads.attr 0 "body") Scenes.blogSnapped) as ->
        by exact (eq_sym (f_equal fst Hrun)).
      vm_compute. reflexivity.
Defined.

(** ** Relationships that are not declared, or have no data *)

Section Relationships.
Import SnapshotClass.
Variables (s : nat) (keyName : string) (mode : bool).

(** X20: when nothing is memoized for the key, [belongsTo] on a key that the
    schema does not declare as a belongsTo relationship, and [hasMany] on
    a key that it does not declare as a hasMany relationship, fail with
    an assertion, and change nothing. *)
Theorem undeclared_relationship_is_rejected (st : Store) (x : Snapshot) :
  snapshots st !! s = Some x →
  (belongsToMemo mode x !! keyName = None →
   relationshipMeta (snap_modelName x) keyName st ≠ Some belongsToKind →
   belongsTo s keyName mode st
   = (st, Throw (AssertionFailed (noBelongsToMessage (snap_identifier x) keyName))))
  ∧ (hasManyMemo mode x !! keyName = None →
     relationshipMeta (snap_modelName x) keyName st ≠ Some hasManyKind →
     hasMany s keyName mode st
     = (st, Throw (AssertionFailed (noHasManyMessage (snap_identifier x) keyName)))).
Proof.
  intros Hs. split; intros Hmemo Hmeta.
  - unfold belongsTo, this. unfold bind at 1. rewrite Hs.
    assert ((if mode then snap__belongsToIds x !! keyName else None) = None) as ->.
    { destruct mode; [exact Hmemo|done]. }
    assert ((if negb mode then snap__belongsToRelationships x !! keyName else None) = None)
      as ->.
    { destruct mode; [done|exact Hmemo]. }
    unfold bind at 1, gets at 1. unfold bind at 1, assert at 1.
    by rewrite bool_decide_eq_false_2.
  - unfold hasMany, this. unfold bind at 1. rewrite Hs.
    assert ((if mode then snap__hasManyIds x !! keyName else None) = None) as ->.
    { destruct mode; [exact Hmemo|done]. }
    assert ((if negb mode then snap__hasManyRelationships x !! keyName else None) = None)
      as ->.
    { destruct mode; [done|exact Hmemo]. }
    unfold bind at 1, gets at 1. unfold bind at 1, assert at 1.
    by rewrite bool_decide_eq_false_2.
Qed.

(** X21: a relationship without data is read without making any entry or
    identifier: [belongsTo] returns [undefined] when nothing is known of
    the relationship and [null] when it is known to be empty, and
    [hasMany] returns [undefined] in both cases; the value is memoized. *)
Theorem relationship_without_data
    (st : Store) (x : Snapshot) (value : JsonApiRelationship) :
  snapshots st !! s = Some x →
  edgeOf keyName x st = Some value →
  rel_data value = DataNull ∨ rel_data value = DataUndefined →
  (belongsToMemo mode x !! keyName = None →
   relationshipMeta (snap_modelName x) keyName st = Some belongsToKind →
   rel_kind value = belongsToKind →
   ∃ st',
     belongsTo s keyName mode st
     = (st', Ok (match rel_data value with DataNull => VNull | _ => VUndefined end))
     ∧ internalModels st' = internalModels st
     ∧ identifierCache st' = identifierCache st
     ∧ heap st' = heap st
     ∧ memoized (belongsToMemo mode) s keyName st'
       = Some (match rel_data value with DataNull => VNull | _ => VUndefined end))
  ∧ (hasManyMemo mode x !! keyName = None →
     relationshipMeta (snap_modelName x) keyName st = Some hasManyKind →
     rel_kind value = hasManyKind →
     ∃ st',
       hasMany s keyName mode st = (st', Ok VUndefined)
       ∧ internalModels st' = internalModels st
       ∧ identifierCache st' = identifierCache st
       ∧ heap st' = heap st
       ∧ memoized (hasManyMemo mode) s keyName st' = Some VUndefined).
Proof.
  intros Hs Hedge Hdata. unfold edgeOf in Hedge. split; intros Hmemo Hmeta Hkind.
  - unfold belongsTo, this. unfold bind at 1. rewrite Hs.
    assert ((if mode then snap__belongsToIds x !! keyName else None) = None) as ->.
    { destruct mode; [exact Hmemo|done]. }
    assert ((if negb mode then snap__belongsToRelationships x !! keyName else None) = None)
      as ->.
    { destruct mode; [done|exact Hmemo]. }
    unfold bind at 1, gets at 1. rewrite Hmeta.
    unfold bind at 1, assert at 1. rewrite bool_decide_eq_true_2 by done. unfold ret at 1.
    unfold bind at 1, gets at 1. unfold bind at 1, gets at 1. rewrite Hedge.
    unfold bind at 1, assert at 1. rewrite bool_decide_eq_true_2 by done. unfold ret at 1.
    unfold memoized, belongsToMemo.
    destruct Hdata as [-> | ->]; simpl CoreStore.asOne; cbv iota;
      unfold bind at 1, ret at 1; unfold bind at 1, ret at 1;
      destruct mode; unfold bind, assign, modify, ret; eexists;
      (split; [reflexivity|]); simpl; rewrite lookup_alter_eq, Hs; simpl;
      by rewrite lookup_insert_eq.
  - unfold hasMany, this. unfold bind at 1. rewrite Hs.
    assert ((if mode then snap__hasManyIds x !! keyName else None) = None) as ->.
    { destruct mode; [exact Hmemo|done]. }
    assert ((if negb mode then snap__hasManyRelationships x !! keyName else None) = None)
      as ->.
    { destruct mode; [done|exact Hmemo]. }
    unfold bind at 1, gets at 1. rewrite Hmeta.
    unfold bind at 1, assert at 1. rewrite bool_decide_eq_true_2 by done. unfold ret at 1.
    unfold bind at 1, gets at 1. unfold bind at 1, gets at 1. rewrite Hedge.
    unfold bind at 1, assert at 1. rewrite bool_decide_eq_true_2 by done. unfold ret at 1.
    unfold memoized, hasManyMemo.
    destruct Hdata as [-> | ->];
      unfold bind at 1, ret at 1;
      destruct mode; unfold bind, assign, modify, ret; eexists;
      (split; [reflexivity|]); simpl; rewrite lookup_alter_eq, Hs; simpl;
      by rewrite lookup_insert_eq.
Qed.
End Relationships.

(** [title] is no relationship of a post, and [author] is not a hasMany. *)
Lemma undeclared_relationship_is_rejected_witness :
  SnapshotClass.belongsTo 0 "title" false Example.snapped
  = (Example.snapped,
     Throw (AssertionFailed (SnapshotClass.noBelongsToMessage "3" "title")))
  ∧ SnapshotClass.hasMany 0 "author" false Example.snapped
    = (Example.snapped,
       Throw (AssertionFailed (SnapshotClass.noHasManyMessage "3" "author"))).
Proof.
  split.
  - destruct (undeclared_relationship_is_rejected 0 "title" false Example.snapped
                Example.postSnapshot) as [Hone _].
    + vm_compute. reflexivity.
    + apply Hone; [reflexivity|]. vm_compute. discriminate.
  - destruct (undeclared_relationship_is_rejected 0 "author" false Example.snapped
                Example.postSnapshot) as [_ Hmany].
    + vm_compute. reflexivity.
    + apply Hmany; [reflexivity|]. vm_compute. discriminate.
Defined.

(** A post that has no author and of whose comments nothing is known. *)
Lemma relationship_without_data_witness :
  (∃ st', SnapshotClass.belongsTo 0 "author" true Scenes.orphan = (st', Ok VNull)
          ∧ internalModels st' = internalModels Scenes.orphan
          ∧ memoized (belongsToMemo true) 0 "author" st' = Some VNull)
  ∧ (∃ st', SnapshotClass.hasMany 0 "comments" true Scenes.orphan = (st', Ok VUndefined)
            ∧ internalModels st' = internalModels Scenes.orphan
            ∧ memoized (hasManyMemo true) 0 "comments" st' = Some VUndefined).
Proof.
  split.
  - destruct (relationship_without_data 0 "author" true Scenes.orphan Scenes.orphanSnapshot
                Scenes.noAuthor) as [Hone _].
    + vm_compute. reflexivity.
    + vm_compute. reflexivity.
    + by left.
    + destruct Hone as (st' & Hrun & Hmodels & _ & _ & Hmemo);
        [reflexivity|vm_compute; reflexivity|reflexivity|].
      exists st'. exact (conj Hrun (conj Hmodels Hmemo)).
  - destruct (relationship_without_data 0 "comments" true Scenes.orphan Scenes.orphanSnapshot
                Scenes.noComments) as [_ Hmany].
    + vm_compute. reflexivity.
    + vm_compute. reflexivity.
    + by right.
    + destruct Hmany as (st' & Hrun & Hmodels & _ & _ & Hmemo);
        [reflexivity|vm_compute; reflexivity|reflexivity|].
      exists st'. exact (conj Hrun (conj Hmodels Hmemo)).
Defined.
